(** * Frame sampling and detection normalisation of the two detection passes

    Shallow embedding of [scripts/run_cv_kill_bill.py] (closed vocabulary,
    YOLOv8n) and [scripts/run_cv_kill_bill_open_vocab.py] (open vocabulary,
    OWL-ViT).  Both scripts consist of one function, [run_detection]: a frame
    loop with a modulo test, a per-detection normalisation body, and a final
    dump of the collected frames as one JSON document.

    The Python runtime the scripts rely on is modelled first (module [Py]):
    exceptions as an error monad, [int] as [Z], [float] as the exact rational
    value of an IEEE 754 binary64 number together with the infinities and
    NaN, every arithmetic result rounded to nearest-even in binary64. *)

From Stdlib Require Import ZArith QArith Qround Qabs Lia Lqa Floats.SpecFloat.
From stdpp Require Import base option list sorting gmap sets strings pretty.

#[local] Open Scope Z_scope.

(* ===================================================================== *)
(** ** The Python runtime                                                 *)
(* ===================================================================== *)

Module Py.

(** Exceptions raised by the builtins the scripts call. *)
Inductive exn : Type :=
  | ValueError
  | OverflowError
  | ZeroDivisionError
  | TypeError
  | IndexError
  | RuntimeError
  | FileNotFoundError
  | NotADirectoryError
  | IsADirectoryError
  | FileExistsError.

(** A computation either returns or raises; nothing in the scripts catches. *)
Inductive result (A : Type) : Type :=
  | OK (a : A)
  | Raise (e : exn).
Arguments OK {A} a.
Arguments Raise {A} e.

#[global] Instance result_ret : MRet result := fun _ a => OK a.
#[global] Instance result_bind : MBind result := fun _ _ f m =>
  match m with
  | OK a => f a
  | Raise e => Raise e
  end.
#[global] Instance result_fmap : FMap result := fun _ _ f m =>
  match m with
  | OK a => OK (f a)
  | Raise e => Raise e
  end.

Definition is_ok {A} (m : result A) : bool :=
  match m with OK _ => true | Raise _ => false end.

(** *** Rationals as booleans *)

Definition Qltb (a b : Q) : bool := negb (Qle_bool b a).
Definition Qeqb (a b : Q) : bool := Qeq_bool a b.

(** *** Rounding an exact quotient to the nearest integer, ties to even *)

Definition rne_div (n d : Z) : Z :=
  let f := n / d in
  let r := n mod d in
  match 2 * r ?= d with
  | Lt => f
  | Gt => f + 1
  | Eq => if Z.even f then f else f + 1
  end.

Definition Qrne (q : Q) : Z := rne_div (Qnum q) (Zpos (Qden q)).

(** Truncation toward zero, what [int(x)] does on a float. *)
Definition Qtrunc (q : Q) : Z := Z.quot (Qnum q) (Zpos (Qden q)).

(** *** binary64 *)

(** A float is its exact rational value, an infinity or NaN.  The two zeros
    are one value here; the scripts never divide by a float zero without
    raising, and nothing else they do tells the zeros apart. *)
Inductive pyfloat : Type :=
  | Fin (q : Q)
  | Inf (neg : bool)
  | NaN.

Definition prec : Z := 53.
Definition emax : Z := 1024.
Definition emin_normal : Z := -1022.

(** [floor (log2 (n/d))] for [n, d > 0]. *)
Definition floor_log2 (n : Z) (d : positive) : Z :=
  let k := Z.log2 n - Z.log2 (Zpos d) in
  let ge :=
    if 0 <=? k then Zpos d * 2 ^ k <=? n else Zpos d <=? n * 2 ^ (- k) in
  if ge then k else k - 1.

(** [m * 2^s] as a reduced rational. *)
Definition scale2 (m s : Z) : Q :=
  if 0 <=? s then inject_Z (m * 2 ^ s) else Qred (Qmake m (Z.to_pos (2 ^ (- s)))).

(** The significand of [n/d > 0] at unit-in-the-last-place exponent [s]. *)
Definition significand (n : Z) (d : positive) (s : Z) : Z :=
  if 0 <=? s then rne_div n (Zpos d * 2 ^ s) else rne_div (n * 2 ^ (- s)) (Zpos d).

Definition ulp_exp (n : Z) (d : positive) : Z :=
  Z.max (floor_log2 n d) emin_normal - (prec - 1).

(** Round-to-nearest-even of a positive rational, with overflow. *)
Definition round_pos (neg : bool) (n : Z) (d : positive) : pyfloat :=
  let s := ulp_exp n d in
  let m := significand n d s in
  if 2 ^ emax <=? (if 0 <=? s then m * 2 ^ s else 0) then Inf neg
  else Fin (scale2 (if neg then - m else m) s).

Definition RN64 (q : Q) : pyfloat :=
  match Qnum q with
  | Z0 => Fin 0
  | Zpos n => round_pos false (Zpos n) (Qden q)
  | Zneg n => round_pos true (Zpos n) (Qden q)
  end.

(** Python's numbers as the scripts meet them: [int] and [float]. *)
Inductive pynum : Type :=
  | PInt (z : Z)
  | PFloat (x : pyfloat).

(** [float(n)] for an [int]. *)
Definition float_of_int (z : Z) : result pyfloat :=
  match RN64 (inject_Z z) with
  | Inf _ => Raise OverflowError
  | x => OK x
  end.

Definition to_float (a : pynum) : result pyfloat :=
  match a with
  | PInt z => float_of_int z
  | PFloat x => OK x
  end.

(** [x < y] on floats; every comparison with NaN is false. *)
Definition float_ltb (x y : pyfloat) : bool :=
  match x, y with
  | NaN, _ | _, NaN => false
  | Fin a, Fin b => Qltb a b
  | Fin _, Inf neg => negb neg
  | Inf neg, Fin _ => neg
  | Inf n1, Inf n2 => n1 && negb n2
  end.

(** CPython compares an [int] with a [float] on their exact values. *)
Definition exact (a : pynum) : pyfloat :=
  match a with
  | PInt z => Fin (inject_Z z)
  | PFloat x => x
  end.

Definition num_ltb (a b : pynum) : bool := float_ltb (exact a) (exact b).
Definition num_gtb (a b : pynum) : bool := num_ltb b a.

(** [max(a, b)] keeps [a] unless [b > a]; [min(a, b)] keeps [a] unless
    [b < a]. *)
Definition py_max (a b : pynum) : pynum := if num_gtb b a then b else a.
Definition py_min (a b : pynum) : pynum := if num_ltb b a then b else a.

Definition Qsign_neg (q : Q) : bool := Qnum q <? 0.
Definition Qis_zero (q : Q) : bool := Qnum q =? 0.

(** [x * y] on floats. *)
Definition fmul (x y : pyfloat) : pyfloat :=
  match x, y with
  | NaN, _ | _, NaN => NaN
  | Fin a, Fin b => RN64 (a * b)
  | Inf n, Fin b | Fin b, Inf n =>
      if Qis_zero b then NaN else Inf (xorb n (Qsign_neg b))
  | Inf n1, Inf n2 => Inf (xorb n1 n2)
  end.

(** [x / y] on floats: a zero divisor raises, the rest is IEEE 754. *)
Definition fdiv (x y : pyfloat) : result pyfloat :=
  match x, y with
  | _, Fin b =>
      if Qis_zero b then Raise ZeroDivisionError
      else match x with
           | Fin a => OK (RN64 (a / b))
           | Inf n => OK (Inf (xorb n (Qsign_neg b)))
           | NaN => OK NaN
           end
  | NaN, _ | _, NaN => OK NaN
  | Inf _, Inf _ => OK NaN
  | Fin _, Inf _ => OK (Fin 0)
  end.

(** [a * b]: exact on two [int]s, otherwise on floats. *)
Definition num_mul (a b : pynum) : result pynum :=
  match a, b with
  | PInt x, PInt y => OK (PInt (x * y))
  | _, _ => x ← to_float a; y ← to_float b; OK (PFloat (fmul x y))
  end.

(** [a / b]: true division, the correctly rounded quotient on two [int]s. *)
Definition num_truediv (a b : pynum) : result pyfloat :=
  match a, b with
  | PInt x, PInt y =>
      if y =? 0 then Raise ZeroDivisionError
      else match RN64 (inject_Z x / inject_Z y) with
           | Inf _ => Raise OverflowError
           | r => OK r
           end
  | _, _ => x ← to_float a; y ← to_float b; fdiv x y
  end.

(** [int(a)]. *)
Definition py_int (a : pynum) : result Z :=
  match a with
  | PInt z => OK z
  | PFloat (Fin q) => OK (Qtrunc q)
  | PFloat (Inf _) => Raise OverflowError
  | PFloat NaN => Raise ValueError
  end.

(** [round(x)] with one argument: an [int], ties to even. *)
Definition py_round (x : pyfloat) : result Z :=
  match x with
  | Fin q => OK (Qrne q)
  | Inf _ => Raise OverflowError
  | NaN => Raise ValueError
  end.

(** [round(x, nd)] for [nd >= 0]: the float nearest to the decimal with [nd]
    places nearest to [x]; infinities and NaN are returned as they are. *)
Definition py_round_nd (x : pyfloat) (nd : Z) : pyfloat :=
  match x with
  | Fin q => RN64 (inject_Z (Qrne (q * inject_Z (10 ^ nd))) / inject_Z (10 ^ nd))
  | _ => x
  end.

(** Truth value of a float: everything but zero. *)
Definition float_truthy (x : pyfloat) : bool :=
  match x with
  | Fin q => negb (Qis_zero q)
  | _ => true
  end.

(** Sequence helpers: [l[0]], [l[i]] with Python's negative indices, and
    unpacking into four names. *)
Definition index0 {A} (l : list A) : result A :=
  match l with
  | x :: _ => OK x
  | [] => Raise IndexError
  end.

Definition py_index {A} (l : list A) (i : Z) : result A :=
  let n := Z.of_nat (length l) in
  let j := if i <? 0 then i + n else i in
  if (0 <=? j) && (j <? n)
  then match l !! Z.to_nat j with Some x => OK x | None => Raise IndexError end
  else Raise IndexError.

Definition unpack4 {A} (l : list A) : result (A * A * A * A) :=
  match l with
  | [a; b; c; d] => OK (a, b, c, d)
  | _ => Raise ValueError
  end.

End Py.

Import Py.

(* ===================================================================== *)
(** ** What both scripts write                                            *)
(* ===================================================================== *)

(** One entry of a frame's ["boxes"] list. [confidence = None] is JSON
    [null]. *)
Record Box : Type := mkBox {
  label : string;
  confidence : option pyfloat;
  bbox_px : list Z;
  bbox_pct : list pyfloat
}.

(** One entry of the ["frames"] list. *)
Record FrameRecord : Type := mkFrameRecord {
  time : pyfloat;
  frame_index : Z;
  boxes : list Box
}.

(** [cv2.VideoCapture]: whether it opened, the frame rate it reports, and the
    frames successive [read()] calls return before [ok] turns false. *)
Record VideoCapture (Frame : Type) : Type := mkCapture {
  isOpened : bool;
  CAP_PROP_FPS : pyfloat;
  stream : list Frame
}.
Arguments mkCapture {Frame} _ _ _.
Arguments isOpened {Frame} _.
Arguments CAP_PROP_FPS {Frame} _.
Arguments stream {Frame} _.

(** [cap.get(cv2.CAP_PROP_FPS) or 30.0] *)
Definition fps_or_default (reported : pyfloat) : pyfloat :=
  if float_truthy reported then reported else Fin 30.

(** [max(1, int(round(video_fps / sample_fps)))] *)
Definition stride_of (video_fps sample_fps : pyfloat) : result Z :=
  q ← fdiv video_fps sample_fps;
  r ← py_round q;
  OK (Z.max 1 r).

(** [round(100 * c / dim, 2)] *)
Definition pct (c : pynum) (dim : Z) : result pyfloat :=
  m ← num_mul (PInt 100) c;
  d ← num_truediv m (PInt dim);
  OK (py_round_nd d 2).

(** [round(frame_idx / video_fps, 3)] *)
Definition frame_time (frame_idx : Z) (video_fps : pyfloat) : result pyfloat :=
  t ← num_truediv (PInt frame_idx) (PFloat video_fps);
  OK (py_round_nd t 3).

(** The four-entry lists of a box, built left to right from the clamped
    coordinates. *)
Definition px_list (x1 y1 x2 y2 : pynum) : result (list Z) :=
  a ← py_int x1; b ← py_int y1; c ← py_int x2; d ← py_int y2;
  OK [a; b; c; d].

Definition pct_list (x1 y1 x2 y2 : pynum) (w h : Z) : result (list pyfloat) :=
  a ← pct x1 w; b ← pct y1 h; c ← pct x2 w; d ← pct y2 h;
  OK [a; b; c; d].

(* ===================================================================== *)
(** ** The file system under [ROOT]                                       *)
(* ===================================================================== *)

Module FS.

(** A path is its list of components below [ROOT]. *)
Definition path : Type := list string.

Record fs : Type := mkFs {
  dirs : gset path;
  files : gmap path string
}.

Definition parent (p : path) : path := removelast p.

(** The ancestors of [p] and [p] itself, shortest first. *)
Definition prefixes (p : path) : list path :=
  map (fun n => take n p) (seq 0 (S (length p))).

(** The proper ancestors of [p]. *)
Definition ancestors (p : path) : list path :=
  match p with
  | [] => []
  | _ => prefixes (parent p)
  end.

Definition is_file (s : fs) (q : path) : bool :=
  bool_decide (is_Some (files s !! q)).

(** [p.mkdir(parents=True, exist_ok=True)]: a regular file in the way
    raises, anything missing is created. *)
Definition mkdir_parents (p : path) (s : fs) : result fs :=
  if existsb (is_file s) (ancestors p) then Raise NotADirectoryError
  else if is_file s p then Raise FileExistsError
  else OK (mkFs (dirs s ∪ list_to_set (prefixes p)) (files s)).

(** [p.open("w")]: the file is created or truncated at once; a directory
    cannot be opened, and the file's directory has to be there. *)
Definition open_w (p : path) (s : fs) : result fs :=
  if bool_decide (p ∈ dirs s) then Raise IsADirectoryError
  else if bool_decide (parent p ∈ dirs s)
  then OK (mkFs (dirs s) (<[p := ""%string]> (files s)))
  else if existsb (is_file s) (ancestors p) then Raise NotADirectoryError
  else Raise FileNotFoundError.

(** [f.write(chunk)] on a file opened at [p]. *)
Definition write (p : path) (chunk : string) (s : fs) : fs :=
  mkFs (dirs s) (<[p := (default ""%string (files s !! p) +:+ chunk)%string]> (files s)).

(** [json.dump(obj, f, indent=2)] writes the encoder's chunks one by one,
    as the encoder yields them. *)
Definition dump (p : path) (chunks : list string) (s : fs) : fs :=
  foldl (fun s c => write p c s) s chunks.

(** The states a reader of the file system can see while [dump] runs:
    one after each [write]. *)
Fixpoint dump_trace (p : path) (chunks : list string) (s : fs) : list fs :=
  match chunks with
  | [] => []
  | c :: cs => write p c s :: dump_trace p cs (write p c s)
  end.

(** [OUT_PATH.parent.mkdir(parents=True, exist_ok=True)] followed by
    [with OUT_PATH.open("w") as f: json.dump(..., f, indent=2)], for the
    chunks the encoder yields: the final state, or the exception of [mkdir]
    or [open] together with the state it left behind.  Permissions and the
    capacity of the disk are outside this model. *)
Definition persist (dest : path) (chunks : list string) (s : fs) : result unit * fs :=
  match mkdir_parents (parent dest) s with
  | Raise e => (Raise e, s)
  | OK s1 =>
      match open_w dest s1 with
      | Raise e => (Raise e, s1)
      | OK s2 => (OK (), dump dest chunks s2)
      end
  end.

(** Every state visible while [persist] runs, in order. *)
Definition persist_trace (dest : path) (chunks : list string) (s : fs) : list fs :=
  match mkdir_parents (parent dest) s with
  | Raise _ => []
  | OK s1 =>
      s1 :: match open_w dest s1 with
            | Raise _ => []
            | OK s2 => s2 :: dump_trace dest chunks s2
            end
  end.

End FS.

Definition VIDEO_PATH : FS.path :=
  ["public"; "Kill_Bill_Vol1_Part2_30FPS_1428s-1432s.mp4"]%string.
Definition OUT_PATH : FS.path :=
  ["data"; "cv"; "kill-bill-clip-detections.json"]%string.

(* ===================================================================== *)
(** ** The frame loop, shared by the two scripts                          *)
(* ===================================================================== *)

Section FrameLoop.
Context {Frame : Type}.
(** What the script does with a sampled frame to obtain its boxes. *)
Variable detect : Frame -> result (list Box).

(** [while True: ok, frame = cap.read() ...]: [rest] is what the capture
    still holds, [frames] the list appended to so far. *)
Fixpoint read_loop (stride : Z) (video_fps : pyfloat) (rest : list Frame)
    (frame_idx : Z) (frames : list FrameRecord) : result (list FrameRecord) :=
  match rest with
  | [] => OK frames
  | frame :: rest' =>
      if negb (frame_idx mod stride =? 0)
      then read_loop stride video_fps rest' (frame_idx + 1) frames
      else
        boxes ← detect frame;
        t ← frame_time frame_idx video_fps;
        read_loop stride video_fps rest' (frame_idx + 1)
          (frames ++ [mkFrameRecord t frame_idx boxes])
  end.

(** From opening the capture to the end of the loop. *)
Definition sample_frames (cap : VideoCapture Frame) (sample_fps : pyfloat)
    : result (pyfloat * list FrameRecord) :=
  if negb (isOpened cap) then Raise RuntimeError
  else
    let video_fps := fps_or_default (CAP_PROP_FPS cap) in
    stride ← stride_of video_fps sample_fps;
    frames ← read_loop stride video_fps (stream cap) 0 [];
    OK (video_fps, frames).
End FrameLoop.

(* ===================================================================== *)
(** ** [scripts/run_cv_kill_bill.py]                                      *)
(* ===================================================================== *)

Module Yolo.

Definition ALLOWED_CLASSES : gset string := {[ "person"%string ]}.

(** [r.names]: a [dict] from class id to name, or something else. *)
Inductive Names : Type :=
  | NamesDict (d : gmap Z string)
  | NamesOther.

(** One element of [r.boxes]: [xyxy] is a tensor of rows, [cls] and [conf]
    are tensors or [None]. *)
Record RawBox : Type := mkRawBox {
  xyxy : list (list pyfloat);
  cls : option (list pyfloat);
  conf : option (list pyfloat)
}.

Record Results : Type := mkResults {
  names : Names;
  r_boxes : option (list RawBox)
}.

(** [names.get(cls_id, f"class-{cls_id}") if isinstance(names, dict)
    else str(cls_id)] *)
Definition label_name (names : Names) (cls_id : Z) : string :=
  match names with
  | NamesDict d => default ("class-" +:+ pretty cls_id)%string (d !! cls_id)
  | NamesOther => pretty cls_id
  end.

(** [int(b.cls[0].item()) if b.cls is not None else -1] *)
Definition cls_id_of (b : RawBox) : result Z :=
  match cls b with
  | Some t => v ← index0 t; py_int (PFloat v)
  | None => OK (-1)
  end.

(** [float(b.conf[0].item()) if b.conf is not None else None] *)
Definition conf_score_of (b : RawBox) : result (option pyfloat) :=
  match conf b with
  | Some t => v ← index0 t; OK (Some v)
  | None => OK None
  end.

(** [max(0, x1)] and [min(w - 1, x2)]: the bound is an [int], the
    coordinate a [float]. *)
Definition clamp_lo (x : pyfloat) : pynum := py_max (PInt 0) (PFloat x).
Definition clamp_hi (dim : Z) (x : pyfloat) : pynum :=
  py_min (PInt (dim - 1)) (PFloat x).

(** The body of [for b in r.boxes]; [None] is the [continue] of the
    allow-list test. *)
Definition normalize (allowed : gset string) (names : Names) (w h : Z)
    (b : RawBox) : result (option Box) :=
  row ← index0 (xyxy b);
  '(x1, y1, x2, y2) ← unpack4 row;
  cls_id ← cls_id_of b;
  conf_score ← conf_score_of b;
  let x1 := clamp_lo x1 in
  let y1 := clamp_lo y1 in
  let x2 := clamp_hi w x2 in
  let y2 := clamp_hi h y2 in
  let label_name := label_name names cls_id in
  if bool_decide (allowed ≠ ∅) && negb (bool_decide (label_name ∈ allowed))
  then OK None
  else
    let confidence := (fun c => py_round_nd c 3) <$> conf_score in
    px ← px_list x1 y1 x2 y2;
    pc ← pct_list x1 y1 x2 y2 w h;
    OK (Some (mkBox label_name confidence px pc)).

(** [for b in r.boxes: ... boxes.append(...)] *)
Fixpoint boxes_loop (allowed : gset string) (names : Names) (w h : Z)
    (bs : list RawBox) (boxes : list Box) : result (list Box) :=
  match bs with
  | [] => OK boxes
  | b :: bs' =>
      o ← normalize allowed names w h b;
      boxes_loop allowed names w h bs'
        (match o with Some x => boxes ++ [x] | None => boxes end)
  end.

(** [results] of one frame turned into its [boxes]. *)
Definition frame_boxes (allowed : gset string) (w h : Z)
    (results : list Results) : result (list Box) :=
  match results with
  | r :: _ =>
      match r_boxes r with
      | Some bs => boxes_loop allowed (names r) w h bs []
      | None => OK []
      end
  | [] => OK []
  end.

(** The document handed to [json.dump]. *)
Record Artifact : Type := mkArtifact {
  a_source : FS.path;
  a_sample_fps : pyfloat;
  a_video_fps : pyfloat;
  a_model : string;
  a_conf : pyfloat;
  a_imgsz : Z;
  a_frames : list FrameRecord
}.

Section Run.
Context {Frame : Type}.
(** [frame.shape[:2]], height first. *)
Variable shape : Frame -> Z * Z.
(** [model.predict(source=frame, imgsz=imgsz, conf=conf, verbose=False)] of
    the model loaded on line 21; loading it is outside this development. *)
Variable predict : Frame -> Z -> pyfloat -> result (list Results).
(** The encoder behind [json.dump(..., indent=2)] on a document: the chunks
    it yields, and the exception that ends it early, if any (an [int] with
    more digits than the interpreter converts to text raises [ValueError]).
    [json.dump] writes each chunk as it comes, so the chunks yielded before
    an exception have been written when it is raised. *)
Variable json_iterencode : Artifact -> list string * option exn.

Definition detect (allowed : gset string) (conf : pyfloat) (imgsz : Z)
    (frame : Frame) : result (list Box) :=
  let '(h, w) := shape frame in
  results ← predict frame imgsz conf;
  frame_boxes allowed w h results.

(** [run_detection] up to [cap.release()]. *)
Definition assemble (allowed : gset string) (cap : VideoCapture Frame)
    (sample_fps conf : pyfloat) (imgsz : Z) : result Artifact :=
  '(video_fps, frames) ← sample_frames (detect allowed conf imgsz) cap sample_fps;
  OK (mkArtifact VIDEO_PATH sample_fps video_fps "yolov8n.pt" conf imgsz frames).

(** [run_detection(sample_fps, conf, imgsz)] on a file system. *)
Definition run_detection (cap : VideoCapture Frame)
    (sample_fps conf : pyfloat) (imgsz : Z) (s : FS.fs)
    : result FS.path * FS.fs :=
  match assemble ALLOWED_CLASSES cap sample_fps conf imgsz with
  | Raise e => (Raise e, s)
  | OK art =>
      let '(chunks, failure) := json_iterencode art in
      let '(r, s') := FS.persist OUT_PATH chunks s in
      (_ ← r; match failure with Some e => Raise e | None => OK OUT_PATH end,
       s')
  end.
End Run.

End Yolo.

(* ===================================================================== *)
(** ** [scripts/run_cv_kill_bill_open_vocab.py]                           *)
(* ===================================================================== *)

Module OpenVocab.

Definition default_prompts : list string :=
  ["katana"; "sword"; "blade"; "yellow jumpsuit"; "yellow suit";
   "yellow outfit"]%string.

(** [prompts or [...]]: [None] and the empty list both give the default. *)
Definition prompts_or_default (prompts : option (list string)) : list string :=
  match prompts with
  | Some (p :: ps) => p :: ps
  | _ => default_prompts
  end.

(** What [post_process_object_detection(...)[0]] holds. *)
Record Results : Type := mkResults {
  r_boxes : list (list pyfloat);
  r_scores : list pyfloat;
  r_labels : list Z
}.

(** [zip(a, b, c)] stops with the shortest. *)
Fixpoint zip3 {A B C} (a : list A) (b : list B) (c : list C) : list (A * B * C) :=
  match a, b, c with
  | x :: a', y :: b', z :: c' => (x, y, z) :: zip3 a' b' c'
  | _, _, _ => []
  end.

(** [max(0.0, x1)] and [min(float(w - 1), x2)]: floats on both sides. *)
Definition clamp_lo (x : pyfloat) : pynum := py_max (PFloat (Fin 0)) (PFloat x).
Definition clamp_hi (dim : Z) (x : pyfloat) : result pynum :=
  bound ← float_of_int (dim - 1);
  OK (py_min (PFloat bound) (PFloat x)).

(** The body of the [for box, score, label_idx in zip(...)] loop. *)
Definition normalize (prompts : list string) (w h : Z)
    (d : list pyfloat * pyfloat * Z) : result Box :=
  let '(box, score, label_idx) := d in
  let conf := score in
  label ← py_index prompts label_idx;
  '(x1, y1, x2, y2) ← unpack4 box;
  let x1 := clamp_lo x1 in
  let y1 := clamp_lo y1 in
  x2 ← clamp_hi w x2;
  y2 ← clamp_hi h y2;
  let confidence := Some (py_round_nd conf 3) in
  px ← px_list x1 y1 x2 y2;
  pc ← pct_list x1 y1 x2 y2 w h;
  OK (mkBox label confidence px pc).

Fixpoint boxes_loop (prompts : list string) (w h : Z)
    (ds : list (list pyfloat * pyfloat * Z)) (boxes : list Box)
    : result (list Box) :=
  match ds with
  | [] => OK boxes
  | d :: ds' =>
      x ← normalize prompts w h d;
      boxes_loop prompts w h ds' (boxes ++ [x])
  end.

Definition frame_boxes (prompts : list string) (w h : Z) (results : Results)
    : result (list Box) :=
  boxes_loop prompts w h
    (zip3 (r_boxes results) (r_scores results) (r_labels results)) [].

Record Artifact : Type := mkArtifact {
  a_source : FS.path;
  a_sample_fps : pyfloat;
  a_video_fps : pyfloat;
  a_model : string;
  a_score_threshold : pyfloat;
  a_prompts : list string;
  a_frames : list FrameRecord
}.

Section Run.
Context {Frame : Type}.
(** [frame_rgb.shape[:2]], height first. *)
Variable shape : Frame -> Z * Z.
(** [torch.cuda.is_available()] *)
Variable cuda_is_available : bool.
(** Processor, model and post-processing on one frame (lines 54 to 58):
    device, model id, prompts, frame and threshold in, results out.
    Loading processor and model is outside this development. *)
Variable predict :
  string -> string -> list string -> Frame -> pyfloat -> result Results.
(** The encoder behind [json.dump(..., indent=2)], as in the other script. *)
Variable json_iterencode : Artifact -> list string * option exn.

Definition device : string :=
  if cuda_is_available then "cuda"%string else "cpu"%string.

Definition detect (model_id : string) (prompts : list string)
    (score_threshold : pyfloat) (frame : Frame) : result (list Box) :=
  let '(h, w) := shape frame in
  results ← predict device model_id prompts frame score_threshold;
  frame_boxes prompts w h results.

Definition assemble (cap : VideoCapture Frame)
    (sample_fps score_threshold : pyfloat) (model_id : string)
    (prompts : option (list string)) : result Artifact :=
  let prompts := prompts_or_default prompts in
  '(video_fps, frames) ←
    sample_frames (detect model_id prompts score_threshold) cap sample_fps;
  OK (mkArtifact VIDEO_PATH sample_fps video_fps model_id score_threshold
        prompts frames).

Definition run_detection (cap : VideoCapture Frame)
    (sample_fps score_threshold : pyfloat) (model_id : string)
    (prompts : option (list string)) (s : FS.fs) : result FS.path * FS.fs :=
  match assemble cap sample_fps score_threshold model_id prompts with
  | Raise e => (Raise e, s)
  | OK art =>
      let '(chunks, failure) := json_iterencode art in
      let '(r, s') := FS.persist OUT_PATH chunks s in
      (_ ← r; match failure with Some e => Raise e | None => OK OUT_PATH end,
       s')
  end.
End Run.

End OpenVocab.

(* ===================================================================== *)
(** ** Properties stated about the scripts                                *)
(* ===================================================================== *)

(** A pixel box inside a [w] by [h] frame, corners in order. *)
Definition px_in_frame (w h : Z) (px : list Z) : Prop :=
  match px with
  | [a; b; c; d] => 0 <= a <= c /\ c <= w - 1 /\ 0 <= b <= d /\ d <= h - 1
  | _ => False
  end.

(** The two bounds the clamps enforce on their own. *)
Definition px_clamped (w h : Z) (px : list Z) : Prop :=
  match px with
  | [a; b; c; d] => 0 <= a /\ c <= w - 1 /\ 0 <= b /\ d <= h - 1
  | _ => False
  end.

(** A raw row with finite, ordered corners that reaches into the frame. *)
Definition meets_frame (w h : Z) (row : list pyfloat) : Prop :=
  match row with
  | [Fin x1; Fin y1; Fin x2; Fin y2] =>
      (x1 <= x2 /\ x1 <= inject_Z (w - 1) /\ 0 <= x2 /\
       y1 <= y2 /\ y1 <= inject_Z (h - 1) /\ 0 <= y2)%Q
  | _ => False
  end.


(** *** Sample inputs *)

(** A two-entry class vocabulary. *)
Definition sample_names : Yolo.Names :=
  Yolo.NamesDict (<[0 := "person"%string]> (<[2 := "car"%string]> ∅)).

(** A YOLO box with one row, a class id and a confidence. *)
Definition sample_box (x1 y1 x2 y2 : Q) (cls_id : Z) (conf : Q) : Yolo.RawBox :=
  Yolo.mkRawBox [[Fin x1; Fin y1; Fin x2; Fin y2]]
    (Some [Fin (inject_Z cls_id)]) (Some [Fin conf]).

(** The percentages recomputed from the stored pixel integers:
    [round(100 * bbox_px[k] / dimension, 2)] for each [k]. *)
Definition pct_of_px (px : list Z) (w h : Z) : result (list pyfloat) :=
  match px with
  | [a; b; c; d] => pct_list (PInt a) (PInt b) (PInt c) (PInt d) w h
  | _ => Raise ValueError
  end.

(** A clamped coordinate that holds the whole number [z]. *)
Definition whole (c : pynum) (z : Z) : Prop :=
  c = PInt z \/ c = PFloat (Fin (inject_Z z)).

(** A raw row of four whole numbers of magnitude below 2^45. *)
Definition whole_row (row : list pyfloat) : Prop :=
  Forall (fun x => exists z, x = Fin (inject_Z z) /\ - 2 ^ 45 < z < 2 ^ 45) row.

(** What the closed-vocabulary pass emits for the raw box
    (10.5, 2, 650, 400) on a 640 by 480 frame. *)
Definition sample_half_in : Yolo.RawBox := sample_box (21 # 2) 2 650 400 0 (7 # 8).
Definition sample_half_out : Box :=
  Eval vm_compute in
    match Yolo.normalize Yolo.ALLOWED_CLASSES sample_names 640 480 sample_half_in with
    | OK (Some b) => b
    | _ => mkBox "" None [] []
    end.

(** The same box through the open-vocabulary pass, matched by prompt 1. *)
Definition sample_ov_in : list pyfloat * pyfloat * Z :=
  ([Fin (21 # 2); Fin 2; Fin 650; Fin 400], Fin (1 # 2), 1).
Definition sample_ov_out : Box :=
  Eval vm_compute in
    match OpenVocab.normalize OpenVocab.default_prompts 640 480 sample_ov_in with
    | OK b => b
    | _ => mkBox "" None [] []
    end.

(** A raw box with whole-number corners, (-5, 2, 650, 400), and what each
    pass emits for it on a 640 by 480 frame. *)
Definition sample_whole_row : list pyfloat :=
  [Fin (inject_Z (-5)); Fin (inject_Z 2); Fin (inject_Z 650); Fin (inject_Z 400)].
Definition sample_whole_in : Yolo.RawBox :=
  Yolo.mkRawBox [sample_whole_row] (Some [Fin 0]) (Some [Fin (7 # 8)]).
Definition sample_whole_out : Box :=
  Eval vm_compute in
    match Yolo.normalize Yolo.ALLOWED_CLASSES sample_names 640 480 sample_whole_in with
    | OK (Some b) => b
    | _ => mkBox "" None [] []
    end.
Definition sample_whole_ov_out : Box :=
  Eval vm_compute in
    match OpenVocab.normalize OpenVocab.default_prompts 640 480
            (sample_whole_row, Fin (1 # 2), 1) with
    | OK b => b
    | _ => mkBox "" None [] []
    end.

(** The smallest positive normal float, [sys.float_info.min] = 2^-1022. *)
Definition float_min : Q := 1 # (2 ^ 1022).

(** *** Rounded quotients *)

(** The relative precision of binary64, and half its smallest spacing. *)
Definition u53 : Q := 1 # 2 ^ 53.
Definition eta : Q := 1 # 2 ^ 1075.

(** A float that is the one nearest to a decimal [k / T] (a decimal with
    two places for [T = 100], with three for [T = 1000]) and that lies
    within half a unit of that place of the number [x], up to the
    tolerance of the float operations: 2^-50, relative to [|x| + 1]. *)
Definition near_decimal (T : positive) (x : Q) (p : pyfloat) : Prop :=
  exists (k : Z) (r : Q),
    p = Fin r /\ RN64 (inject_Z k / inject_Z (Zpos T)) = Fin r /\
    (Qabs (r - x) <= (1 # (2 * T)) + (Qabs x + 1) * (1 # 2 ^ 50))%Q.

(** [p] is [round(100 * c / dimension, 2)] for a number [c] of Python: the
    runtime's product, true division and rounding, in this order.  For a
    finite [c] and a positive dimension that a float holds exactly, this is
    a decimal with two places within half a hundredth of
    [100 * c / dimension]. *)
Definition rounded_pct (c : pynum) (dimension : Z) (p : pyfloat) : Prop :=
  (exists m d,
      num_mul (PInt 100) c = OK m /\
      num_truediv m (PInt dimension) = OK d /\
      p = py_round_nd d 2) /\
  (forall v,
      exact c = Fin v -> (Qabs v <= inject_Z (2 ^ 1000))%Q ->
      1 <= dimension < 2 ^ 53 ->
      near_decimal 100 (100 * v / inject_Z dimension) p).

(** [t] is [round(frame_index / video_fps, 3)] for a finite frame rate:
    the quotient and the rounding of the runtime, hence (for an index that
    a float holds exactly) a decimal with three places within half a
    thousandth of [frame_index / video_fps]. *)
Definition rounded_time (frame_index : Z) (video_fps : Q) (t : pyfloat) : Prop :=
  (exists q,
      num_truediv (PInt frame_index) (PFloat (Fin video_fps)) = OK q /\
      t = py_round_nd q 3) /\
  (- 2 ^ 53 < frame_index < 2 ^ 53 ->
   (Qabs (inject_Z frame_index / video_fps) <= inject_Z (2 ^ 1010))%Q ->
   near_decimal 1000 (inject_Z frame_index / video_fps) t).

(** *** Sampling *)

(** The indices [i mod stride = 0] among [0 .. n-1], ascending. *)
Definition selected (stride : Z) (n : nat) : list Z :=
  filter (fun i => i mod stride = 0) (seqZ 0 (Z.of_nat n)).

(** The frames of a stream that the modulo test lets through, each with its
    index in the full stream, counted from [i]. *)
Fixpoint sampled {Frame} (stride i : Z) (rest : list Frame) : list (Z * Frame) :=
  match rest with
  | [] => []
  | f :: rest' =>
      if i mod stride =? 0 then (i, f) :: sampled stride (i + 1) rest'
      else sampled stride (i + 1) rest'
  end.

(** A frame record that belongs to the frame [p.2] read at index [p.1]. *)
Definition record_of {Frame} (detect : Frame -> result (list Box))
    (video_fps : pyfloat) (rec : FrameRecord) (p : Z * Frame) : Prop :=
  frame_index rec = p.1 /\ detect p.2 = OK (boxes rec) /\
  frame_time p.1 video_fps = OK (time rec).

(** A frame on which the detector reports nothing. *)
Definition yolo_no_detections (results : list Yolo.Results) : Prop :=
  match results with
  | [] => True
  | r :: _ => Yolo.r_boxes r = None \/ Yolo.r_boxes r = Some []
  end.

Definition ov_no_detections (results : OpenVocab.Results) : Prop :=
  OpenVocab.zip3 (OpenVocab.r_boxes results) (OpenVocab.r_scores results)
    (OpenVocab.r_labels results) = [].

(** A capture of five 640 by 480 frames at 30 frames per second, and
    detectors that report nothing on them. *)
Definition sample_cap : VideoCapture (Z * Z) :=
  mkCapture true (Fin 30) (replicate 5 (480, 640)).
Definition silent_yolo (frame : Z * Z) (imgsz : Z) (conf : pyfloat)
    : result (list Yolo.Results) := OK [].
Definition silent_ov (device model_id : string) (prompts : list string)
    (frame : Z * Z) (threshold : pyfloat) : result OpenVocab.Results :=
  OK (OpenVocab.mkResults [] [] []).

(** The documents the two passes assemble from [sample_cap] at 10 samples
    per second. *)
Definition sample_yolo_art : Yolo.Artifact :=
  Eval vm_compute in
    match Yolo.assemble id silent_yolo Yolo.ALLOWED_CLASSES sample_cap
            (Fin 10) (Fin (2 # 5)) 960 with
    | OK a => a
    | Raise _ => Yolo.mkArtifact [] NaN NaN "" NaN 0 []
    end.
Definition sample_ov_art : OpenVocab.Artifact :=
  Eval vm_compute in
    match OpenVocab.assemble id false silent_ov sample_cap (Fin 10) (Fin (1 # 5))
            "google/owlvit-base-patch32" None with
    | OK a => a
    | Raise _ => OpenVocab.mkArtifact [] NaN NaN "" NaN [] []
    end.

(** A detector that reports a person and a car on every frame. *)
Definition busy_yolo (frame : Z * Z) (imgsz : Z) (conf : pyfloat)
    : result (list Yolo.Results) :=
  OK [Yolo.mkResults sample_names
        (Some [sample_box 10 20 300 400 0 (7 # 8);
               sample_box 50 60 200 220 2 (3 # 4)])].
Definition busy_yolo_art : Yolo.Artifact :=
  Eval vm_compute in
    match Yolo.assemble id busy_yolo Yolo.ALLOWED_CLASSES sample_cap
            (Fin 10) (Fin (2 # 5)) 960 with
    | OK a => a
    | Raise _ => Yolo.mkArtifact [] NaN NaN "" NaN 0 []
    end.

(** A box with its confidence blanked. *)
Definition without_confidence (b : Box) : Box :=
  mkBox (label b) None (bbox_px b) (bbox_pct b).

(** *** Malformed raw boxes *)

(** A raw box without a usable row: no row, or a row that does not have
    four entries. *)
Definition yolo_malformed (b : Yolo.RawBox) : Prop :=
  match Yolo.xyxy b with
  | [] => True
  | row :: _ => length row ≠ 4%nat
  end.

Definition ov_malformed (d : list pyfloat * pyfloat * Z) : Prop :=
  length d.1.1 ≠ 4%nat.

(** A raw detection the label policy lets through: no allow-list is
    configured, or its resolved label is on the list. *)
Definition listed (allowed : gset string) (names : Yolo.Names)
    (b : Yolo.RawBox) : bool :=
  match Yolo.cls_id_of b with
  | OK cls_id =>
      bool_decide (allowed = ∅ \/ Yolo.label_name names cls_id ∈ allowed)
  | Raise _ => false
  end.

(** A box with three coordinates, and a detector that reports it before a
    well-formed person. *)
Definition short_box : Yolo.RawBox :=
  Yolo.mkRawBox [[Fin 10; Fin 20; Fin 300]] (Some [Fin 0]) (Some [Fin (7 # 8)]).
Definition good_box : Yolo.RawBox := sample_box 10 20 300 400 0 (7 # 8).
Definition broken_yolo (frame : Z * Z) (imgsz : Z) (conf : pyfloat)
    : result (list Yolo.Results) :=
  OK [Yolo.mkResults sample_names (Some [short_box; good_box])].

(** An empty file system, a JSON encoder that yields nothing, and one that
    raises after its first chunk. *)
Definition empty_fs : FS.fs := FS.mkFs ∅ ∅.
Definition no_chunks {A} (a : A) : list string * option exn := ([], None).

(** *** Persisting *)

(** The text made of the chunks written so far. *)
Definition document (chunks : list string) : string :=
  foldl String.append ""%string chunks.


(** A destination that can be written: it has a name, is not a directory,
    and none of its ancestors is a file. *)
Definition writable (dest : FS.path) (s : FS.fs) : Prop :=
  (dest ≠ []) /\ (dest ∉ FS.dirs s) /\
  Forall (fun q => FS.files s !! q = None) (FS.prefixes (FS.parent dest)).

(** A file system that holds the artifact of an earlier run. *)
Definition used_fs : FS.fs :=
  FS.mkFs {[ []; ["data"%string]; ["data"; "cv"]%string ]}
    {[ OUT_PATH := "old"%string ]}.

(** A float that is a number between [lo] and [hi]. *)
Definition float_within (lo hi : Z) (x : pyfloat) : Prop :=
  exists q, x = Fin q /\ (inject_Z lo <= q)%Q /\ (q <= inject_Z hi)%Q.

(** *** Well-formed raw detections *)

(** Corners that [int()] accepts after clamping: anything but +inf for the
    first corner and anything but -inf for the second. *)
Definition clampable (row : list pyfloat) : Prop :=
  exists x1 y1 x2 y2,
    row = [x1; y1; x2; y2] /\
    x1 ≠ Inf false /\ y1 ≠ Inf false /\ x2 ≠ Inf true /\ y2 ≠ Inf true.

(** A YOLO box with a clampable first row, a finite class id if it has a
    class tensor, and a non-empty confidence tensor if it has one. *)
Definition yolo_well_formed (b : Yolo.RawBox) : Prop :=
  (exists row rest, Yolo.xyxy b = row :: rest /\ clampable row) /\
  (Yolo.cls b = None \/ exists q rest, Yolo.cls b = Some (Fin q :: rest)) /\
  (Yolo.conf b = None \/ exists v rest, Yolo.conf b = Some (v :: rest)).

(** A box whose four corners are NaN. *)
Definition nan_box : Yolo.RawBox :=
  Yolo.mkRawBox [[NaN; NaN; NaN; NaN]] (Some [Fin 0]) None.

(** Results whose boxes, if any, are all well formed. *)
Definition yolo_results_well_formed (results : list Yolo.Results) : Prop :=
  match results with
  | [] => True
  | r :: _ =>
      match Yolo.r_boxes r with
      | None => True
      | Some bs => Forall yolo_well_formed bs
      end
  end.

(** *** The standard library's IEEE 754 model, for comparison *)

(** A [SpecFloat] value as a [pyfloat]. *)
Definition of_spec_float (x : spec_float) : pyfloat :=
  match x with
  | S754_zero _ => Fin 0
  | S754_infinity s => Inf s
  | S754_nan => NaN
  | S754_finite s m e => Fin (scale2 (if s then Zneg m else Zpos m) e)
  end.

(** The binary64 number nearest to [m * 2^e]. *)
Definition spec_float_of (m e : Z) : spec_float :=
  binary_normalize prec emax m e false.

Definition same_float (x y : pyfloat) : bool :=
  match x, y with
  | Fin p, Fin q => Qeq_bool p q
  | Inf s, Inf s' => Bool.eqb s s'
  | NaN, NaN => true
  | _, _ => false
  end.

(** Whether [RN64] of the exact quotient and product of two floats agrees
    with [SFdiv] and [SFmul]. *)
Definition conforms (a b : spec_float) : bool :=
  match of_spec_float a, of_spec_float b with
  | Fin qa, Fin qb =>
      same_float (of_spec_float (SFmul prec emax a b)) (RN64 (qa * qb)) &&
      (Qis_zero qb ||
       same_float (of_spec_float (SFdiv prec emax a b)) (RN64 (qa / qb)))
  | _, _ => true
  end.

(** Normal, subnormal, huge and everyday operands. *)
Definition conformance_operands : list spec_float :=
  [spec_float_of 1 0; spec_float_of 3 0; spec_float_of (-7) 0;
   spec_float_of 100 0; spec_float_of 640 0; spec_float_of 21 (-1);
   spec_float_of 1234577 (-20); spec_float_of (2 ^ 53 - 1) 971;
   spec_float_of 1 (-1074); spec_float_of 3 (-1074); spec_float_of 1 (-1022);
   spec_float_of (2 ^ 52 + 1) (-500)].

(** An open-vocabulary detection with clampable corners and a label index
    inside the prompt list. *)
Definition ov_well_formed (prompts : list string)
    (d : list pyfloat * pyfloat * Z) : Prop :=
  clampable d.1.1 /\
  - Z.of_nat (length prompts) <= d.2 < Z.of_nat (length prompts).

(* ===================================================================== *)
(** ** Facts about the runtime                                            *)
(* ===================================================================== *)

Lemma Qltb_lt (a b : Q) : Qltb a b = true <-> (a < b)%Q.
Proof.
  unfold Qltb. rewrite negb_true_iff. split; intros H.
  - apply Qnot_le_lt. intros Hle. apply Qle_bool_iff in Hle. congruence.
  - destruct (Qle_bool b a) eqn:E; [|reflexivity].
    apply Qle_bool_iff in E. exfalso. exact (Qlt_not_le _ _ H E).
Qed.

Lemma Qltb_ge (a b : Q) : Qltb a b = false <-> (b <= a)%Q.
Proof.
  unfold Qltb. rewrite negb_false_iff. apply Qle_bool_iff.
Qed.

Lemma Qtrunc_nonneg (q : Q) : (0 <= q)%Q -> Qtrunc q = Qfloor q.
Proof.
  destruct q as [n d]. unfold Qle, Qtrunc, Qfloor. simpl. intros H.
  apply Z.quot_div_nonneg; lia.
Qed.

Lemma Qtrunc_ge_0 (q : Q) : (0 <= q)%Q -> 0 <= Qtrunc q.
Proof.
  destruct q as [n d]. unfold Qle, Qtrunc. simpl. intros H.
  apply Z.quot_pos; lia.
Qed.

Lemma Qtrunc_le_Z (q : Q) (m : Z) : (q <= inject_Z m)%Q -> Qtrunc q <= m.
Proof.
  destruct q as [n d]. unfold Qle, Qtrunc. simpl. intros H.
  destruct (Z_le_gt_dec 0 n) as [Hn|Hn].
  - rewrite Z.quot_div_nonneg by lia.
    apply Z.div_le_upper_bound; lia.
  - assert (Hq : n ÷ Z.pos d = - ((- n) ÷ Z.pos d)).
    { rewrite Z.quot_opp_l by lia. lia. }
    rewrite Hq, Z.quot_div_nonneg by lia.
    destruct (Z_le_gt_dec 0 m) as [Hm|Hm].
    + assert (0 <= (- n) / Z.pos d) by (apply Z.div_pos; lia). lia.
    + assert (- m <= (- n) / Z.pos d); [|lia].
      apply Z.div_le_lower_bound; lia.
Qed.

Lemma Qtrunc_mono_nonneg (a b : Q) : (0 <= a)%Q -> (a <= b)%Q -> Qtrunc a <= Qtrunc b.
Proof.
  intros Ha Hab. rewrite !Qtrunc_nonneg; [|eapply Qle_trans; eauto|assumption].
  apply Qfloor_resp_le; assumption.
Qed.

Lemma Qtrunc_inject_Z (z : Z) : Qtrunc (inject_Z z) = z.
Proof. unfold Qtrunc. simpl. apply Z.quot_1_r. Qed.

Lemma rne_div_le (n d M : Z) : 0 < d -> n <= M * d -> rne_div n d <= M.
Proof.
  intros Hd Hn. unfold rne_div.
  pose proof (Z.div_mod n d ltac:(lia)) as E.
  pose proof (Z.mod_pos_bound n d Hd) as B.
  set (f := n / d) in *. set (r := n mod d) in *.
  assert (f <= M) by nia.
  destruct (2 * r ?= d) eqn:C.
  - apply Z.compare_eq in C. destruct (Z.even f); [lia|]. nia.
  - lia.
  - apply Z.compare_gt_iff in C. nia.
Qed.

Lemma rne_div_ge (n d M : Z) : 0 < d -> M * d <= n -> M <= rne_div n d.
Proof.
  intros Hd Hn. unfold rne_div.
  pose proof (Z.div_mod n d ltac:(lia)) as E.
  pose proof (Z.mod_pos_bound n d Hd) as B.
  set (f := n / d) in *. set (r := n mod d) in *.
  assert (M <= f) by nia.
  destruct (2 * r ?= d); [destruct (Z.even f)| |]; lia.
Qed.

Lemma rne_div_1 (n : Z) : rne_div n 1 = n.
Proof.
  unfold rne_div. rewrite Z.div_1_r, Z.mod_1_r. reflexivity.
Qed.

Lemma Qrne_le (q : Q) (M : Z) : (q <= inject_Z M)%Q -> Qrne q <= M.
Proof.
  destruct q as [n d]. unfold Qle, Qrne. simpl. intros H.
  apply rne_div_le; lia.
Qed.

Lemma Qrne_ge (q : Q) (M : Z) : (inject_Z M <= q)%Q -> M <= Qrne q.
Proof.
  destruct q as [n d]. unfold Qle, Qrne. simpl. intros H.
  apply rne_div_ge; lia.
Qed.

Lemma floor_log2_le_0 (n : Z) (d : positive) :
  0 < n -> n <= Zpos d -> floor_log2 n d <= 0.
Proof.
  intros Hn Hd. unfold floor_log2.
  pose proof (Z.log2_le_mono n (Zpos d) Hd).
  destruct (if 0 <=? _ then _ else _); lia.
Qed.

Lemma pow2_pos (e : Z) : 0 < 2 ^ e \/ (e < 0 /\ 2 ^ e = 0).
Proof.
  destruct (Z_lt_ge_dec e 0).
  - right. split; [lia|]. apply Z.pow_neg_r; lia.
  - left. apply Z.pow_pos_nonneg; lia.
Qed.

Lemma scale2_neg_value (m s : Z) :
  s < 0 -> (scale2 m s == inject_Z m / inject_Z (2 ^ (- s)))%Q.
Proof.
  intros Hs. unfold scale2.
  destruct (0 <=? s) eqn:E; [lia|].
  rewrite Qred_correct.
  assert (0 < 2 ^ (- s)) by (apply Z.pow_pos_nonneg; lia).
  unfold Qeq, Qdiv, Qmult, Qinv, inject_Z. simpl.
  destruct (2 ^ (- s)) eqn:P; try lia. simpl. lia.
Qed.

(** A quotient in (0, 1] is rounded to a float in [0, 1]. *)
Lemma RN64_unit_interval (q : Q) :
  (0 < q)%Q -> (q <= 1)%Q -> exists r, RN64 q = Fin r /\ (0 <= r)%Q /\ (r <= 1)%Q.
Proof.
  destruct q as [n d]. intros H0 H1.
  unfold Qlt in H0. unfold Qle in H1. simpl in H0, H1.
  unfold RN64. simpl. destruct n as [|p|p]; try lia.
  unfold round_pos.
  set (s := ulp_exp (Z.pos p) d).
  assert (Hs : s < 0).
  { unfold s, ulp_exp, emin_normal, prec.
    pose proof (floor_log2_le_0 (Z.pos p) d ltac:(lia) ltac:(lia)). lia. }
  destruct (0 <=? s) eqn:E; [lia|].
  change (2 ^ emax <=? 0) with false. cbv iota.
  unfold significand. rewrite E.
  assert (P : 0 < 2 ^ (- s)) by (apply Z.pow_pos_nonneg; lia).
  set (m := rne_div (Z.pos p * 2 ^ (- s)) (Z.pos d)).
  assert (Hm0 : 0 <= m) by (apply rne_div_ge; nia).
  assert (Hm1 : m <= 2 ^ (- s)) by (apply rne_div_le; nia).
  eexists. split; [reflexivity|].
  pose proof (scale2_neg_value m s Hs) as V.
  split; setoid_rewrite V.
  - apply Qle_shift_div_l.
    + change 0%Q with (inject_Z 0). rewrite <- Zlt_Qlt. lia.
    + rewrite Qmult_0_l. change 0%Q with (inject_Z 0). rewrite <- Zle_Qle. lia.
  - apply Qle_shift_div_r.
    + change 0%Q with (inject_Z 0). rewrite <- Zlt_Qlt. lia.
    + rewrite Qmult_1_l. rewrite <- Zle_Qle. lia.
Qed.

Lemma Qred_inject_Z (z : Z) : Qred (inject_Z z) = inject_Z z.
Proof.
  unfold Qred, inject_Z.
  pose proof (Z.ggcd_gcd z 1) as G.
  pose proof (Z.ggcd_correct_divisors z 1) as D.
  destruct (Z.ggcd z 1) as [g [aa bb]]. simpl in *.
  rewrite Z.gcd_1_r in G. subst g. destruct D as [D1 D2].
  assert (A : aa = z) by lia. assert (B : bb = 1) by lia. rewrite A, B. reflexivity.
Qed.

Lemma floor_log2_int (z : Z) : 0 < z -> floor_log2 z 1 = Z.log2 z.
Proof.
  intros Hz. unfold floor_log2.
  change (Z.log2 1) with 0. rewrite Z.sub_0_r.
  pose proof (Z.log2_nonneg z). pose proof (Z.log2_spec z Hz) as [L _].
  destruct (0 <=? Z.log2 z) eqn:E; [|lia].
  destruct (1 * 2 ^ Z.log2 z <=? z) eqn:F; lia.
Qed.

Lemma round_pos_int (neg : bool) (z : Z) :
  0 < z -> z < 2 ^ 53 ->
  round_pos neg z 1 = Fin (inject_Z (if neg then - z else z)).
Proof.
  intros Hz Hb. unfold round_pos.
  assert (L : Z.log2 z < 53) by (apply Z.log2_lt_pow2; lia).
  pose proof (Z.log2_nonneg z) as L0.
  unfold ulp_exp. rewrite floor_log2_int by lia.
  unfold emin_normal, prec.
  replace (Z.max (Z.log2 z) (-1022)) with (Z.log2 z) by lia.
  set (s := Z.log2 z - (53 - 1)).
  assert (Hs : s <= 0) by (unfold s; lia).
  unfold significand, scale2.
  destruct (0 <=? s) eqn:E.
  - assert (s = 0) by lia. rewrite H.
    change (2 ^ 0) with 1. change (1 * 1) with 1. rewrite rne_div_1.
    destruct (2 ^ emax <=? z * 1) eqn:O.
    + unfold emax in O. assert (2 ^ 53 < 2 ^ 1024) by (apply Z.pow_lt_mono_r; lia). lia.
    + f_equal. f_equal. destruct neg; lia.
  - change (2 ^ emax <=? 0) with false. cbv iota.
    rewrite rne_div_1. f_equal.
    assert (P : 0 < 2 ^ (- s)) by (apply Z.pow_pos_nonneg; lia).
    rewrite <- Qred_inject_Z. apply Qred_complete.
    unfold Qeq, inject_Z. simpl.
    destruct (2 ^ (- s)) eqn:Q2; try lia. simpl. destruct neg; lia.
Qed.

(** Integers below 2^53 in magnitude are floats. *)
Lemma RN64_int (z : Z) :
  - 2 ^ 53 < z < 2 ^ 53 -> RN64 (inject_Z z) = Fin (inject_Z z).
Proof.
  intros [Hl Hu]. unfold RN64. simpl. destruct z as [|p|p].
  - reflexivity.
  - apply (round_pos_int false); lia.
  - change (Z.neg p) with (- Z.pos p). apply (round_pos_int true); lia.
Qed.

Lemma float_of_int_exact (z : Z) :
  - 2 ^ 53 < z < 2 ^ 53 -> float_of_int z = OK (Fin (inject_Z z)).
Proof.
  intros H. unfold float_of_int. rewrite RN64_int by assumption. reflexivity.
Qed.

Lemma bind_OK {A B} (m : result A) (f : A -> result B) (b : B) :
  m ≫= f = OK b -> exists a, m = OK a /\ f a = OK b.
Proof. destruct m as [a|e]; simpl; [eauto|discriminate]. Qed.

Lemma bind_Raise {A B} (m : result A) (f : A -> result B) (e : exn) :
  m = Raise e -> m ≫= f = Raise e.
Proof. intros ->. reflexivity. Qed.

Ltac inv_bind H :=
  let a := fresh "a" in
  let E := fresh "E" in
  apply bind_OK in H as (a & E & H).

Tactic Notation "bind_inv" hyp(H) "as" simple_intropattern(a) ident(E) :=
  apply bind_OK in H as (a & E & H).

Lemma unpack4_OK {A} (l : list A) a b c d :
  unpack4 l = OK (a, b, c, d) -> l = [a; b; c; d].
Proof.
  destruct l as [|? [|? [|? [|? [|? ?]]]]]; simpl; intros H; inversion H; reflexivity.
Qed.

Lemma index0_OK {A} (l : list A) a : index0 l = OK a -> exists r, l = a :: r.
Proof. destruct l; simpl; intros H; inversion H; eauto. Qed.

Lemma py_int_exact (a : pynum) (v : Q) : exact a = Fin v -> py_int a = OK (Qtrunc v).
Proof.
  destruct a as [z|[q|n|]]; simpl; intros H; inversion H; subst.
  - rewrite Qtrunc_inject_Z. reflexivity.
  - reflexivity.
Qed.

Lemma py_int_OK_exact (a : pynum) (p : Z) :
  py_int a = OK p -> exists v, exact a = Fin v /\ p = Qtrunc v.
Proof.
  destruct a as [z|[q|n|]]; simpl; intros H; inversion H; subst.
  - exists (inject_Z p). rewrite Qtrunc_inject_Z. auto.
  - eauto.
Qed.

Lemma exact_py_max (a b : pynum) :
  exact (py_max a b) = if float_ltb (exact a) (exact b) then exact b else exact a.
Proof. unfold py_max, num_gtb, num_ltb. destruct (float_ltb _ _); reflexivity. Qed.

Lemma exact_py_min (a b : pynum) :
  exact (py_min a b) = if float_ltb (exact b) (exact a) then exact b else exact a.
Proof. unfold py_min, num_ltb. destruct (float_ltb _ _); reflexivity. Qed.

(** The lower clamp: whatever [int()] accepts of [max(lo, x)] is at least
    [lo]'s truncation. *)
Lemma clamp_lo_bound (lo : pynum) (x : pyfloat) (p : Z) :
  exact lo = Fin 0 -> py_int (py_max lo (PFloat x)) = OK p -> 0 <= p.
Proof.
  intros Hlo H. apply py_int_OK_exact in H as (v & Hv & ->).
  rewrite exact_py_max, Hlo in Hv. simpl in Hv.
  destruct x as [q|n|]; simpl in Hv.
  - destruct (Qltb 0 q) eqn:C; inversion Hv; subst.
    + apply Qltb_lt in C. apply Qtrunc_ge_0. apply Qlt_le_weak. exact C.
    + reflexivity.
  - destruct (negb n); inversion Hv. reflexivity.
  - inversion Hv. reflexivity.
Qed.

Lemma clamp_hi_bound (hi : pynum) (n : Z) (x : pyfloat) (p : Z) :
  exact hi = Fin (inject_Z n) -> py_int (py_min hi (PFloat x)) = OK p -> p <= n.
Proof.
  intros Hhi H. apply py_int_OK_exact in H as (v & Hv & ->).
  rewrite exact_py_min, Hhi in Hv. simpl in Hv.
  destruct x as [q|s|]; simpl in Hv.
  - destruct (Qltb q (inject_Z n)) eqn:C; inversion Hv; subst.
    + apply Qltb_lt in C. apply Qtrunc_le_Z. apply Qlt_le_weak. exact C.
    + rewrite Qtrunc_inject_Z. lia.
  - destruct s; inversion Hv. rewrite Qtrunc_inject_Z. lia.
  - inversion Hv. rewrite Qtrunc_inject_Z. lia.
Qed.

(** An ordered coordinate pair that meets [0, n] keeps its order. *)
Lemma clamp_ordered (lo hi : pynum) (n : Z) (q1 q2 : Q) (p1 p2 : Z) :
  exact lo = Fin 0 -> exact hi = Fin (inject_Z n) -> 0 <= n ->
  (q1 <= q2)%Q -> (q1 <= inject_Z n)%Q -> (0 <= q2)%Q ->
  py_int (py_max lo (PFloat (Fin q1))) = OK p1 ->
  py_int (py_min hi (PFloat (Fin q2))) = OK p2 ->
  p1 <= p2.
Proof.
  intros Hlo Hhi Hn H12 H1n H2 E1 E2.
  apply py_int_OK_exact in E1 as (v1 & Hv1 & ->).
  apply py_int_OK_exact in E2 as (v2 & Hv2 & ->).
  rewrite exact_py_max, Hlo in Hv1. rewrite exact_py_min, Hhi in Hv2.
  simpl in Hv1, Hv2.
  assert (Hn' : (0 <= inject_Z n)%Q).
  { change 0%Q with (inject_Z 0). rewrite <- Zle_Qle. exact Hn. }
  destruct (Qltb 0 q1) eqn:C1; destruct (Qltb q2 (inject_Z n)) eqn:C2;
    inversion Hv1; inversion Hv2; subst;
    apply Qtrunc_mono_nonneg;
    try apply Qltb_lt in C1; try apply Qltb_ge in C1;
    try apply Qltb_lt in C2; try apply Qltb_ge in C2;
    auto using Qlt_le_weak, Qle_refl.
Qed.

Lemma px_list_OK (c1 c2 c3 c4 : pynum) (l : list Z) :
  px_list c1 c2 c3 c4 = OK l ->
  exists p1 p2 p3 p4, l = [p1; p2; p3; p4] /\ py_int c1 = OK p1 /\
    py_int c2 = OK p2 /\ py_int c3 = OK p3 /\ py_int c4 = OK p4.
Proof.
  unfold px_list. intros H.
  inv_bind H. inv_bind H. inv_bind H. inv_bind H. inversion H. subst.
  eauto 10.
Qed.

Lemma pct_list_OK (c1 c2 c3 c4 : pynum) (w h : Z) (l : list pyfloat) :
  pct_list c1 c2 c3 c4 w h = OK l ->
  exists p1 p2 p3 p4, l = [p1; p2; p3; p4] /\ pct c1 w = OK p1 /\
    pct c2 h = OK p2 /\ pct c3 w = OK p3 /\ pct c4 h = OK p4.
Proof.
  unfold pct_list. intros H.
  inv_bind H. inv_bind H. inv_bind H. inv_bind H. inversion H. subst.
  eauto 10.
Qed.

Lemma Yolo_normalize_OK allowed names w h b box :
  Yolo.normalize allowed names w h b = OK (Some box) ->
  exists x1 y1 x2 y2 rest cls_id conf_score,
    Yolo.xyxy b = [x1; y1; x2; y2] :: rest /\
    Yolo.cls_id_of b = OK cls_id /\
    Yolo.conf_score_of b = OK conf_score /\
    (allowed = ∅ \/ Yolo.label_name names cls_id ∈ allowed) /\
    label box = Yolo.label_name names cls_id /\
    confidence box = (fun c => py_round_nd c 3) <$> conf_score /\
    px_list (Yolo.clamp_lo x1) (Yolo.clamp_lo y1) (Yolo.clamp_hi w x2)
      (Yolo.clamp_hi h y2) = OK (bbox_px box) /\
    pct_list (Yolo.clamp_lo x1) (Yolo.clamp_lo y1) (Yolo.clamp_hi w x2)
      (Yolo.clamp_hi h y2) w h = OK (bbox_pct box).
Proof.
  unfold Yolo.normalize. intros H.
  bind_inv H as row Er. apply index0_OK in Er as [rest Hrow].
  bind_inv H as [[[x1 y1] x2] y2] Eu. apply unpack4_OK in Eu. subst row.
  bind_inv H as cls_id Ec. bind_inv H as conf_score Es.
  destruct (bool_decide (allowed ≠ ∅) && _) eqn:F; [discriminate|].
  bind_inv H as px Epx. bind_inv H as pc Epc. inversion H; subst; clear H. simpl.
  exists x1, y1, x2, y2, rest, cls_id, conf_score.
  repeat split; auto.
  apply andb_false_iff in F as [F|F].
  - left. apply bool_decide_eq_false in F. destruct (decide (allowed = ∅)); tauto.
  - right. apply negb_false_iff, bool_decide_eq_true in F. exact F.
Qed.

Lemma OpenVocab_normalize_OK prompts w h row score label_idx box :
  OpenVocab.normalize prompts w h (row, score, label_idx) = OK box ->
  exists x1 y1 x2 y2 c3 c4,
    row = [x1; y1; x2; y2] /\
    py_index prompts label_idx = OK (label box) /\
    confidence box = Some (py_round_nd score 3) /\
    OpenVocab.clamp_hi w x2 = OK c3 /\ OpenVocab.clamp_hi h y2 = OK c4 /\
    px_list (OpenVocab.clamp_lo x1) (OpenVocab.clamp_lo y1) c3 c4 = OK (bbox_px box) /\
    pct_list (OpenVocab.clamp_lo x1) (OpenVocab.clamp_lo y1) c3 c4 w h
      = OK (bbox_pct box).
Proof.
  unfold OpenVocab.normalize. intros H.
  bind_inv H as lbl El. bind_inv H as [[[x1 y1] x2] y2] Er. apply unpack4_OK in Er.
  bind_inv H as c3 E3. bind_inv H as c4 E4. bind_inv H as px Epx.
  bind_inv H as pc Epc. inversion H; subst; clear H. simpl.
  exists x1, y1, x2, y2, c3, c4. repeat split; auto.
Qed.

Lemma OpenVocab_clamp_hi_exact dim x c :
  0 < dim <= 2 ^ 53 -> OpenVocab.clamp_hi dim x = OK c ->
  c = py_min (PFloat (Fin (inject_Z (dim - 1)))) (PFloat x).
Proof.
  intros Hd H. unfold OpenVocab.clamp_hi in H.
  rewrite float_of_int_exact in H by lia. simpl in H. inversion H. reflexivity.
Qed.

Lemma meets_frame_inv w h row :
  meets_frame w h row ->
  exists x1 y1 x2 y2, row = [Fin x1; Fin y1; Fin x2; Fin y2] /\
    (x1 <= x2 /\ x1 <= inject_Z (w - 1) /\ 0 <= x2 /\
     y1 <= y2 /\ y1 <= inject_Z (h - 1) /\ 0 <= y2)%Q.
Proof.
  destruct row as [|[x1| |] [|[y1| |] [|[x2| |] [|[y2| |] [|? ?]]]]]; simpl;
    try contradiction.
  intros H. exists x1, y1, x2, y2. split; [reflexivity|exact H].
Qed.

Lemma Yolo_px_clamped allowed names w h b box :
  Yolo.normalize allowed names w h b = OK (Some box) ->
  px_clamped w h (bbox_px box).
Proof.
  intros H. apply Yolo_normalize_OK in H
    as (x1 & y1 & x2 & y2 & rest & cls_id & cs & _ & _ & _ & _ & _ & _ & Hpx & _).
  apply px_list_OK in Hpx as (p1 & p2 & p3 & p4 & -> & E1 & E2 & E3 & E4).
  simpl. repeat split.
  - eapply clamp_lo_bound; [|exact E1]; reflexivity.
  - eapply clamp_hi_bound; [|exact E3]; reflexivity.
  - eapply clamp_lo_bound; [|exact E2]; reflexivity.
  - eapply clamp_hi_bound; [|exact E4]; reflexivity.
Qed.

Lemma Yolo_px_in_frame allowed names w h b box row rest :
  1 <= w -> 1 <= h ->
  Yolo.xyxy b = row :: rest -> meets_frame w h row ->
  Yolo.normalize allowed names w h b = OK (Some box) ->
  px_in_frame w h (bbox_px box).
Proof.
  intros Hw Hh Hrow Hm H.
  apply meets_frame_inv in Hm as (q1 & r1 & q2 & r2 & -> & Hx & Hxw & Hx0 & Hy & Hyh & Hy0).
  apply Yolo_normalize_OK in H
    as (x1 & y1 & x2 & y2 & rest' & cls_id & cs & Hr & _ & _ & _ & _ & _ & Hpx & _).
  rewrite Hrow in Hr. inversion Hr; subst; clear Hr.
  apply px_list_OK in Hpx as (p1 & p2 & p3 & p4 & -> & E1 & E2 & E3 & E4).
  simpl. repeat split.
  - eapply clamp_lo_bound; [|exact E1]; reflexivity.
  - eapply (clamp_ordered _ _ (w - 1)); [| | | | | |exact E1|exact E3];
      first [reflexivity|assumption|lia].
  - eapply clamp_hi_bound; [|exact E3]; reflexivity.
  - eapply clamp_lo_bound; [|exact E2]; reflexivity.
  - eapply (clamp_ordered _ _ (h - 1)); [| | | | | |exact E2|exact E4];
      first [reflexivity|assumption|lia].
  - eapply clamp_hi_bound; [|exact E4]; reflexivity.
Qed.

Lemma OpenVocab_px_clamped prompts w h row score label_idx box :
  0 < w <= 2 ^ 53 -> 0 < h <= 2 ^ 53 ->
  OpenVocab.normalize prompts w h (row, score, label_idx) = OK box ->
  px_clamped w h (bbox_px box).
Proof.
  intros Hw Hh H. apply OpenVocab_normalize_OK in H
    as (x1 & y1 & x2 & y2 & c3 & c4 & _ & _ & _ & H3 & H4 & Hpx & _).
  apply OpenVocab_clamp_hi_exact in H3; [|assumption].
  apply OpenVocab_clamp_hi_exact in H4; [|assumption]. subst c3 c4.
  apply px_list_OK in Hpx as (p1 & p2 & p3 & p4 & -> & E1 & E2 & E3 & E4).
  simpl. repeat split.
  - eapply clamp_lo_bound; [|exact E1]; reflexivity.
  - eapply clamp_hi_bound; [|exact E3]; reflexivity.
  - eapply clamp_lo_bound; [|exact E2]; reflexivity.
  - eapply clamp_hi_bound; [|exact E4]; reflexivity.
Qed.

Lemma OpenVocab_px_in_frame prompts w h row score label_idx box :
  0 < w <= 2 ^ 53 -> 0 < h <= 2 ^ 53 ->
  meets_frame w h row ->
  OpenVocab.normalize prompts w h (row, score, label_idx) = OK box ->
  px_in_frame w h (bbox_px box).
Proof.
  intros Hw Hh Hm H.
  apply meets_frame_inv in Hm as (q1 & r1 & q2 & r2 & -> & Hx & Hxw & Hx0 & Hy & Hyh & Hy0).
  apply OpenVocab_normalize_OK in H
    as (x1 & y1 & x2 & y2 & c3 & c4 & Hr & _ & _ & H3 & H4 & Hpx & _).
  inversion Hr; subst; clear Hr.
  apply OpenVocab_clamp_hi_exact in H3; [|assumption].
  apply OpenVocab_clamp_hi_exact in H4; [|assumption]. subst c3 c4.
  apply px_list_OK in Hpx as (p1 & p2 & p3 & p4 & -> & E1 & E2 & E3 & E4).
  simpl. repeat split.
  - eapply clamp_lo_bound; [|exact E1]; reflexivity.
  - eapply (clamp_ordered _ _ (w - 1)); [| | | | | |exact E1|exact E3];
      first [reflexivity|assumption|lia].
  - eapply clamp_hi_bound; [|exact E3]; reflexivity.
  - eapply clamp_lo_bound; [|exact E2]; reflexivity.
  - eapply (clamp_ordered _ _ (h - 1)); [| | | | | |exact E2|exact E4];
      first [reflexivity|assumption|lia].
  - eapply clamp_hi_bound; [|exact E4]; reflexivity.
Qed.

(* ===================================================================== *)
(** ** Pixel boxes                                                        *)
(* ===================================================================== *)

(** C1, as stated, fails: the closed-vocabulary pass turns the raw box
    (700, 2, 650, 400) on a 640 by 480 frame into [700; 2; 639; 400], whose
    left edge lies right of its right edge and outside the frame. *)
Lemma bbox_px_not_in_frame :
  exists box,
    Yolo.normalize Yolo.ALLOWED_CLASSES sample_names 640 480
      (sample_box 700 2 650 400 0 (7 # 8)) = OK (Some box) /\
    bbox_px box = [700; 2; 639; 400] /\
    ~ px_in_frame 640 480 (bbox_px box).
Proof.
  eexists. split; [vm_compute; reflexivity|]. split; [reflexivity|].
  simpl. lia.
Qed.

(** C1 (amended): every emitted box has [0 <= bbox_px[0]],
    [0 <= bbox_px[1]], [bbox_px[2] <= width - 1] and
    [bbox_px[3] <= height - 1]; the full chain
    [0 <= bbox_px[0] <= bbox_px[2] <= width - 1] (and likewise for y) holds
    when the raw corners are finite, ordered and reach into the frame.  The
    open-vocabulary pass converts [width - 1] to a float first, which is
    exact up to 2^53. *)
Theorem bbox_px_bounds :
  (forall allowed names w h b box,
      1 <= w -> 1 <= h ->
      Yolo.normalize allowed names w h b = OK (Some box) ->
      px_clamped w h (bbox_px box) /\
      (forall row rest, Yolo.xyxy b = row :: rest -> meets_frame w h row ->
         px_in_frame w h (bbox_px box)))
  /\
  (forall prompts w h row score label_idx box,
      0 < w <= 2 ^ 53 -> 0 < h <= 2 ^ 53 ->
      OpenVocab.normalize prompts w h (row, score, label_idx) = OK box ->
      px_clamped w h (bbox_px box) /\
      (meets_frame w h row -> px_in_frame w h (bbox_px box))).
Proof.
  split.
  - intros allowed names w h b box Hw Hh H. split.
    + eapply Yolo_px_clamped; eauto.
    + intros row rest Hr Hm. eapply Yolo_px_in_frame; eauto.
  - intros prompts w h row score label_idx box Hw Hh H. split.
    + eapply OpenVocab_px_clamped; eauto.
    + intros Hm. eapply OpenVocab_px_in_frame; eauto.
Qed.

Lemma bbox_px_bounds_witness :
  (1 <= 640 /\ 1 <= 480 /\
   px_in_frame 640 480 [0; 2; 639; 400])
  /\
  (0 < 640 <= 2 ^ 53 /\ 0 < 480 <= 2 ^ 53 /\
   px_in_frame 640 480 [0; 2; 639; 400]).
Proof.
  split.
  - split; [lia|]. split; [lia|].
    refine (proj2 (proj1 bbox_px_bounds Yolo.ALLOWED_CLASSES sample_names 640 480
              (sample_box (-5) 2 650 400 0 (7 # 8))
              (mkBox "person" (Some (Fin (7 # 8))) [0; 2; 639; 400] _)
              _ _ _) _ [] eq_refl _).
    + lia.
    + lia.
    + vm_compute. reflexivity.
    + vm_compute. intuition discriminate.
  - split; [lia|]. split; [lia|].
    refine (proj2 (proj2 bbox_px_bounds OpenVocab.default_prompts 640 480
              [Fin (-5); Fin 2; Fin 650; Fin 400] (Fin (1 # 2)) 1
              (mkBox "sword" (Some (Fin (1 # 2))) [0; 2; 639; 400] _)
              _ _ _) _).
    + lia.
    + lia.
    + vm_compute. reflexivity.
    + vm_compute. intuition discriminate.
Defined.

(* ===================================================================== *)
(** ** Percentages                                                        *)
(* ===================================================================== *)

#[local] Arguments RN64 : simpl never.
#[local] Arguments float_of_int : simpl never.

(** No positive rational up to 2^1023 overflows when rounded. *)
Lemma round_pos_finite (neg : bool) (n : Z) (d : positive) :
  0 < n -> n <= 2 ^ 1023 * Zpos d -> exists r, round_pos neg n d = Fin r.
Proof.
  intros Hn Hb. unfold round_pos.
  set (s := ulp_exp n d).
  destruct (0 <=? s) eqn:E.
  2:{ change (2 ^ emax <=? 0) with false. cbv iota. eauto. }
  apply Z.leb_le in E.
  assert (Hs : s <= 1023).
  { unfold s, ulp_exp, emin_normal, prec, floor_log2.
    assert (Z.log2 n <= Z.log2 (2 ^ 1023 * Z.pos d)) by (apply Z.log2_le_mono; lia).
    assert (Z.log2 (2 ^ 1023 * Z.pos d) <= Z.log2 (2 ^ 1023) + Z.log2 (Z.pos d) + 1)
      by (apply Z.log2_mul_above; lia).
    rewrite Z.log2_pow2 in * by lia.
    destruct (if 0 <=? _ then _ else _); lia. }
  assert (P : 0 < 2 ^ s) by (apply Z.pow_pos_nonneg; lia).
  assert (Hm : significand n d s <= 2 ^ (1023 - s)).
  { unfold significand. destruct (0 <=? s) eqn:E'; [|lia].
    apply rne_div_le; [lia|].
    assert (2 ^ 1023 = 2 ^ (1023 - s) * 2 ^ s).
    { rewrite <- Z.pow_add_r by lia. f_equal. lia. }
    nia. }
  assert (Hv : significand n d s * 2 ^ s <= 2 ^ 1023).
  { replace (2 ^ 1023) with (2 ^ (1023 - s) * 2 ^ s).
    - apply Z.mul_le_mono_nonneg_r; lia.
    - rewrite <- Z.pow_add_r by lia. f_equal. lia. }
  destruct (2 ^ emax <=? significand n d s * 2 ^ s) eqn:O; [|eauto].
  apply Z.leb_le in O. unfold emax in O.
  assert (2 ^ 1023 < 2 ^ 1024) by (apply Z.pow_lt_mono_r; lia). lia.
Qed.

Lemma RN64_finite (q : Q) :
  (Qabs q <= inject_Z (2 ^ 1023))%Q -> exists r, RN64 q = Fin r.
Proof.
  destruct q as [n d]. unfold Qabs, Qle, RN64. simpl. intros H.
  destruct n as [|p|p].
  - eauto.
  - apply round_pos_finite; simpl in H; lia.
  - apply round_pos_finite; simpl in H; lia.
Qed.

(** The quotient of an integer below 2^53 in magnitude by a positive
    integer does not overflow. *)
Lemma RN64_int_quotient_finite (a b : Z) :
  - 2 ^ 53 < a < 2 ^ 53 -> 1 <= b ->
  exists r, RN64 (inject_Z a / inject_Z b) = Fin r.
Proof.
  intros Ha Hb. apply RN64_finite.
  assert (B : (Qabs (inject_Z a / inject_Z b) <= Qabs (inject_Z a))%Q).
  { destruct b as [|p|p]; try lia.
    unfold Qdiv, Qinv, Qmult, Qabs, Qle, inject_Z. simpl.
    rewrite Z.mul_1_r, Pos.mul_1_l. nia. }
  eapply Qle_trans; [exact B|].
  unfold Qabs, Qle. simpl.
  assert (2 ^ 53 < 2 ^ 1023) by (apply Z.pow_lt_mono_r; lia). lia.
Qed.

Lemma ret_bind {A B} (a : A) (f : A -> result B) : OK a ≫= f = f a.
Proof. reflexivity. Qed.

(** *** The error of one rounding, and of rounding to decimals *)

(** Rounding a quotient to the nearest integer moves it by at most a
    half. *)
Lemma rne_div_error (n d : Z) : 0 < d -> 2 * Z.abs (rne_div n d * d - n) <= d.
Proof.
  intros Hd. unfold rne_div.
  pose proof (Z.div_mod n d ltac:(lia)) as E.
  pose proof (Z.mod_pos_bound n d Hd) as B.
  set (f := n / d) in *. set (r := n mod d) in *. clearbody f r.
  destruct (2 * r ?= d) eqn:C.
  - apply Z.compare_eq in C. destruct (Z.even f); lia.
  - change (2 * r < d) in C. lia.
  - apply Z.compare_gt_iff in C. lia.
Qed.

(** [2 ^ floor_log2 n d <= n / d], written without fractions. *)
Lemma floor_log2_lower (n : Z) (d : positive) :
  0 < n ->
  let e := floor_log2 n d in
  if 0 <=? e then Zpos d * 2 ^ e <= n else Zpos d <= n * 2 ^ (- e).
Proof.
  intros Hn. unfold floor_log2.
  set (k := Z.log2 n - Z.log2 (Zpos d)).
  pose proof (Z.log2_spec n Hn) as [Ln Un].
  pose proof (Z.log2_spec (Zpos d) ltac:(lia)) as [Ld Ud].
  pose proof (Z.log2_nonneg n) as Nn.
  pose proof (Z.log2_nonneg (Zpos d)) as Nd.
  rewrite <- Z.add_1_r in Un, Ud.
  destruct (0 <=? k) eqn:K.
  - apply Z.leb_le in K.
    destruct (Zpos d * 2 ^ k <=? n) eqn:G.
    + apply Z.leb_le in G. cbv zeta. rewrite (proj2 (Z.leb_le 0 k) K). exact G.
    + apply Z.leb_gt in G. cbv zeta.
      destruct (0 <=? k - 1) eqn:K1.
      * apply Z.leb_le in K1.
        assert (E : 2 ^ Z.log2 n = 2 ^ (Z.log2 (Zpos d) + 1) * 2 ^ (k - 1)).
        { rewrite <- Z.pow_add_r by lia. f_equal. unfold k. lia. }
        assert (0 < 2 ^ (k - 1)) by (apply Z.pow_pos_nonneg; lia).
        nia.
      * apply Z.leb_gt in K1. assert (k = 0) by lia.
        replace (- (k - 1)) with 1 by lia. change (2 ^ 1) with 2.
        assert (E : Z.log2 n = Z.log2 (Zpos d)) by (unfold k in *; lia).
        rewrite E in Ln. rewrite Z.pow_add_r in Ud by lia. change (2 ^ 1) with 2 in Ud. lia.
  - apply Z.leb_gt in K.
    destruct (Zpos d <=? n * 2 ^ (- k)) eqn:G.
    + apply Z.leb_le in G. cbv zeta. rewrite (proj2 (Z.leb_gt 0 k) K). exact G.
    + cbv zeta. replace (0 <=? k - 1) with false by (symmetry; apply Z.leb_gt; lia).
      replace (- (k - 1)) with (Z.succ (- k)) by lia.
      rewrite Z.pow_succ_r by lia.
      assert (E : 2 ^ (Z.log2 (Zpos d) + 1) = 2 * (2 ^ Z.log2 n * 2 ^ (- k))).
      { rewrite <- Z.pow_add_r by lia. rewrite <- Z.pow_succ_r by lia.
        f_equal. unfold k. lia. }
      assert (0 < 2 ^ (- k)) by (apply Z.pow_pos_nonneg; lia).
      nia.
Qed.

(** [|M/t - n/d| <= N/D] from the cross-multiplied inequality. *)
Lemma Qabs_frac_le (M n N : Z) (t d D : positive) :
  Z.abs (M * Zpos d - n * Zpos t) * Zpos D <= N * (Zpos t * Zpos d) ->
  (Qabs ((M # t) - (n # d)) <= N # D)%Q.
Proof.
  intros H. unfold Qminus, Qplus, Qopp, Qabs, Qle. cbn [Qnum Qden].
  rewrite Pos2Z.inj_mul.
  replace (M * Zpos d + - n * Zpos t) with (M * Zpos d - n * Zpos t) by lia.
  exact H.
Qed.

Lemma scale2_value_neg (m s : Z) :
  s < 0 -> (scale2 m s == m # Z.to_pos (2 ^ (- s)))%Q.
Proof.
  intros Hs. unfold scale2. destruct (0 <=? s) eqn:E; [lia|].
  apply Qred_correct.
Qed.

Lemma round_pos_value (neg : bool) (n : Z) (d : positive) :
  0 < n -> n <= 2 ^ 1023 * Zpos d ->
  round_pos neg n d
  = Fin (scale2 (if neg then - significand n d (ulp_exp n d)
                 else significand n d (ulp_exp n d)) (ulp_exp n d)).
Proof.
  intros Hn Hb. destruct (round_pos_finite neg n d Hn Hb) as [r Hr].
  unfold round_pos in *.
  destruct (2 ^ emax <=? _); [discriminate|reflexivity].
Qed.

(** The rounding error of a positive rational: relative in the normal
    range, absolute below. *)
Lemma significand_error (n : Z) (d : positive) :
  0 < n -> n <= 2 ^ 1023 * Zpos d ->
  (Qabs (scale2 (significand n d (ulp_exp n d)) (ulp_exp n d) - (n # d))
   <= (n # d) * u53 + eta)%Q.
Proof.
  intros Hn Hb.
  pose proof (floor_log2_lower n d Hn) as L. cbv zeta in L.
  unfold ulp_exp, emin_normal, prec in *.
  set (e := floor_log2 n d) in *. clearbody e.
  set (s := Z.max e (-1022) - (53 - 1)).
  assert (Hq : (0 <= (n # d) * u53)%Q).
  { unfold Qle, Qmult, u53. simpl. lia. }
  assert (He : (0 <= eta)%Q) by (unfold Qle, eta; simpl; lia).
  destruct (Z_lt_ge_dec s 0) as [Hs|Hs].
  - (* s < 0 *)
    setoid_rewrite (scale2_value_neg _ s Hs).
    unfold significand. replace (0 <=? s) with false by (symmetry; apply Z.leb_gt; lia).
    assert (P : 0 < 2 ^ (- s)) by (apply Z.pow_pos_nonneg; lia).
    pose proof (rne_div_error (n * 2 ^ (- s)) (Zpos d) ltac:(lia)) as R.
    set (m := rne_div (n * 2 ^ (- s)) (Zpos d)) in *. clearbody m.
    destruct (Z_lt_ge_dec e (-1022)) as [Hsub|Hnorm].
    + (* subnormal: absolute error *)
      eapply Qle_trans; [|apply (Qplus_le_compat 0 _ eta eta Hq (Qle_refl _))].
      rewrite Qplus_0_l. unfold eta.
      apply Qabs_frac_le.
      assert (S : s = -1074) by (unfold s; lia).
      rewrite S in *. change (- -1074) with 1074 in *.
      rewrite Z2Pos.id by lia.
      change (Zpos (2 ^ 1075)) with (2 * 2 ^ 1074). nia.
    + (* normal: relative error *)
      eapply Qle_trans; [|apply (Qplus_le_compat _ _ 0 eta (Qle_refl _) He)].
      rewrite Qplus_0_r.
      assert (S : s = e - 52) by (unfold s; lia).
      assert (B : 2 ^ 52 * Zpos d <= n * 2 ^ (- s)).
      { destruct (0 <=? e) eqn:E0.
        - apply Z.leb_le in E0.
          assert (2 ^ 52 = 2 ^ e * 2 ^ (- s)).
          { rewrite <- Z.pow_add_r by lia. f_equal. lia. }
          nia.
        - apply Z.leb_gt in E0.
          assert (2 ^ (- s) = 2 ^ 52 * 2 ^ (- e)).
          { rewrite <- Z.pow_add_r by lia. f_equal. lia. }
          nia. }
      unfold u53, Qmult. cbn [Qnum Qden]. rewrite Z.mul_1_r.
      apply Qabs_frac_le. rewrite Z2Pos.id by lia.
      rewrite Pos2Z.inj_mul.
      change (Zpos (2 ^ 53)) with (2 * 2 ^ 52).
      set (T := 2 ^ (- s)) in *. clearbody T.
      set (A := Z.abs (m * Zpos d - n * T)) in *. clearbody A.
      nia.
  - (* s >= 0: an integer *)
    eapply Qle_trans; [|apply (Qplus_le_compat _ _ 0 eta (Qle_refl _) He)].
    rewrite Qplus_0_r.
    unfold scale2. replace (0 <=? s) with true by (symmetry; apply Z.leb_le; lia).
    unfold significand. replace (0 <=? s) with true by (symmetry; apply Z.leb_le; lia).
    assert (P : 0 < 2 ^ s) by (apply Z.pow_pos_nonneg; lia).
    pose proof (rne_div_error n (Zpos d * 2 ^ s) ltac:(lia)) as R.
    set (m := rne_div n (Zpos d * 2 ^ s)) in *. clearbody m.
    assert (E52 : 0 <= e /\ s = e - 52) by (unfold s in *; lia).
    destruct E52 as [E0 S].
    replace (0 <=? e) with true in L by (symmetry; apply Z.leb_le; lia).
    assert (X : 2 ^ e = 2 ^ 52 * 2 ^ s).
    { rewrite <- Z.pow_add_r by lia. f_equal. lia. }
    unfold u53, Qmult, inject_Z. cbn [Qnum Qden]. rewrite Z.mul_1_r.
    apply Qabs_frac_le. rewrite Pos2Z.inj_mul.
    change (Zpos (2 ^ 53)) with (2 * 2 ^ 52).
    set (T := 2 ^ s) in *. clearbody T.
    replace (m * T * Zpos d - n * 1) with (m * (Zpos d * T) - n) by lia.
    set (A := Z.abs (m * (Zpos d * T) - n)) in *. clearbody A.
    nia.
Qed.

Lemma scale2_opp (m s : Z) : (scale2 (- m) s == - scale2 m s)%Q.
Proof.
  unfold scale2. destruct (0 <=? s).
  - unfold Qeq, Qopp, inject_Z. simpl. lia.
  - rewrite !Qred_correct. unfold Qeq, Qopp. simpl. lia.
Qed.

(** One rounding: a relative error of 2^-53, or half the smallest spacing
    where the result is subnormal. *)
Lemma RN64_error (q : Q) :
  (Qabs q <= inject_Z (2 ^ 1023))%Q ->
  exists r, RN64 q = Fin r /\ (Qabs (r - q) <= Qabs q * u53 + eta)%Q.
Proof.
  destruct q as [n d]. intros H.
  assert (Hb : Z.abs n <= 2 ^ 1023 * Zpos d).
  { unfold Qabs, Qle, inject_Z in H. cbn [Qnum Qden] in H. lia. }
  unfold RN64. cbn [Qnum Qden]. destruct n as [|p|p].
  - exists 0%Q. split; [reflexivity|]. unfold Qle, eta. simpl. lia.
  - rewrite round_pos_value by lia. eexists. split; [reflexivity|].
    apply significand_error; lia.
  - rewrite round_pos_value by lia. eexists. split; [reflexivity|].
    pose proof (significand_error (Zpos p) d ltac:(lia) ltac:(lia)) as E.
    setoid_rewrite scale2_opp.
    assert (X : (- scale2 (significand (Zpos p) d (ulp_exp (Zpos p) d))
                     (ulp_exp (Zpos p) d) - (Zneg p # d)
                 == - (scale2 (significand (Zpos p) d (ulp_exp (Zpos p) d))
                         (ulp_exp (Zpos p) d) - (Zpos p # d)))%Q).
    { set (a := scale2 _ _). unfold Qeq, Qminus, Qplus, Qopp. simpl. lia. }
    setoid_rewrite X. rewrite Qabs_opp.
    replace (Qabs (Zneg p # d)) with (Zpos p # d) by reflexivity.
    exact E.
Qed.

(** Rounding to a decimal with denominator [T] moves a number by at most
    half a unit of that decimal. *)
Lemma round_dec_error (q : Q) (T : positive) :
  (Qabs (inject_Z (Qrne (q * inject_Z (Zpos T))) / inject_Z (Zpos T) - q)
   <= 1 # (2 * T))%Q.
Proof.
  destruct q as [n d]. unfold Qrne, Qmult, inject_Z. cbn [Qnum Qden].
  pose proof (rne_div_error (n * Zpos T) (Zpos (d * 1)) ltac:(lia)) as R.
  set (k := rne_div _ _) in *. clearbody k.
  setoid_rewrite <- (Qmake_Qdiv k T).
  apply (Qabs_frac_le k n 1 T d (2 * T)).
  rewrite Pos.mul_1_r in R. rewrite Pos2Z.inj_mul.
  set (A := Z.abs (k * Zpos d - n * Zpos T)) in *.
  assert (A = Z.abs (k * Zpos d - n * Zpos T)) by reflexivity.
  clearbody A. nia.
Qed.

(** Dividing by a number that is at least 1 keeps an error bound of this
    shape. *)
Lemma div_error (a b D del eps : Q) :
  (1 <= D)%Q -> (0 <= eps)%Q -> (0 <= del)%Q ->
  (Qabs (a - b) <= Qabs b * del + eps)%Q ->
  (Qabs (a / D - b / D) <= Qabs (b / D) * del + eps)%Q.
Proof.
  intros HD He Hu H.
  assert (Hi : (0 < / D)%Q) by (apply Qinv_lt_0_compat; lra).
  assert (Hi1 : (/ D <= 1)%Q).
  { apply Qle_shift_inv_r; lra. }
  assert (E1 : (a / D - b / D == (a - b) * / D)%Q) by (unfold Qdiv; ring).
  setoid_rewrite E1. unfold Qdiv. rewrite !Qabs_Qmult.
  rewrite (Qabs_pos (/ D)) by lra.
  pose proof (Qabs_nonneg (a - b)) as A0. pose proof (Qabs_nonneg b) as B0.
  set (A := Qabs (a - b)) in *. set (B := Qabs b) in *. clearbody A B.
  set (i := (/ D)%Q) in *. clearbody i.
  nra.
Qed.

(** Constants as numerals, and absolute values as variables with their
    defining inequalities, for linear arithmetic over the rationals. *)
Ltac literal t := let c := eval vm_compute in t in change t with c in *.

Ltac abs_le H := apply Qabs_Qle_condition in H; destruct H.

Ltac abs_var x a :=
  pose proof (Qabs_nonneg x); pose proof (Qle_Qabs x);
  let H := fresh in
  pose proof (Qle_Qabs (- x)) as H; rewrite Qabs_opp in H;
  set (a := Qabs x) in *; clearbody a.

(** Rounding to [nd] decimals a float [d] that is close to [x] gives the
    float nearest to a decimal with [nd] places that lies within half a
    unit of the last place of [x], up to a relative tolerance of 2^-50. *)
Lemma py_round_nd_close (x d : Q) (T : positive) (nd : Z) :
  10 ^ nd = Zpos T ->
  (Qabs x <= inject_Z (2 ^ 1010))%Q ->
  (Qabs (d - x) <= (Qabs x + 1) * (1 # 2 ^ 51))%Q ->
  exists (k : Z) (r : Q),
    py_round_nd (Fin d) nd = Fin r /\
    RN64 (inject_Z k / inject_Z (Zpos T)) = Fin r /\
    (Qabs (r - x) <= (1 # (2 * T)) + (Qabs x + 1) * (1 # 2 ^ 50))%Q.
Proof.
  intros HT Hx Hd. unfold py_round_nd. rewrite HT.
  set (k := Qrne (d * inject_Z (Zpos T))).
  pose proof (round_dec_error d T) as HK. fold k in HK.
  set (K := (inject_Z k / inject_Z (Zpos T))%Q) in *.
  assert (HT2 : (1 # (2 * T) <= 1 # 2)%Q) by (unfold Qle; simpl; lia).
  assert (HT0 : (0 < 1 # (2 * T))%Q) by reflexivity.
  set (h := 1 # (2 * T)) in *. clearbody h.
  assert (HbK : (Qabs K <= Qabs x + (Qabs x + 1) * (1 # 2 ^ 51) + h)%Q).
  { apply Qabs_Qle_condition. abs_le HK. abs_le Hd.
    abs_var x a. literal (1 # 2 ^ 51). clearbody K. split; lra. }
  assert (B : (Qabs K <= inject_Z (2 ^ 1023))%Q).
  { eapply Qle_trans; [exact HbK|].
    pose proof (Qabs_nonneg x). set (a := Qabs x) in *. clearbody a.
    literal (inject_Z (2 ^ 1010)). literal (inject_Z (2 ^ 1023)).
    literal (1 # 2 ^ 51). lra. }
  destruct (RN64_error K B) as (r & Hr & Er).
  exists k, r. split; [exact Hr|]. split; [exact Hr|].
  apply Qabs_Qle_condition.
  abs_le HK. abs_le Hd. abs_le Er. clear B Hx.
  pose proof (Qabs_nonneg K).
  set (b := Qabs K) in *. clearbody b. clearbody K.
  abs_var x a. unfold u53, eta in *.
  literal (1 # 2 ^ 51). literal (1 # 2 ^ 50). literal (1 # 2 ^ 53).
  literal (1 # 2 ^ 1075).
  split; lra.
Qed.

Lemma Qabs_div_le (b D : Q) : (1 <= D)%Q -> (Qabs (b / D) <= Qabs b)%Q.
Proof.
  intros HD.
  assert (Hi : (0 < / D)%Q) by (apply Qinv_lt_0_compat; lra).
  assert (Hi1 : (/ D <= 1)%Q) by (apply Qle_shift_inv_r; lra).
  unfold Qdiv. rewrite Qabs_Qmult, (Qabs_pos (/ D)) by lra.
  pose proof (Qabs_nonneg b). set (B := Qabs b) in *. clearbody B.
  set (i := (/ D)%Q) in *. clearbody i. nra.
Qed.

Lemma inject_Z_ge_1 (z : Z) : 1 <= z -> (1 <= inject_Z z)%Q.
Proof. intros H. unfold Qle, inject_Z. simpl. lia. Qed.

(** The percentage of a finite coordinate: at most two roundings before
    the rounding to two places. *)
Lemma pct_close (c : pynum) (v : Q) (dim : Z) (p : pyfloat) :
  exact c = Fin v -> (Qabs v <= inject_Z (2 ^ 1000))%Q -> 1 <= dim < 2 ^ 53 ->
  pct c dim = OK p ->
  near_decimal 100 (100 * v / inject_Z dim) p.
Proof.
  intros Hc Hv Hdim Hp.
  pose proof (inject_Z_ge_1 dim ltac:(lia)) as HD.
  set (D := inject_Z dim) in *.
  set (X := (100 * v / D)%Q).
  assert (HX : (Qabs X <= inject_Z (2 ^ 1010))%Q).
  { eapply Qle_trans; [apply Qabs_div_le; exact HD|].
    rewrite Qabs_Qmult. change (Qabs 100) with 100%Q.
    pose proof (Qabs_nonneg v). set (a := Qabs v) in *. clearbody a.
    literal (inject_Z (2 ^ 1000)). literal (inject_Z (2 ^ 1010)). lra. }
  assert (Hclose : exists d, p = py_round_nd (Fin d) 2 /\
            (Qabs (d - X) <= (Qabs X + 1) * (1 # 2 ^ 51))%Q).
  { unfold pct in Hp. destruct c as [z|x]; simpl in Hc.
    - (* an int coordinate: one rounding *)
      inversion Hc; subst v; clear Hc.
      cbn [num_mul] in Hp. rewrite ret_bind in Hp. cbn [num_truediv] in Hp.
      destruct (dim =? 0) eqn:E0; [lia|].
      assert (B : (Qabs (inject_Z (100 * z) / inject_Z dim)
                   <= inject_Z (2 ^ 1023))%Q).
      { rewrite inject_Z_mult.
        change (inject_Z 100 * inject_Z z / inject_Z dim)%Q with X.
        eapply Qle_trans; [exact HX|]. unfold Qle, inject_Z. simpl. lia. }
      destruct (RN64_error _ B) as (d & Hd & Ed). rewrite Hd in Hp.
      rewrite ret_bind in Hp. inversion Hp; subst p; clear Hp.
      exists d. split; [reflexivity|].
      rewrite inject_Z_mult in Ed.
      change (inject_Z 100 * inject_Z z / inject_Z dim)%Q with X in Ed.
      eapply Qle_trans; [exact Ed|].
      pose proof (Qabs_nonneg X). set (a := Qabs X) in *. clearbody a.
      unfold u53, eta. literal (1 # 2 ^ 51). literal (1 # 2 ^ 53).
      literal (1 # 2 ^ 1075). lra.
    - (* a float coordinate: product, then quotient *)
      subst x. cbn [num_mul to_float] in Hp.
      rewrite (float_of_int_exact 100) in Hp by lia. rewrite !ret_bind in Hp.
      cbn [fmul] in Hp.
      assert (B1 : (Qabs (inject_Z 100 * v) <= inject_Z (2 ^ 1023))%Q).
      { rewrite Qabs_Qmult. change (Qabs (inject_Z 100)) with 100%Q.
        pose proof (Qabs_nonneg v). set (a := Qabs v) in *. clearbody a.
        literal (inject_Z (2 ^ 1000)). literal (inject_Z (2 ^ 1023)). lra. }
      destruct (RN64_error _ B1) as (m & Hm & Em). rewrite Hm in Hp.
      cbn [num_truediv to_float] in Hp. rewrite ret_bind in Hp.
      rewrite (float_of_int_exact dim) in Hp by lia. rewrite ret_bind in Hp.
      cbn [fdiv] in Hp. unfold Qis_zero in Hp. cbn [Qnum inject_Z] in Hp.
      destruct (dim =? 0) eqn:E0; [lia|].
      change (inject_Z 100 * v)%Q with (100 * v)%Q in Em.
      pose proof (div_error m (100 * v) D u53 eta HD ltac:(unfold eta, Qle; simpl; lia)
                    ltac:(unfold u53, Qle; simpl; lia) Em) as EY.
      fold X in EY. fold D in Hp.
      set (Y := (m / D)%Q) in *.
      assert (HbY : (Qabs Y <= Qabs X + Qabs X * u53 + eta)%Q).
      { apply Qabs_Qle_condition. abs_le EY. abs_var X a. clearbody Y.
        unfold u53, eta in *. literal (1 # 2 ^ 53). literal (1 # 2 ^ 1075).
        split; lra. }
      assert (B2 : (Qabs Y <= inject_Z (2 ^ 1023))%Q).
      { eapply Qle_trans; [exact HbY|].
        pose proof (Qabs_nonneg X). set (a := Qabs X) in *. clearbody a.
        unfold u53, eta. literal (1 # 2 ^ 53). literal (1 # 2 ^ 1075).
        literal (inject_Z (2 ^ 1010)). literal (inject_Z (2 ^ 1023)). lra. }
      destruct (RN64_error Y B2) as (d & Hd & Ed). rewrite Hd in Hp.
      inversion Hp; subst p; clear Hp.
      exists d. split; [reflexivity|].
      apply Qabs_Qle_condition. abs_le EY. abs_le Ed.
      pose proof (Qabs_nonneg Y). set (b := Qabs Y) in *. clearbody b Y.
      abs_var X a. unfold u53, eta in *.
      literal (1 # 2 ^ 51). literal (1 # 2 ^ 53). literal (1 # 2 ^ 1075).
      split; lra. }
  destruct Hclose as (d & -> & Hd).
  destruct (py_round_nd_close X d 100 2 eq_refl HX Hd) as (k & r & Hr & Hk & E).
  exists k, r. split; [exact Hr|]. split; [exact Hk|exact E].
Qed.

(** On a whole-number coordinate the float path and the integer path of
    [round(100 * c / dim, 2)] agree. *)
Lemma pct_whole (c : pynum) (z dim : Z) :
  whole c z -> - 2 ^ 45 < z < 2 ^ 45 -> 1 <= dim < 2 ^ 53 ->
  pct c dim = pct (PInt z) dim.
Proof.
  intros [->| ->] Hz Hd; [reflexivity|].
  assert (Hz' : - 2 ^ 53 < 100 * z < 2 ^ 53) by lia.
  unfold pct, num_mul, to_float.
  rewrite (float_of_int_exact 100) by lia. rewrite !ret_bind.
  unfold fmul.
  change (inject_Z 100 * inject_Z z)%Q with (inject_Z (100 * z)).
  rewrite RN64_int by exact Hz'.
  unfold num_truediv, to_float.
  rewrite float_of_int_exact by lia. rewrite !ret_bind.
  unfold fdiv, Qis_zero. cbn [Qnum inject_Z].
  destruct (dim =? 0) eqn:E; [lia|].
  destruct (RN64_int_quotient_finite (100 * z) dim Hz' ltac:(lia)) as [r ->].
  reflexivity.
Qed.

Lemma whole_py_int (c : pynum) (z : Z) : whole c z -> py_int c = OK z.
Proof.
  intros [->| ->]; simpl; [reflexivity|]. rewrite Qtrunc_inject_Z. reflexivity.
Qed.

Lemma whole_py_max (a b : pynum) (za zb : Z) :
  whole a za -> whole b zb ->
  exists z, (z = za \/ z = zb) /\ whole (py_max a b) z.
Proof. intros Ha Hb. unfold py_max. destruct (num_gtb b a); eauto. Qed.

Lemma whole_py_min (a b : pynum) (za zb : Z) :
  whole a za -> whole b zb ->
  exists z, (z = za \/ z = zb) /\ whole (py_min a b) z.
Proof. intros Ha Hb. unfold py_min. destruct (num_ltb b a); eauto. Qed.

(** On a whole clamped coordinate, the stored integer gives back the stored
    percentage. *)
Lemma pct_of_whole (c : pynum) (z dim p : Z) (r : pyfloat) :
  whole c z -> - 2 ^ 45 < z < 2 ^ 45 -> 1 <= dim < 2 ^ 53 ->
  py_int c = OK p -> pct c dim = OK r -> pct (PInt p) dim = OK r.
Proof.
  intros Hc Hz Hd Hp Hr. rewrite (whole_py_int c z Hc) in Hp.
  inversion Hp; subst. rewrite <- (pct_whole c p dim Hc Hz Hd). exact Hr.
Qed.

Lemma whole_row_inv (row : list pyfloat) (x1 y1 x2 y2 : pyfloat) :
  whole_row row -> row = [x1; y1; x2; y2] ->
  exists z1 z2 z3 z4,
    x1 = Fin (inject_Z z1) /\ y1 = Fin (inject_Z z2) /\
    x2 = Fin (inject_Z z3) /\ y2 = Fin (inject_Z z4) /\
    - 2 ^ 45 < z1 < 2 ^ 45 /\ - 2 ^ 45 < z2 < 2 ^ 45 /\
    - 2 ^ 45 < z3 < 2 ^ 45 /\ - 2 ^ 45 < z4 < 2 ^ 45.
Proof.
  intros H ->. unfold whole_row in H.
  apply Forall_cons_1 in H as [(z1 & -> & B1) H].
  apply Forall_cons_1 in H as [(z2 & -> & B2) H].
  apply Forall_cons_1 in H as [(z3 & -> & B3) H].
  apply Forall_cons_1 in H as [(z4 & -> & B4) H].
  exists z1, z2, z3, z4. repeat split; first [reflexivity|lia].
Qed.

Lemma pct_of_px_whole (c1 c2 c3 c4 : pynum) (z1 z2 z3 z4 w h : Z)
    (px : list Z) (pc : list pyfloat) :
  whole c1 z1 -> whole c2 z2 -> whole c3 z3 -> whole c4 z4 ->
  - 2 ^ 45 < z1 < 2 ^ 45 -> - 2 ^ 45 < z2 < 2 ^ 45 ->
  - 2 ^ 45 < z3 < 2 ^ 45 -> - 2 ^ 45 < z4 < 2 ^ 45 ->
  1 <= w < 2 ^ 53 -> 1 <= h < 2 ^ 53 ->
  px_list c1 c2 c3 c4 = OK px -> pct_list c1 c2 c3 c4 w h = OK pc ->
  pct_of_px px w h = OK pc.
Proof.
  intros W1 W2 W3 W4 B1 B2 B3 B4 Hw Hh Hpx Hpc.
  apply px_list_OK in Hpx as (p1 & p2 & p3 & p4 & -> & E1 & E2 & E3 & E4).
  apply pct_list_OK in Hpc as (r1 & r2 & r3 & r4 & -> & F1 & F2 & F3 & F4).
  unfold pct_of_px, pct_list.
  rewrite (pct_of_whole c1 z1 w p1 r1), (pct_of_whole c2 z2 h p2 r2),
    (pct_of_whole c3 z3 w p3 r3), (pct_of_whole c4 z4 h p4 r4) by assumption.
  reflexivity.
Qed.

(** What the script computes for a percentage is the rounded quotient of
    the claim, on Python's numbers and as a number. *)
Lemma pct_rounded (c : pynum) (dim : Z) (p : pyfloat) :
  pct c dim = OK p -> rounded_pct c dim p.
Proof.
  intros H. split.
  - unfold pct in H. bind_inv H as m Em. bind_inv H as d Ed.
    inversion H; subst. eauto.
  - intros v Hc Hv Hd. exact (pct_close c v dim p Hc Hv Hd H).
Qed.

(** C2: every emitted detection stores, at each index, [round(100 * c / dim,
    2)] of the clamped coordinate [c] (width for x, height for y): the
    runtime's product, division and two-place rounding of the very numbers
    whose truncations make up [bbox_px], hence a decimal with two places
    within half a hundredth of [100 * c / dim]. *)
Theorem bbox_pct_from_clamped :
  (forall allowed names w h b box,
      Yolo.normalize allowed names w h b = OK (Some box) ->
      exists x1 y1 x2 y2 rest p1 p2 p3 p4 q1 q2 q3 q4,
        Yolo.xyxy b = [x1; y1; x2; y2] :: rest /\
        bbox_pct box = [p1; p2; p3; p4] /\
        rounded_pct (Yolo.clamp_lo x1) w p1 /\
        rounded_pct (Yolo.clamp_lo y1) h p2 /\
        rounded_pct (Yolo.clamp_hi w x2) w p3 /\
        rounded_pct (Yolo.clamp_hi h y2) h p4 /\
        bbox_px box = [q1; q2; q3; q4] /\
        py_int (Yolo.clamp_lo x1) = OK q1 /\
        py_int (Yolo.clamp_lo y1) = OK q2 /\
        py_int (Yolo.clamp_hi w x2) = OK q3 /\
        py_int (Yolo.clamp_hi h y2) = OK q4)
  /\
  (forall prompts w h row score label_idx box,
      OpenVocab.normalize prompts w h (row, score, label_idx) = OK box ->
      exists x1 y1 x2 y2 c3 c4 p1 p2 p3 p4 q1 q2 q3 q4,
        row = [x1; y1; x2; y2] /\
        OpenVocab.clamp_hi w x2 = OK c3 /\ OpenVocab.clamp_hi h y2 = OK c4 /\
        bbox_pct box = [p1; p2; p3; p4] /\
        rounded_pct (OpenVocab.clamp_lo x1) w p1 /\
        rounded_pct (OpenVocab.clamp_lo y1) h p2 /\
        rounded_pct c3 w p3 /\
        rounded_pct c4 h p4 /\
        bbox_px box = [q1; q2; q3; q4] /\
        py_int (OpenVocab.clamp_lo x1) = OK q1 /\
        py_int (OpenVocab.clamp_lo y1) = OK q2 /\
        py_int c3 = OK q3 /\
        py_int c4 = OK q4).
Proof.
  split.
  - intros allowed names w h b box H.
    apply Yolo_normalize_OK in H
      as (x1 & y1 & x2 & y2 & rest & cls_id & cs & Hr & _ & _ & _ & _ & _ & Hpx & Hpc).
    apply pct_list_OK in Hpc as (p1 & p2 & p3 & p4 & Hl & F1 & F2 & F3 & F4).
    apply px_list_OK in Hpx as (q1 & q2 & q3 & q4 & Hq & G1 & G2 & G3 & G4).
    exists x1, y1, x2, y2, rest, p1, p2, p3, p4, q1, q2, q3, q4.
    repeat (split; [first [assumption | apply pct_rounded; assumption]|]).
    exact G4.
  - intros prompts w h row score label_idx box H.
    apply OpenVocab_normalize_OK in H
      as (x1 & y1 & x2 & y2 & c3 & c4 & Hr & _ & _ & H3 & H4 & Hpx & Hpc).
    apply pct_list_OK in Hpc as (p1 & p2 & p3 & p4 & Hl & F1 & F2 & F3 & F4).
    apply px_list_OK in Hpx as (q1 & q2 & q3 & q4 & Hq & G1 & G2 & G3 & G4).
    exists x1, y1, x2, y2, c3, c4, p1, p2, p3, p4, q1, q2, q3, q4.
    repeat (split; [first [assumption | apply pct_rounded; assumption]|]).
    exact G4.
Qed.

Lemma bbox_pct_from_clamped_witness :
  (Yolo.normalize Yolo.ALLOWED_CLASSES sample_names 640 480 sample_half_in
     = OK (Some sample_half_out) /\
   bbox_pct sample_half_out
   = [RN64 (164 # 100); RN64 (42 # 100); RN64 (9984 # 100); RN64 (8333 # 100)] /\
   near_decimal 100 (100 * (21 # 2) / 640) (RN64 (164 # 100)))
  /\
  (OpenVocab.normalize OpenVocab.default_prompts 640 480 sample_ov_in
     = OK sample_ov_out /\
   bbox_pct sample_ov_out
   = [RN64 (164 # 100); RN64 (42 # 100); RN64 (9984 # 100); RN64 (8333 # 100)] /\
   near_decimal 100 (100 * (21 # 2) / 640) (RN64 (164 # 100))).
Proof.
  assert (Hv : (Qabs (21 # 2) <= inject_Z (2 ^ 1000))%Q)
    by (unfold Qle; simpl; lia).
  assert (Hd : 1 <= 640 < 2 ^ 53) by lia.
  split.
  - assert (E : Yolo.normalize Yolo.ALLOWED_CLASSES sample_names 640 480
                  sample_half_in = OK (Some sample_half_out))
      by (vm_compute; reflexivity).
    assert (L : bbox_pct sample_half_out
                = [RN64 (164 # 100); RN64 (42 # 100); RN64 (9984 # 100);
                   RN64 (8333 # 100)])
      by (vm_compute; reflexivity).
    split; [exact E|]. split; [exact L|].
    destruct (proj1 bbox_pct_from_clamped _ _ _ _ _ _ E)
      as (x1 & y1 & x2 & y2 & rest & p1 & p2 & p3 & p4 & q1 & q2 & q3 & q4
          & Hr & Hl & F1 & _).
    rewrite L in Hl. inversion Hr; subst. inversion Hl; subst.
    exact (proj2 F1 (21 # 2) eq_refl Hv Hd).
  - assert (E : OpenVocab.normalize OpenVocab.default_prompts 640 480
                  sample_ov_in = OK sample_ov_out)
      by (vm_compute; reflexivity).
    assert (L : bbox_pct sample_ov_out
                = [RN64 (164 # 100); RN64 (42 # 100); RN64 (9984 # 100);
                   RN64 (8333 # 100)])
      by (vm_compute; reflexivity).
    split; [exact E|]. split; [exact L|].
    destruct (proj2 bbox_pct_from_clamped _ _ _ _ _ _ _ E)
      as (x1 & y1 & x2 & y2 & c3 & c4 & p1 & p2 & p3 & p4 & q1 & q2 & q3 & q4
          & Hr & _ & _ & Hl & F1 & _).
    rewrite L in Hl. inversion Hr; subst. inversion Hl; subst.
    exact (proj2 F1 (21 # 2) eq_refl Hv Hd).
Defined.

(** C5, as stated, fails: for the raw box (10.5, 2, 650, 400) on a 640 by
    480 frame the stored pixels are [10; 2; 639; 400], the stored first
    percentage is 1.64 (from 10.5), and converting the stored pixel 10 gives
    1.56. *)
Lemma bbox_pct_not_from_px :
  Yolo.normalize Yolo.ALLOWED_CLASSES sample_names 640 480 sample_half_in
    = OK (Some sample_half_out) /\
  bbox_px sample_half_out = [10; 2; 639; 400] /\
  (exists p, pct_of_px (bbox_px sample_half_out) 640 480 = OK p /\
             p <> bbox_pct sample_half_out).
Proof.
  split; [vm_compute; reflexivity|]. split; [reflexivity|].
  eexists. split; [vm_compute; reflexivity|]. discriminate.
Qed.

(** C5 (amended): when the raw corners are whole numbers, so that
    truncation loses nothing, the stored percentages are exactly the
    conversion [round(100 * bbox_px[k] / dimension, 2)] of the stored
    pixels; otherwise they come from the clamped coordinate before
    truncation (C2) and the stored pixels do not determine them. *)
Theorem bbox_pct_of_whole_px :
  (forall allowed names w h b box row rest,
      1 <= w <= 2 ^ 45 -> 1 <= h <= 2 ^ 45 ->
      Yolo.xyxy b = row :: rest -> whole_row row ->
      Yolo.normalize allowed names w h b = OK (Some box) ->
      pct_of_px (bbox_px box) w h = OK (bbox_pct box))
  /\
  (forall prompts w h row score label_idx box,
      1 <= w <= 2 ^ 45 -> 1 <= h <= 2 ^ 45 ->
      whole_row row ->
      OpenVocab.normalize prompts w h (row, score, label_idx) = OK box ->
      pct_of_px (bbox_px box) w h = OK (bbox_pct box)).
Proof.
  split.
  - intros allowed names w h b box row rest Hw Hh Hrow Hwhole H.
    apply Yolo_normalize_OK in H
      as (x1 & y1 & x2 & y2 & rest' & cls_id & cs & Hr & _ & _ & _ & _ & _ & Hpx & Hpc).
    rewrite Hrow in Hr. inversion Hr; subst row rest'; clear Hr.
    destruct (whole_row_inv _ _ _ _ _ Hwhole eq_refl)
      as (z1 & z2 & z3 & z4 & -> & -> & -> & -> & B1 & B2 & B3 & B4).
    destruct (whole_py_max (PInt 0) (PFloat (Fin (inject_Z z1))) 0 z1)
      as (a1 & D1 & W1); [left; reflexivity|right; reflexivity|].
    destruct (whole_py_max (PInt 0) (PFloat (Fin (inject_Z z2))) 0 z2)
      as (a2 & D2 & W2); [left; reflexivity|right; reflexivity|].
    destruct (whole_py_min (PInt (w - 1)) (PFloat (Fin (inject_Z z3))) (w - 1) z3)
      as (a3 & D3 & W3); [left; reflexivity|right; reflexivity|].
    destruct (whole_py_min (PInt (h - 1)) (PFloat (Fin (inject_Z z4))) (h - 1) z4)
      as (a4 & D4 & W4); [left; reflexivity|right; reflexivity|].
    eapply (pct_of_px_whole _ _ _ _ a1 a2 a3 a4);
      [exact W1|exact W2|exact W3|exact W4| | | | | | |exact Hpx|exact Hpc]; lia.
  - intros prompts w h row score label_idx box Hw Hh Hwhole H.
    apply OpenVocab_normalize_OK in H
      as (x1 & y1 & x2 & y2 & c3 & c4 & Hr & _ & _ & H3 & H4 & Hpx & Hpc).
    apply OpenVocab_clamp_hi_exact in H3; [|lia].
    apply OpenVocab_clamp_hi_exact in H4; [|lia]. subst c3 c4.
    destruct (whole_row_inv _ _ _ _ _ Hwhole Hr)
      as (z1 & z2 & z3 & z4 & -> & -> & -> & -> & B1 & B2 & B3 & B4).
    destruct (whole_py_max (PFloat (Fin 0)) (PFloat (Fin (inject_Z z1))) 0 z1)
      as (a1 & D1 & W1); [right; reflexivity|right; reflexivity|].
    destruct (whole_py_max (PFloat (Fin 0)) (PFloat (Fin (inject_Z z2))) 0 z2)
      as (a2 & D2 & W2); [right; reflexivity|right; reflexivity|].
    destruct (whole_py_min (PFloat (Fin (inject_Z (w - 1))))
                (PFloat (Fin (inject_Z z3))) (w - 1) z3)
      as (a3 & D3 & W3); [right; reflexivity|right; reflexivity|].
    destruct (whole_py_min (PFloat (Fin (inject_Z (h - 1))))
                (PFloat (Fin (inject_Z z4))) (h - 1) z4)
      as (a4 & D4 & W4); [right; reflexivity|right; reflexivity|].
    eapply (pct_of_px_whole _ _ _ _ a1 a2 a3 a4);
      [exact W1|exact W2|exact W3|exact W4| | | | | | |exact Hpx|exact Hpc]; lia.
Qed.

Lemma bbox_pct_of_whole_px_witness :
  (1 <= 640 <= 2 ^ 45 /\ 1 <= 480 <= 2 ^ 45 /\ whole_row sample_whole_row /\
   Yolo.normalize Yolo.ALLOWED_CLASSES sample_names 640 480 sample_whole_in
     = OK (Some sample_whole_out) /\
   pct_of_px (bbox_px sample_whole_out) 640 480 = OK (bbox_pct sample_whole_out))
  /\
  (OpenVocab.normalize OpenVocab.default_prompts 640 480
     (sample_whole_row, Fin (1 # 2), 1) = OK sample_whole_ov_out /\
   pct_of_px (bbox_px sample_whole_ov_out) 640 480
     = OK (bbox_pct sample_whole_ov_out)).
Proof.
  assert (Hrow : whole_row sample_whole_row).
  { repeat constructor; eexists; (split; [reflexivity|lia]). }
  assert (Hw : 1 <= 640 <= 2 ^ 45) by lia.
  assert (Hh : 1 <= 480 <= 2 ^ 45) by lia.
  assert (E1 : Yolo.normalize Yolo.ALLOWED_CLASSES sample_names 640 480
                 sample_whole_in = OK (Some sample_whole_out))
    by (vm_compute; reflexivity).
  assert (E2 : OpenVocab.normalize OpenVocab.default_prompts 640 480
                 (sample_whole_row, Fin (1 # 2), 1) = OK sample_whole_ov_out)
    by (vm_compute; reflexivity).
  split.
  - split; [exact Hw|]. split; [exact Hh|]. split; [exact Hrow|].
    split; [exact E1|].
    exact (proj1 bbox_pct_of_whole_px _ _ _ _ sample_whole_in _ sample_whole_row [] Hw Hh eq_refl Hrow E1).
  - split; [exact E2|].
    exact (proj2 bbox_pct_of_whole_px _ _ _ _ _ _ _ Hw Hh Hrow E2).
Defined.

(* ===================================================================== *)
(** ** Stride                                                             *)
(* ===================================================================== *)

Lemma Qis_zero_false (q : Q) : (0 < q)%Q -> Qis_zero q = false.
Proof.
  destruct q as [n d]. unfold Qlt, Qis_zero. simpl. intros H.
  apply Z.eqb_neq. lia.
Qed.

Lemma fdiv_pos (s t : Q) :
  (0 < t)%Q -> fdiv (Fin s) (Fin t) = OK (RN64 (s / t)).
Proof. intros Ht. unfold fdiv. rewrite Qis_zero_false by exact Ht. reflexivity. Qed.

Lemma stride_of_finite (s t q : Q) :
  (0 < t)%Q -> RN64 (s / t) = Fin q ->
  stride_of (Fin s) (Fin t) = OK (Z.max 1 (Qrne q)).
Proof.
  intros Ht Hq. unfold stride_of. rewrite fdiv_pos by exact Ht.
  rewrite Hq. reflexivity.
Qed.

(** A target rate at or above the source rate gives stride 1. *)
Lemma stride_of_faster_target (s t : Q) :
  (0 < s)%Q -> (s <= t)%Q -> stride_of (Fin s) (Fin t) = OK 1.
Proof.
  intros Hs Hst.
  assert (Ht : (0 < t)%Q) by (eapply Qlt_le_trans; eauto).
  destruct (RN64_unit_interval (s / t)) as (r & Hr & H0 & H1).
  - apply Qlt_shift_div_l; [exact Ht|]. rewrite Qmult_0_l. exact Hs.
  - apply Qle_shift_div_r; [exact Ht|]. rewrite Qmult_1_l. exact Hst.
  - rewrite (stride_of_finite s t r Ht Hr). f_equal.
    pose proof (Qrne_le r 1 H1). lia.
Qed.

(** C3, as stated, fails: 30.0 and 2^-1022 are positive floats, their float
    quotient is infinite, and [round] of it raises: no stride comes out. *)
Lemma stride_overflow :
  (0 < 30)%Q /\ (0 < float_min)%Q /\
  RN64 30 = Fin 30 /\ RN64 float_min = Fin float_min /\
  stride_of (fps_or_default (Fin 30)) (Fin float_min) = Raise OverflowError.
Proof.
  repeat split; vm_compute; reflexivity.
Qed.

(** C3 (amended): for positive finite rates whose quotient is at most
    2^1023, the stride is [max(1, round(q))] for the float quotient [q], it
    is at least 1, and it is 1 whenever the target rate is at least the
    source rate; a reported rate of zero is replaced by 30.0 before the
    division and any other reported rate is used as it is. *)
Theorem stride_spec :
  (forall s t : Q,
      (0 < s)%Q -> (0 < t)%Q -> (s <= inject_Z (2 ^ 1023) * t)%Q ->
      exists q,
        fdiv (Fin s) (Fin t) = OK (Fin q) /\
        stride_of (Fin s) (Fin t) = OK (Z.max 1 (Qrne q)) /\
        1 <= Z.max 1 (Qrne q) /\
        ((s <= t)%Q -> stride_of (Fin s) (Fin t) = OK 1))
  /\
  (forall q : Q, (q == 0)%Q -> fps_or_default (Fin q) = Fin 30)
  /\
  (forall x : pyfloat, float_truthy x = true -> fps_or_default x = x).
Proof.
  split; [|split].
  - intros s t Hs Ht Hb.
    destruct (RN64_finite (s / t)) as [q Hq].
    { rewrite Qabs_pos.
      - apply Qle_shift_div_r; assumption.
      - apply Qlt_le_weak. apply Qlt_shift_div_l; [exact Ht|].
        rewrite Qmult_0_l. exact Hs. }
    exists q. split; [|split; [|split]].
    + rewrite fdiv_pos by exact Ht. rewrite Hq. reflexivity.
    + apply stride_of_finite; assumption.
    + lia.
    + intros Hst. apply stride_of_faster_target; assumption.
  - intros [n d] Hq. unfold Qeq in Hq. simpl in Hq.
    unfold fps_or_default, float_truthy, Qis_zero. simpl.
    replace n with 0 by lia. reflexivity.
  - intros x Hx. unfold fps_or_default. rewrite Hx. reflexivity.
Qed.

Lemma stride_spec_witness :
  (0 < 30)%Q /\ (0 < 3)%Q /\ (30 <= inject_Z (2 ^ 1023) * 3)%Q /\
  exists q,
    fdiv (Fin 30) (Fin 3) = OK (Fin q) /\
    stride_of (Fin 30) (Fin 3) = OK (Z.max 1 (Qrne q)).
Proof.
  assert (H1 : (0 < 30)%Q) by reflexivity.
  assert (H2 : (0 < 3)%Q) by reflexivity.
  assert (H3 : (30 <= inject_Z (2 ^ 1023) * 3)%Q) by (vm_compute; discriminate).
  split; [exact H1|]. split; [exact H2|]. split; [exact H3|].
  destruct (proj1 stride_spec 30%Q 3%Q H1 H2 H3) as (q & Hd & Hs & _).
  exists q. split; assumption.
Defined.

(* ===================================================================== *)
(** ** The frame loop                                                     *)
(* ===================================================================== *)

Section ReadLoop.
Context {Frame : Type}.
Variable detect : Frame -> result (list Box).

(** What a completed loop has appended: one record per sampled frame, in
    stream order. *)
Lemma read_loop_OK stride video_fps (rest : list Frame) i acc frames :
  read_loop detect stride video_fps rest i acc = OK frames ->
  exists recs, frames = acc ++ recs /\
    Forall2 (record_of detect video_fps) recs (sampled stride i rest).
Proof.
  revert i acc. induction rest as [|f rest IH]; intros i acc H; simpl in *.
  - inversion H; subst. exists []. rewrite app_nil_r. split; constructor.
  - destruct (i mod stride =? 0) eqn:E; simpl in H.
    + bind_inv H as bs Eb. bind_inv H as t Et.
      apply IH in H as (recs & -> & HF).
      exists (mkFrameRecord t i bs :: recs). split.
      * rewrite <- app_assoc. reflexivity.
      * constructor; [|exact HF]. repeat split; assumption.
    + apply IH in H. exact H.
Qed.

(** The loop completes when detection and time stamping succeed on every
    sampled frame. *)
Lemma read_loop_total stride video_fps (rest : list Frame) i acc :
  Forall (fun p => is_ok (detect p.2) = true /\
                   is_ok (frame_time p.1 video_fps) = true)
    (sampled stride i rest) ->
  exists frames, read_loop detect stride video_fps rest i acc = OK frames.
Proof.
  revert i acc. induction rest as [|f rest IH]; intros i acc H; simpl in *.
  - eauto.
  - destruct (i mod stride =? 0) eqn:E; simpl.
    + apply Forall_cons_1 in H as [[H1 H2] H]. simpl in H1, H2.
      destruct (detect f) as [bs|]; [|discriminate].
      destruct (frame_time i video_fps) as [t|]; [|discriminate].
      simpl. apply IH. exact H.
    + apply IH. exact H.
Qed.

(** A failing sampled frame fails the loop. *)
Lemma read_loop_Raise stride video_fps (rest : list Frame) i acc j f :
  (j, f) ∈ sampled stride i rest -> is_ok (detect f) = false ->
  is_ok (read_loop detect stride video_fps rest i acc) = false.
Proof.
  intros Hin Hf.
  destruct (read_loop detect stride video_fps rest i acc) as [frames|] eqn:E;
    [|reflexivity].
  apply read_loop_OK in E as (recs & _ & HF).
  apply list_elem_of_lookup in Hin as [k Hk].
  destruct (Forall2_lookup_r _ _ _ _ _ HF Hk) as (rec & _ & _ & Hd & _).
  simpl in Hd. rewrite Hd in Hf. discriminate.
Qed.
End ReadLoop.

Lemma sampled_indices {Frame} (stride i : Z) (rest : list Frame) :
  (sampled stride i rest).*1
  = filter (fun j => j mod stride = 0) (seqZ i (Z.of_nat (length rest))).
Proof.
  revert i. induction rest as [|f rest IH]; intros i; simpl length.
  - reflexivity.
  - rewrite seqZ_cons by lia.
    replace (Z.pred (Z.of_nat (S (length rest)))) with (Z.of_nat (length rest)) by lia.
    replace (Z.succ i) with (i + 1) by lia.
    rewrite filter_cons. simpl.
    destruct (i mod stride =? 0) eqn:E.
    + apply Z.eqb_eq in E. rewrite decide_True by exact E.
      simpl. rewrite IH. reflexivity.
    + apply Z.eqb_neq in E. rewrite decide_False by exact E. apply IH.
Qed.

Lemma sampled_lookup {Frame} (stride i : Z) (rest : list Frame) (k : nat) (f : Frame) :
  rest !! k = Some f -> (i + Z.of_nat k) mod stride = 0 ->
  (i + Z.of_nat k, f) ∈ sampled stride i rest.
Proof.
  revert i k. induction rest as [|g rest IH]; intros i k Hk Hm; [discriminate|].
  simpl. destruct k as [|k]; simpl in Hk.
  - inversion Hk; subst. replace (i + Z.of_nat 0) with i in * by lia.
    apply Z.eqb_eq in Hm. rewrite Hm. left.
  - replace (i + Z.of_nat (S k)) with ((i + 1) + Z.of_nat k) in * by lia.
    specialize (IH (i + 1) k Hk Hm).
    destruct (i mod stride =? 0); [right|]; exact IH.
Qed.

Lemma stride_of_ge_1 (video_fps sample_fps : pyfloat) (stride : Z) :
  stride_of video_fps sample_fps = OK stride -> 1 <= stride.
Proof.
  unfold stride_of. intros H. bind_inv H as q Eq. bind_inv H as r Er.
  inversion H. lia.
Qed.

(** What a completed sampling pass returns. *)
Lemma sample_frames_OK {Frame} (detect : Frame -> result (list Box))
    (cap : VideoCapture Frame) (sample_fps video_fps : pyfloat)
    (frames : list FrameRecord) :
  sample_frames detect cap sample_fps = OK (video_fps, frames) ->
  isOpened cap = true /\
  video_fps = fps_or_default (CAP_PROP_FPS cap) /\
  exists stride,
    stride_of video_fps sample_fps = OK stride /\ 1 <= stride /\
    Forall2 (record_of detect video_fps) frames (sampled stride 0 (stream cap)).
Proof.
  unfold sample_frames. intros H.
  destruct (isOpened cap); simpl in H; [|discriminate].
  bind_inv H as stride Es. bind_inv H as fr Ef. inversion H; subst; clear H.
  split; [reflexivity|]. split; [reflexivity|].
  exists stride. split; [exact Es|]. split; [eapply stride_of_ge_1; eauto|].
  apply read_loop_OK in Ef as (recs & -> & HF). exact HF.
Qed.

Lemma record_of_indices {Frame} (detect : Frame -> result (list Box))
    (video_fps : pyfloat) (recs : list FrameRecord) (ps : list (Z * Frame)) :
  Forall2 (record_of detect video_fps) recs ps -> frame_index <$> recs = ps.*1.
Proof.
  induction 1 as [|rec p recs ps [H _] _ IH]; [reflexivity|].
  rewrite !fmap_cons. f_equal; assumption.
Qed.

Lemma Yolo_assemble_OK {Frame} (shape : Frame -> Z * Z) predict allowed
    (cap : VideoCapture Frame) sample_fps conf imgsz art :
  Yolo.assemble shape predict allowed cap sample_fps conf imgsz = OK art ->
  sample_frames (Yolo.detect shape predict allowed conf imgsz) cap sample_fps
    = OK (Yolo.a_video_fps art, Yolo.a_frames art) /\
  art = Yolo.mkArtifact VIDEO_PATH sample_fps (Yolo.a_video_fps art) "yolov8n.pt"
          conf imgsz (Yolo.a_frames art).
Proof.
  unfold Yolo.assemble. intros H. bind_inv H as [fps frames] E.
  inversion H; subst; clear H. simpl. split; [exact E|reflexivity].
Qed.

Lemma OpenVocab_assemble_OK {Frame} (shape : Frame -> Z * Z) cuda predict
    (cap : VideoCapture Frame) sample_fps threshold model_id prompts art :
  OpenVocab.assemble shape cuda predict cap sample_fps threshold model_id prompts
    = OK art ->
  sample_frames
    (OpenVocab.detect shape cuda predict model_id
       (OpenVocab.prompts_or_default prompts) threshold) cap sample_fps
    = OK (OpenVocab.a_video_fps art, OpenVocab.a_frames art) /\
  art = OpenVocab.mkArtifact VIDEO_PATH sample_fps (OpenVocab.a_video_fps art)
          model_id threshold (OpenVocab.prompts_or_default prompts)
          (OpenVocab.a_frames art).
Proof.
  unfold OpenVocab.assemble. intros H. bind_inv H as [fps frames] E.
  inversion H; subst; clear H. simpl. split; [exact E|reflexivity].
Qed.

(** The records of a completed pass: their indices, and the record of each
    sampled frame. *)
Lemma sample_frames_records {Frame} (detect : Frame -> result (list Box))
    (cap : VideoCapture Frame) (sample_fps video_fps : pyfloat)
    (frames : list FrameRecord) :
  sample_frames detect cap sample_fps = OK (video_fps, frames) ->
  exists stride,
    stride_of video_fps sample_fps = OK stride /\ 1 <= stride /\
    frame_index <$> frames = selected stride (length (stream cap)) /\
    forall (k : nat) (frame : Frame),
      stream cap !! k = Some frame -> Z.of_nat k mod stride = 0 ->
      exists rec, rec ∈ frames /\ frame_index rec = Z.of_nat k /\
                  detect frame = OK (boxes rec).
Proof.
  intros H. apply sample_frames_OK in H as (_ & _ & stride & Hs & H1 & HF).
  exists stride. split; [exact Hs|]. split; [exact H1|]. split.
  - rewrite (record_of_indices _ _ _ _ HF). apply sampled_indices.
  - intros k frame Hk Hm.
    pose proof (sampled_lookup stride 0 (stream cap) k frame Hk Hm) as Hin.
    apply list_elem_of_lookup in Hin as [j Hj].
    destruct (Forall2_lookup_r _ _ _ _ _ HF Hj) as (rec & Hrec & Hi & Hd & _).
    exists rec. split; [eapply list_elem_of_lookup_2; eauto|].
    split; [exact Hi|exact Hd].
Qed.

Lemma Yolo_detect_nothing {Frame} (shape : Frame -> Z * Z) predict allowed conf
    imgsz (frame : Frame) results bs :
  predict frame imgsz conf = OK results -> yolo_no_detections results ->
  Yolo.detect shape predict allowed conf imgsz frame = OK bs -> bs = [].
Proof.
  unfold Yolo.detect. destruct (shape frame) as [h w]. intros -> Hn H.
  rewrite ret_bind in H. unfold Yolo.frame_boxes in H.
  destruct results as [|r rs]; [inversion H; reflexivity|].
  destruct Hn as [Hn|Hn]; rewrite Hn in H; inversion H; reflexivity.
Qed.

Lemma OpenVocab_detect_nothing {Frame} (shape : Frame -> Z * Z) cuda predict
    model_id prompts threshold (frame : Frame) results bs :
  predict (OpenVocab.device cuda) model_id prompts frame threshold = OK results ->
  ov_no_detections results ->
  OpenVocab.detect shape cuda predict model_id prompts threshold frame = OK bs ->
  bs = [].
Proof.
  unfold OpenVocab.detect. destruct (shape frame) as [h w]. intros -> Hn H.
  rewrite ret_bind in H. unfold OpenVocab.frame_boxes in H.
  rewrite Hn in H. inversion H; reflexivity.
Qed.

(** C4: in the artifact of a completed run the frame indices are exactly
    the multiples of the stride below the stream length, ascending, one
    record each; the list depends on the stride and the stream length only,
    and a sampled frame on which the detector reports nothing has a record
    with an empty box list. *)
Theorem frames_are_the_sampled_indices :
  (forall (Frame : Type) (shape : Frame -> Z * Z) predict allowed
          (cap : VideoCapture Frame) sample_fps conf imgsz art,
      Yolo.assemble shape predict allowed cap sample_fps conf imgsz = OK art ->
      exists stride,
        stride_of (fps_or_default (CAP_PROP_FPS cap)) sample_fps = OK stride /\
        frame_index <$> Yolo.a_frames art = selected stride (length (stream cap)) /\
        forall (k : nat) (frame : Frame) results,
          stream cap !! k = Some frame -> Z.of_nat k mod stride = 0 ->
          predict frame imgsz conf = OK results -> yolo_no_detections results ->
          exists rec, rec ∈ Yolo.a_frames art /\
                      frame_index rec = Z.of_nat k /\ boxes rec = [])
  /\
  (forall (Frame : Type) (shape : Frame -> Z * Z) cuda predict
          (cap : VideoCapture Frame) sample_fps threshold model_id prompts art,
      OpenVocab.assemble shape cuda predict cap sample_fps threshold model_id
        prompts = OK art ->
      exists stride,
        stride_of (fps_or_default (CAP_PROP_FPS cap)) sample_fps = OK stride /\
        frame_index <$> OpenVocab.a_frames art
          = selected stride (length (stream cap)) /\
        forall (k : nat) (frame : Frame) results,
          stream cap !! k = Some frame -> Z.of_nat k mod stride = 0 ->
          predict (OpenVocab.device cuda) model_id
            (OpenVocab.prompts_or_default prompts) frame threshold = OK results ->
          ov_no_detections results ->
          exists rec, rec ∈ OpenVocab.a_frames art /\
                      frame_index rec = Z.of_nat k /\ boxes rec = []).
Proof.
  split.
  - intros Frame shape predict allowed cap sample_fps conf imgsz art H.
    apply Yolo_assemble_OK in H as [H _].
    pose proof (sample_frames_OK _ _ _ _ _ H) as (_ & Hfps & _).
    apply sample_frames_records in H as (stride & Hs & _ & Hi & Hrec).
    exists stride. rewrite <- Hfps. split; [exact Hs|]. split; [exact Hi|].
    intros k frame results Hk Hm Hp Hn.
    destruct (Hrec k frame Hk Hm) as (rec & Hin & Hidx & Hd).
    exists rec. split; [exact Hin|]. split; [exact Hidx|].
    eapply Yolo_detect_nothing; eauto.
  - intros Frame shape cuda predict cap sample_fps threshold model_id prompts art H.
    apply OpenVocab_assemble_OK in H as [H _].
    pose proof (sample_frames_OK _ _ _ _ _ H) as (_ & Hfps & _).
    apply sample_frames_records in H as (stride & Hs & _ & Hi & Hrec).
    exists stride. rewrite <- Hfps. split; [exact Hs|]. split; [exact Hi|].
    intros k frame results Hk Hm Hp Hn.
    destruct (Hrec k frame Hk Hm) as (rec & Hin & Hidx & Hd).
    exists rec. split; [exact Hin|]. split; [exact Hidx|].
    eapply OpenVocab_detect_nothing; eauto.
Qed.

Lemma frames_are_the_sampled_indices_witness :
  (Yolo.assemble id silent_yolo Yolo.ALLOWED_CLASSES sample_cap
     (Fin 10) (Fin (2 # 5)) 960 = OK sample_yolo_art /\
   frame_index <$> Yolo.a_frames sample_yolo_art = [0; 3] /\
   exists stride,
     frame_index <$> Yolo.a_frames sample_yolo_art = selected stride 5)
  /\
  (OpenVocab.assemble id false silent_ov sample_cap (Fin 10) (Fin (1 # 5))
     "google/owlvit-base-patch32" None = OK sample_ov_art /\
   frame_index <$> OpenVocab.a_frames sample_ov_art = [0; 3] /\
   exists stride,
     frame_index <$> OpenVocab.a_frames sample_ov_art = selected stride 5).
Proof.
  split.
  - assert (E : Yolo.assemble id silent_yolo Yolo.ALLOWED_CLASSES sample_cap
                  (Fin 10) (Fin (2 # 5)) 960 = OK sample_yolo_art)
      by (vm_compute; reflexivity).
    split; [exact E|]. split; [reflexivity|].
    destruct (proj1 frames_are_the_sampled_indices _ _ _ _ _ _ _ _ _ E)
      as (stride & _ & Hi & _).
    exists stride. exact Hi.
  - assert (E : OpenVocab.assemble id false silent_ov sample_cap (Fin 10)
                  (Fin (1 # 5)) "google/owlvit-base-patch32" None
                = OK sample_ov_art)
      by (vm_compute; reflexivity).
    split; [exact E|]. split; [reflexivity|].
    destruct (proj2 frames_are_the_sampled_indices _ _ _ _ _ _ _ _ _ _ E)
      as (stride & _ & Hi & _).
    exists stride. exact Hi.
Defined.

(* ===================================================================== *)
(** ** The per-frame box loops                                            *)
(* ===================================================================== *)

(** What the closed-vocabulary loop has appended: the boxes of the
    detections that passed the allow-list, in order. *)
Lemma Yolo_boxes_loop_OK allowed names w h bs acc out :
  Yolo.boxes_loop allowed names w h bs acc = OK out ->
  exists os, Forall2 (fun b o => Yolo.normalize allowed names w h b = OK o) bs os /\
             out = acc ++ omap id os.
Proof.
  revert acc. induction bs as [|b bs IH]; intros acc H; simpl in H.
  - inversion H; subst. exists []. split; [constructor|].
    simpl. rewrite app_nil_r. reflexivity.
  - bind_inv H as o Eo. apply IH in H as (os & HF & ->).
    exists (o :: os). split; [constructor; assumption|].
    destruct o as [x|]; simpl; [rewrite <- app_assoc|]; reflexivity.
Qed.

Lemma Yolo_frame_boxes_elem allowed w h results out box :
  Yolo.frame_boxes allowed w h results = OK out -> box ∈ out ->
  exists r rs bs b,
    results = r :: rs /\ Yolo.r_boxes r = Some bs /\ b ∈ bs /\
    Yolo.normalize allowed (Yolo.names r) w h b = OK (Some box).
Proof.
  unfold Yolo.frame_boxes. intros H Hin.
  destruct results as [|r rs]; [inversion H; subst; inversion Hin|].
  destruct (Yolo.r_boxes r) as [bs|] eqn:Eb; [|inversion H; subst; inversion Hin].
  apply Yolo_boxes_loop_OK in H as (os & HF & ->). simpl in Hin.
  apply list_elem_of_omap in Hin as (o & Ho & Hid). simpl in Hid. subst o.
  apply list_elem_of_lookup in Ho as [k Hk].
  destruct (Forall2_lookup_r _ _ _ _ _ HF Hk) as (b & Hb & Hn).
  exists r, rs, bs, b. split; [reflexivity|]. split; [exact Eb|].
  split; [eapply list_elem_of_lookup_2; eauto|exact Hn].
Qed.

Lemma OpenVocab_boxes_loop_OK prompts w h ds acc out :
  OpenVocab.boxes_loop prompts w h ds acc = OK out ->
  exists bxs, out = acc ++ bxs /\
    Forall2 (fun d box => OpenVocab.normalize prompts w h d = OK box) ds bxs.
Proof.
  revert acc. induction ds as [|d ds IH]; intros acc H; simpl in H.
  - inversion H; subst. exists []. rewrite app_nil_r. split; constructor.
  - bind_inv H as x Ex. apply IH in H as (bxs & -> & HF).
    exists (x :: bxs). split; [rewrite <- app_assoc; reflexivity|].
    constructor; assumption.
Qed.

Lemma OpenVocab_frame_boxes_OK prompts w h results out :
  OpenVocab.frame_boxes prompts w h results = OK out ->
  Forall2 (fun d box => OpenVocab.normalize prompts w h d = OK box)
    (OpenVocab.zip3 (OpenVocab.r_boxes results) (OpenVocab.r_scores results)
       (OpenVocab.r_labels results)) out.
Proof.
  unfold OpenVocab.frame_boxes. intros H.
  apply OpenVocab_boxes_loop_OK in H as (bxs & -> & HF). exact HF.
Qed.

(** Every box of a completed closed-vocabulary run comes from a raw
    detection that [normalize] kept. *)
Lemma Yolo_artifact_box {Frame} (shape : Frame -> Z * Z) predict allowed
    (cap : VideoCapture Frame) sample_fps conf imgsz art rec box :
  Yolo.assemble shape predict allowed cap sample_fps conf imgsz = OK art ->
  rec ∈ Yolo.a_frames art -> box ∈ boxes rec ->
  exists frame names b,
    frame ∈ stream cap /\
    Yolo.normalize allowed names (shape frame).2 (shape frame).1 b
      = OK (Some box).
Proof.
  intros H Hrec Hbox. apply Yolo_assemble_OK in H as [H _].
  apply sample_frames_OK in H as (_ & _ & stride & _ & _ & HF).
  apply list_elem_of_lookup in Hrec as [k Hk].
  destruct (Forall2_lookup_l _ _ _ _ _ HF Hk) as ([j frame] & Hj & _ & Hd & _).
  simpl in Hd. unfold Yolo.detect in Hd.
  destruct (shape frame) as [h w] eqn:Es.
  bind_inv Hd as results Er.
  destruct (Yolo_frame_boxes_elem _ _ _ _ _ _ Hd Hbox)
    as (r & rs & bs & b & _ & _ & _ & Hn).
  exists frame, (Yolo.names r), b. rewrite Es. split; [|exact Hn].
  assert (Hin : (j, frame) ∈ sampled stride 0 (stream cap))
    by (eapply list_elem_of_lookup_2; eauto).
  clear -Hin. revert Hin. generalize 0. induction (stream cap) as [|g l IH];
    intros i Hin; simpl in Hin; [inversion Hin|].
  destruct (i mod stride =? 0).
  - apply elem_of_cons in Hin as [Hin|Hin].
    + inversion Hin; subst. left.
    + right. eapply IH; eauto.
  - right. eapply IH; eauto.
Qed.

(* ===================================================================== *)
(** ** Labels                                                             *)
(* ===================================================================== *)

Lemma ALLOWED_CLASSES_nonempty : Yolo.ALLOWED_CLASSES ≠ ∅.
Proof.
  intros H. assert (Hin : "person"%string ∈ Yolo.ALLOWED_CLASSES)
    by (apply elem_of_singleton; reflexivity).
  rewrite H in Hin. apply elem_of_empty in Hin. exact Hin.
Qed.

(** The allow-list test drops a detection whose resolved label is not
    listed. *)
Lemma Yolo_normalize_drops allowed names w h b o cls_id :
  allowed ≠ ∅ ->
  Yolo.normalize allowed names w h b = OK o ->
  Yolo.cls_id_of b = OK cls_id ->
  Yolo.label_name names cls_id ∉ allowed ->
  o = None.
Proof.
  unfold Yolo.normalize. intros Hne H Hc Hnot.
  bind_inv H as row Er. bind_inv H as [[[x1 y1] x2] y2] Eu.
  bind_inv H as c Ec. bind_inv H as cs Es.
  rewrite Hc in Ec. inversion Ec; subst c.
  rewrite (bool_decide_eq_true_2 _ Hne) in H.
  rewrite (bool_decide_eq_false_2 _ Hnot) in H. simpl in H.
  inversion H. reflexivity.
Qed.

(** With an empty allow-list nothing is dropped. *)
Lemma Yolo_normalize_unfiltered names w h b o :
  Yolo.normalize ∅ names w h b = OK o ->
  exists box cls_id,
    o = Some box /\ Yolo.cls_id_of b = OK cls_id /\
    label box = Yolo.label_name names cls_id.
Proof.
  unfold Yolo.normalize. intros H.
  bind_inv H as row Er. bind_inv H as [[[x1 y1] x2] y2] Eu.
  bind_inv H as c Ec. bind_inv H as cs Es.
  rewrite bool_decide_eq_false_2 in H by (intros Hne; apply Hne; reflexivity).
  simpl in H. bind_inv H as px Epx. bind_inv H as pc Epc.
  inversion H; subst. eexists _, c. split; [reflexivity|]. split; [exact Ec|].
  reflexivity.
Qed.

(** C6: with the allow-list {"person"} every box of a completed run is
    labelled "person", and a detection whose resolved label is anything
    else ("car", say) is dropped; with an empty allow-list every detection
    keeps its resolved label and passes; the open-vocabulary pass has no
    filter: each detection gives one box, labelled with its prompt. *)
Theorem label_policy_exact :
  (forall (Frame : Type) (shape : Frame -> Z * Z) predict
          (cap : VideoCapture Frame) sample_fps conf imgsz art rec box,
      Yolo.assemble shape predict Yolo.ALLOWED_CLASSES cap sample_fps conf imgsz
        = OK art ->
      rec ∈ Yolo.a_frames art -> box ∈ boxes rec ->
      label box = "person"%string)
  /\
  (forall allowed names w h b o cls_id,
      allowed ≠ ∅ ->
      Yolo.normalize allowed names w h b = OK o ->
      Yolo.cls_id_of b = OK cls_id ->
      Yolo.label_name names cls_id ∉ allowed ->
      o = None)
  /\
  (forall names w h bs out,
      Yolo.boxes_loop ∅ names w h bs [] = OK out ->
      Forall2 (fun b box => exists cls_id,
                 Yolo.cls_id_of b = OK cls_id /\
                 label box = Yolo.label_name names cls_id) bs out)
  /\
  (forall prompts w h results out,
      OpenVocab.frame_boxes prompts w h results = OK out ->
      Forall2 (fun d box => py_index prompts d.2 = OK (label box))
        (OpenVocab.zip3 (OpenVocab.r_boxes results) (OpenVocab.r_scores results)
           (OpenVocab.r_labels results)) out).
Proof.
  split; [|split; [|split]].
  - intros Frame shape predict cap sample_fps conf imgsz art rec box H Hrec Hbox.
    destruct (Yolo_artifact_box _ _ _ _ _ _ _ _ _ _ H Hrec Hbox)
      as (frame & names & b & _ & Hn).
    apply Yolo_normalize_OK in Hn
      as (x1 & y1 & x2 & y2 & rest & cls_id & cs & _ & _ & _ & Hal & Hl & _).
    destruct Hal as [Hal|Hal]; [destruct (ALLOWED_CLASSES_nonempty Hal)|].
    rewrite Hl. apply elem_of_singleton in Hal. exact Hal.
  - apply Yolo_normalize_drops.
  - intros names w h bs out H.
    apply Yolo_boxes_loop_OK in H as (os & HF & ->). simpl.
    induction HF as [|b o bs os Hn HF IH]; [constructor|].
    apply Yolo_normalize_unfiltered in Hn as (box & c & -> & Hc & Hl).
    simpl. constructor; [eauto|exact IH].
  - intros prompts w h results out H.
    apply OpenVocab_frame_boxes_OK in H.
    induction H as [|d box ds bxs Hn HF IH]; constructor; [|exact IH].
    destruct d as [[row score] idx].
    apply OpenVocab_normalize_OK in Hn
      as (x1 & y1 & x2 & y2 & c3 & c4 & _ & Hl & _). exact Hl.
Qed.

Lemma label_policy_exact_witness :
  (Yolo.assemble id busy_yolo Yolo.ALLOWED_CLASSES sample_cap
     (Fin 10) (Fin (2 # 5)) 960 = OK busy_yolo_art /\
   forall rec box, rec ∈ Yolo.a_frames busy_yolo_art -> box ∈ boxes rec ->
                   label box = "person"%string)
  /\
  ((Yolo.ALLOWED_CLASSES ≠ ∅) /\
   Yolo.cls_id_of (sample_box 50 60 200 220 2 (3 # 4)) = OK 2 /\
   Yolo.label_name sample_names 2 = "car"%string /\
   ("car"%string ∉ Yolo.ALLOWED_CLASSES) /\
   Yolo.normalize Yolo.ALLOWED_CLASSES sample_names 640 480
     (sample_box 50 60 200 220 2 (3 # 4)) = OK None).
Proof.
  assert (E : Yolo.assemble id busy_yolo Yolo.ALLOWED_CLASSES sample_cap
                (Fin 10) (Fin (2 # 5)) 960 = OK busy_yolo_art)
    by (vm_compute; reflexivity).
  assert (Hcar : "car"%string ∉ Yolo.ALLOWED_CLASSES).
  { intros Hin. apply elem_of_singleton in Hin. discriminate. }
  split.
  - split; [exact E|]. intros rec box Hrec Hbox.
    exact (proj1 label_policy_exact _ _ _ _ _ _ _ _ rec box E Hrec Hbox).
  - split; [exact ALLOWED_CLASSES_nonempty|].
    split; [vm_compute; reflexivity|]. split; [vm_compute; reflexivity|].
    split; [exact Hcar|].
    destruct (Yolo.normalize Yolo.ALLOWED_CLASSES sample_names 640 480
                (sample_box 50 60 200 220 2 (3 # 4))) as [o|e] eqn:En.
    + f_equal.
      refine (proj1 (proj2 label_policy_exact) Yolo.ALLOWED_CLASSES sample_names
                640 480 _ o 2 ALLOWED_CLASSES_nonempty En _ Hcar).
      vm_compute. reflexivity.
    + exfalso. vm_compute in En. discriminate.
Defined.

(* ===================================================================== *)
(** ** Confidence                                                         *)
(* ===================================================================== *)

(** Dropping the confidence tensor of a raw box changes nothing but the
    confidence of what is emitted. *)
Lemma Yolo_normalize_without_conf allowed names w h xy cl t o :
  Yolo.normalize allowed names w h (Yolo.mkRawBox xy cl (Some t)) = OK o ->
  Yolo.normalize allowed names w h (Yolo.mkRawBox xy cl None)
    = OK (without_confidence <$> o).
Proof.
  unfold Yolo.normalize, Yolo.conf_score_of. cbn [Yolo.xyxy Yolo.conf].
  destruct (index0 xy) as [row|]; [|discriminate]. rewrite !ret_bind.
  destruct (unpack4 row) as [[[[x1 y1] x2] y2]|]; [|discriminate].
  rewrite !ret_bind.
  replace (Yolo.cls_id_of (Yolo.mkRawBox xy cl None))
    with (Yolo.cls_id_of (Yolo.mkRawBox xy cl (Some t))) by reflexivity.
  destruct (Yolo.cls_id_of _) as [c|]; [|discriminate]. rewrite !ret_bind.
  destruct (index0 t) as [v|]; [|discriminate]. rewrite !ret_bind.
  destruct (bool_decide _ && _); [intros H; inversion H; reflexivity|].
  destruct (px_list _ _ _ _) as [px|]; [|discriminate]. rewrite !ret_bind.
  destruct (pct_list _ _ _ _ _ _) as [pc|]; [|discriminate]. rewrite !ret_bind.
  intros H. inversion H. reflexivity.
Qed.

(** C7: a present confidence is emitted as [round(conf, 3)]; an absent one
    is emitted as [None], and its absence never makes the normaliser fail:
    the same raw box without its confidence gives the same record with
    [None].  The open-vocabulary pass always has a score and rounds it. *)
Theorem confidence_rounded_or_absent :
  (forall allowed names w h b box t,
      Yolo.normalize allowed names w h b = OK (Some box) ->
      Yolo.conf b = Some t ->
      exists v rest, t = v :: rest /\ confidence box = Some (py_round_nd v 3))
  /\
  (forall allowed names w h b box,
      Yolo.normalize allowed names w h b = OK (Some box) ->
      Yolo.conf b = None ->
      confidence box = None)
  /\
  (forall allowed names w h xy cl t o,
      Yolo.normalize allowed names w h (Yolo.mkRawBox xy cl (Some t)) = OK o ->
      Yolo.normalize allowed names w h (Yolo.mkRawBox xy cl None)
        = OK (without_confidence <$> o))
  /\
  (forall prompts w h row score label_idx box,
      OpenVocab.normalize prompts w h (row, score, label_idx) = OK box ->
      confidence box = Some (py_round_nd score 3)).
Proof.
  split; [|split; [|split]].
  - intros allowed names w h b box t H Ht.
    apply Yolo_normalize_OK in H
      as (x1 & y1 & x2 & y2 & rest & cls_id & cs & _ & _ & Hs & _ & _ & Hc & _).
    unfold Yolo.conf_score_of in Hs. rewrite Ht in Hs.
    bind_inv Hs as v Ev. apply index0_OK in Ev as [r ->].
    inversion Hs; subst. exists v, r. split; [reflexivity|exact Hc].
  - intros allowed names w h b box H Ht.
    apply Yolo_normalize_OK in H
      as (x1 & y1 & x2 & y2 & rest & cls_id & cs & _ & _ & Hs & _ & _ & Hc & _).
    unfold Yolo.conf_score_of in Hs. rewrite Ht in Hs.
    inversion Hs; subst. exact Hc.
  - apply Yolo_normalize_without_conf.
  - intros prompts w h row score label_idx box H.
    apply OpenVocab_normalize_OK in H
      as (x1 & y1 & x2 & y2 & c3 & c4 & _ & _ & Hc & _). exact Hc.
Qed.

Lemma confidence_rounded_or_absent_witness :
  (Yolo.normalize Yolo.ALLOWED_CLASSES sample_names 640 480 sample_half_in
     = OK (Some sample_half_out) /\
   Yolo.conf sample_half_in = Some [Fin (7 # 8)] /\
   exists v rest, [Fin (7 # 8)] = v :: rest /\
                  confidence sample_half_out = Some (py_round_nd v 3))
  /\
  (Yolo.normalize Yolo.ALLOWED_CLASSES sample_names 640 480
     (Yolo.mkRawBox [sample_whole_row] (Some [Fin 0]) None)
     = OK (Some (without_confidence sample_whole_out)) /\
   confidence (without_confidence sample_whole_out) = None)
  /\
  (OpenVocab.normalize OpenVocab.default_prompts 640 480 sample_ov_in
     = OK sample_ov_out /\
   confidence sample_ov_out = Some (py_round_nd (Fin (1 # 2)) 3)).
Proof.
  assert (E1 : Yolo.normalize Yolo.ALLOWED_CLASSES sample_names 640 480
                 sample_half_in = OK (Some sample_half_out))
    by (vm_compute; reflexivity).
  assert (E2 : Yolo.normalize Yolo.ALLOWED_CLASSES sample_names 640 480
                 sample_whole_in = OK (Some sample_whole_out))
    by (vm_compute; reflexivity).
  assert (E3 : OpenVocab.normalize OpenVocab.default_prompts 640 480 sample_ov_in
               = OK sample_ov_out)
    by (vm_compute; reflexivity).
  split; [|split].
  - split; [exact E1|]. split; [reflexivity|].
    exact (proj1 confidence_rounded_or_absent _ _ _ _ _ _ _ E1 eq_refl).
  - pose proof (proj1 (proj2 (proj2 confidence_rounded_or_absent))
                  _ _ _ _ _ _ _ _ E2) as E.
    split; [exact E|].
    exact (proj1 (proj2 confidence_rounded_or_absent) _ _ _ _ _ _ E eq_refl).
  - split; [exact E3|].
    exact (proj2 (proj2 (proj2 confidence_rounded_or_absent)) _ _ _ _ _ _ _ E3).
Defined.

(* ===================================================================== *)
(** ** Malformed boxes                                                    *)
(* ===================================================================== *)

Lemma is_ok_bind_false {A B} (m : result A) (f : A -> result B) :
  is_ok m = false -> is_ok (m ≫= f) = false.
Proof. destruct m; [discriminate|reflexivity]. Qed.

Lemma unpack4_length {A} (l : list A) : length l ≠ 4%nat -> is_ok (unpack4 l) = false.
Proof.
  destruct l as [|? [|? [|? [|? [|? ?]]]]]; simpl; intros H; try reflexivity.
  contradiction.
Qed.

Lemma Yolo_normalize_malformed allowed names w h b :
  yolo_malformed b -> is_ok (Yolo.normalize allowed names w h b) = false.
Proof.
  unfold yolo_malformed, Yolo.normalize. intros H.
  destruct (Yolo.xyxy b) as [|row rest]; [reflexivity|].
  cbn [index0]. rewrite ret_bind.
  apply is_ok_bind_false, unpack4_length. exact H.
Qed.

Lemma Yolo_boxes_loop_malformed allowed names w h bs acc b :
  b ∈ bs -> yolo_malformed b ->
  is_ok (Yolo.boxes_loop allowed names w h bs acc) = false.
Proof.
  intros Hin Hb. revert acc. induction bs as [|c bs IH]; intros acc;
    [inversion Hin|].
  simpl. destruct (Yolo.normalize allowed names w h c) as [o|e] eqn:En;
    [|reflexivity].
  rewrite ret_bind. apply elem_of_cons in Hin as [->|Hin].
  - pose proof (Yolo_normalize_malformed allowed names w h c Hb) as F.
    rewrite En in F. discriminate.
  - apply IH. exact Hin.
Qed.

Lemma OpenVocab_normalize_malformed prompts w h d :
  ov_malformed d -> is_ok (OpenVocab.normalize prompts w h d) = false.
Proof.
  destruct d as [[row score] idx]. unfold ov_malformed, OpenVocab.normalize.
  simpl. intros H.
  destruct (py_index prompts idx) as [l|]; [|reflexivity]. rewrite ret_bind.
  apply is_ok_bind_false, unpack4_length. exact H.
Qed.

Lemma OpenVocab_boxes_loop_malformed prompts w h ds acc d :
  d ∈ ds -> ov_malformed d ->
  is_ok (OpenVocab.boxes_loop prompts w h ds acc) = false.
Proof.
  intros Hin Hd. revert acc. induction ds as [|c ds IH]; intros acc;
    [inversion Hin|].
  simpl. destruct (OpenVocab.normalize prompts w h c) as [o|e] eqn:En;
    [|reflexivity].
  rewrite ret_bind. apply elem_of_cons in Hin as [->|Hin].
  - pose proof (OpenVocab_normalize_malformed prompts w h c Hd) as F.
    rewrite En in F. discriminate.
  - apply IH. exact Hin.
Qed.

(** What a malformed box raises: [IndexError] where there is no row to
    take, [ValueError] where the row does not unpack into four names. *)
Lemma unpack4_ValueError {A} (l : list A) :
  length l ≠ 4%nat -> unpack4 l = Raise ValueError.
Proof.
  destruct l as [|? [|? [|? [|? [|? ?]]]]]; simpl; intros H; try reflexivity.
  contradiction.
Qed.

Lemma Yolo_normalize_malformed_exn allowed names w h b :
  yolo_malformed b ->
  Yolo.normalize allowed names w h b
  = Raise (match Yolo.xyxy b with [] => IndexError | _ => ValueError end).
Proof.
  unfold yolo_malformed, Yolo.normalize. intros H.
  destruct (Yolo.xyxy b) as [|row rest]; [reflexivity|].
  cbn [index0]. rewrite ret_bind, (unpack4_ValueError row H). reflexivity.
Qed.

Lemma OpenVocab_normalize_malformed_exn prompts w h d :
  ov_malformed d ->
  OpenVocab.normalize prompts w h d
  = Raise (if is_ok (py_index prompts d.2) then ValueError else IndexError).
Proof.
  destruct d as [[row score] idx]. unfold ov_malformed, OpenVocab.normalize.
  cbn [fst snd]. intros H. unfold py_index.
  destruct (_ && _); [|reflexivity].
  destruct (prompts !! _) as [l|]; [|reflexivity].
  cbn [is_ok]. rewrite ret_bind, (unpack4_ValueError row H). reflexivity.
Qed.

(** A sampled frame on which detection fails fails the whole pass. *)
Lemma sample_frames_Raise {Frame} (detect : Frame -> result (list Box))
    (cap : VideoCapture Frame) (sample_fps : pyfloat) (stride : Z) (k : nat)
    (frame : Frame) :
  stride_of (fps_or_default (CAP_PROP_FPS cap)) sample_fps = OK stride ->
  stream cap !! k = Some frame -> Z.of_nat k mod stride = 0 ->
  is_ok (detect frame) = false ->
  is_ok (sample_frames detect cap sample_fps) = false.
Proof.
  intros Hs Hk Hm Hd. unfold sample_frames.
  destruct (isOpened cap); [|reflexivity]. simpl. rewrite Hs, ret_bind.
  apply is_ok_bind_false.
  eapply read_loop_Raise; [|exact Hd].
  exact (sampled_lookup stride 0 (stream cap) k frame Hk Hm).
Qed.

(** A run that does not assemble a document returns its exception and
    leaves the file system as it was. *)
Lemma Yolo_run_detection_Raise {Frame} (shape : Frame -> Z * Z) predict
    json_iterencode (cap : VideoCapture Frame) sample_fps conf imgsz s :
  is_ok (Yolo.assemble shape predict Yolo.ALLOWED_CLASSES cap sample_fps conf
           imgsz) = false ->
  exists e, Yolo.run_detection shape predict json_iterencode cap sample_fps conf
              imgsz s = (Raise e, s).
Proof.
  unfold Yolo.run_detection. intros H.
  destruct (Yolo.assemble _ _ _ _ _ _ _) as [art|e]; [discriminate|eauto].
Qed.

Lemma OpenVocab_run_detection_Raise {Frame} (shape : Frame -> Z * Z) cuda
    predict json_iterencode (cap : VideoCapture Frame) sample_fps threshold
    model_id prompts s :
  is_ok (OpenVocab.assemble shape cuda predict cap sample_fps threshold
           model_id prompts) = false ->
  exists e, OpenVocab.run_detection shape cuda predict json_iterencode cap
              sample_fps threshold model_id prompts s = (Raise e, s).
Proof.
  unfold OpenVocab.run_detection. intros H.
  destruct (OpenVocab.assemble _ _ _ _ _ _ _ _) as [art|e]; [discriminate|eauto].
Qed.

(** C8, as stated, fails: a three-coordinate box followed by a well-formed
    person on one frame.  The well-formed box alone gives one record; with
    the malformed box before it the frame's loop raises [ValueError], and
    the run returns that exception without writing anything. *)
Lemma malformed_box_not_skipped :
  yolo_malformed short_box /\
  is_ok (Yolo.boxes_loop Yolo.ALLOWED_CLASSES sample_names 640 480 [good_box] [])
    = true /\
  Yolo.boxes_loop Yolo.ALLOWED_CLASSES sample_names 640 480
    [short_box; good_box] [] = Raise ValueError /\
  Yolo.run_detection id broken_yolo no_chunks sample_cap (Fin 10) (Fin (2 # 5))
    960 empty_fs = (Raise ValueError, empty_fs).
Proof.
  split; [vm_compute; discriminate|].
  repeat split; vm_compute; reflexivity.
Qed.

(** A detection the closed-vocabulary body skips was dropped by the
    allow-list: the list is not empty and lacks the resolved label. *)
Lemma Yolo_normalize_None allowed names w h b :
  Yolo.normalize allowed names w h b = OK None ->
  (allowed ≠ ∅) /\
  exists cls_id,
    Yolo.cls_id_of b = OK cls_id /\ (Yolo.label_name names cls_id ∉ allowed).
Proof.
  unfold Yolo.normalize. intros H.
  bind_inv H as row Er. bind_inv H as [[[x1 y1] x2] y2] Eu.
  bind_inv H as c Ec. bind_inv H as cs Es.
  destruct (bool_decide (allowed ≠ ∅) && _) eqn:F.
  - apply andb_true_iff in F as [F1 F2].
    apply bool_decide_eq_true in F1.
    apply negb_true_iff, bool_decide_eq_false in F2.
    split; [exact F1|]. exists c. split; [exact Ec|exact F2].
  - bind_inv H as px Epx. bind_inv H as pc Epc. discriminate.
Qed.

(** The boxes of a frame whose loop completes are those of the listed
    detections, one each, in order. *)
Lemma Yolo_boxes_loop_listed allowed names w h bs out :
  Yolo.boxes_loop allowed names w h bs [] = OK out ->
  Forall2 (fun b box => Yolo.normalize allowed names w h b = OK (Some box))
    (List.filter (listed allowed names) bs) out.
Proof.
  intros H. apply Yolo_boxes_loop_OK in H as (os & HF & ->). simpl.
  induction HF as [|b o bs os Hn HF IH]; [constructor|].
  cbn [List.filter]. destruct o as [box|].
  - pose proof Hn as Hn'. apply Yolo_normalize_OK in Hn'
      as (x1 & y1 & x2 & y2 & rest & c & cs & _ & Hc & _ & Hal & _).
    unfold listed at 1. rewrite Hc. rewrite (bool_decide_eq_true_2 _ Hal).
    simpl. constructor; [exact Hn|exact IH].
  - apply Yolo_normalize_None in Hn as (Hne & c & Hc & Hnot).
    unfold listed at 1. rewrite Hc. rewrite bool_decide_eq_false_2 by tauto.
    simpl. exact IH.
Qed.

(** C8 (amended): a raw detection whose box is missing or does not have
    four coordinates is not skipped: normalising it raises, the frame's
    loop raises whatever else the frame holds, and a run that samples such
    a frame returns the exception and writes nothing; the exception of the
    box itself is [IndexError] where it has no row and [ValueError] where
    the row does not have four entries (in the open-vocabulary loop, after
    the [IndexError] of a label index outside the prompts).  The only
    detections that are skipped are those the allow-list drops: a skipped
    detection has a resolved label that a non-empty allow-list lacks, the
    boxes of a completed frame are those of the other detections, one each
    in order, and the open-vocabulary loop, which has no allow-list, skips
    none. *)
Theorem malformed_box_aborts :
  (forall allowed names w h bs acc b,
      b ∈ bs -> yolo_malformed b ->
      is_ok (Yolo.boxes_loop allowed names w h bs acc) = false)
  /\
  (forall prompts w h ds acc d,
      d ∈ ds -> ov_malformed d ->
      is_ok (OpenVocab.boxes_loop prompts w h ds acc) = false)
  /\
  (forall (Frame : Type) (shape : Frame -> Z * Z) predict json_iterencode
          (cap : VideoCapture Frame) sample_fps conf imgsz s stride
          (k : nat) frame r rs bs b,
      stride_of (fps_or_default (CAP_PROP_FPS cap)) sample_fps = OK stride ->
      stream cap !! k = Some frame -> Z.of_nat k mod stride = 0 ->
      predict frame imgsz conf = OK (r :: rs) -> Yolo.r_boxes r = Some bs ->
      b ∈ bs -> yolo_malformed b ->
      exists e, Yolo.run_detection shape predict json_iterencode cap sample_fps
                  conf imgsz s = (Raise e, s))
  /\
  (forall (Frame : Type) (shape : Frame -> Z * Z) cuda predict json_iterencode
          (cap : VideoCapture Frame) sample_fps threshold model_id prompts s
          stride (k : nat) frame results d,
      stride_of (fps_or_default (CAP_PROP_FPS cap)) sample_fps = OK stride ->
      stream cap !! k = Some frame -> Z.of_nat k mod stride = 0 ->
      predict (OpenVocab.device cuda) model_id
        (OpenVocab.prompts_or_default prompts) frame threshold = OK results ->
      d ∈ OpenVocab.zip3 (OpenVocab.r_boxes results)
            (OpenVocab.r_scores results) (OpenVocab.r_labels results) ->
      ov_malformed d ->
      exists e, OpenVocab.run_detection shape cuda predict json_iterencode cap
                  sample_fps threshold model_id prompts s = (Raise e, s))
  /\
  (forall allowed names w h b,
      yolo_malformed b ->
      Yolo.normalize allowed names w h b
      = Raise (match Yolo.xyxy b with [] => IndexError | _ => ValueError end))
  /\
  (forall prompts w h d,
      ov_malformed d ->
      OpenVocab.normalize prompts w h d
      = Raise (if is_ok (py_index prompts d.2) then ValueError
               else IndexError))
  /\
  (forall allowed names w h b,
      Yolo.normalize allowed names w h b = OK None ->
      (allowed ≠ ∅) /\
      exists cls_id,
        Yolo.cls_id_of b = OK cls_id /\
        (Yolo.label_name names cls_id ∉ allowed))
  /\
  (forall allowed names w h bs out,
      Yolo.boxes_loop allowed names w h bs [] = OK out ->
      Forall2 (fun b box => Yolo.normalize allowed names w h b = OK (Some box))
        (List.filter (listed allowed names) bs) out)
  /\
  (forall prompts w h ds out,
      OpenVocab.boxes_loop prompts w h ds [] = OK out ->
      length out = length ds).
Proof.
  split; [|split; [|split; [|split; [|split; [|split; [|split; [|split]]]]]]].
  - apply Yolo_boxes_loop_malformed.
  - apply OpenVocab_boxes_loop_malformed.
  - intros Frame shape predict json_iterencode cap sample_fps conf imgsz s stride
      k frame r rs bs b Hs Hk Hm Hp Hb Hin Hmal.
    apply Yolo_run_detection_Raise. unfold Yolo.assemble.
    apply is_ok_bind_false.
    eapply sample_frames_Raise; [exact Hs|exact Hk|exact Hm|].
    unfold Yolo.detect. destruct (shape frame) as [h w].
    rewrite Hp, ret_bind. unfold Yolo.frame_boxes. rewrite Hb.
    eapply Yolo_boxes_loop_malformed; eauto.
  - intros Frame shape cuda predict json_iterencode cap sample_fps threshold
      model_id prompts s stride k frame results d Hs Hk Hm Hp Hin Hmal.
    apply OpenVocab_run_detection_Raise. unfold OpenVocab.assemble.
    apply is_ok_bind_false.
    eapply sample_frames_Raise; [exact Hs|exact Hk|exact Hm|].
    unfold OpenVocab.detect. destruct (shape frame) as [h w].
    rewrite Hp, ret_bind. unfold OpenVocab.frame_boxes.
    eapply OpenVocab_boxes_loop_malformed; eauto.
  - apply Yolo_normalize_malformed_exn.
  - apply OpenVocab_normalize_malformed_exn.
  - apply Yolo_normalize_None.
  - apply Yolo_boxes_loop_listed.
  - intros prompts w h ds out H.
    apply OpenVocab_boxes_loop_OK in H as (bxs & -> & HF).
    symmetry. exact (Forall2_length _ _ _ HF).
Qed.

Lemma malformed_box_aborts_witness :
  short_box ∈ [short_box; good_box] /\ yolo_malformed short_box /\
  is_ok (Yolo.boxes_loop Yolo.ALLOWED_CLASSES sample_names 640 480
           [short_box; good_box] []) = false.
Proof.
  assert (Hin : short_box ∈ [short_box; good_box]) by left.
  assert (Hm : yolo_malformed short_box) by (vm_compute; discriminate).
  split; [exact Hin|]. split; [exact Hm|].
  exact (proj1 malformed_box_aborts Yolo.ALLOWED_CLASSES sample_names 640 480
           [short_box; good_box] [] short_box Hin Hm).
Defined.

(* ===================================================================== *)
(** ** Persisting                                                         *)
(* ===================================================================== *)

Lemma write_files dest chunk s :
  FS.files (FS.write dest chunk s) !! dest
  = Some (default ""%string (FS.files s !! dest) +:+ chunk)%string.
Proof. unfold FS.write. simpl. apply lookup_insert_eq. Qed.

Lemma write_other dest chunk s q :
  q ≠ dest -> FS.files (FS.write dest chunk s) !! q = FS.files s !! q.
Proof. intros H. unfold FS.write. simpl. apply lookup_insert_ne. congruence. Qed.

Lemma dump_dirs dest chunks s : FS.dirs (FS.dump dest chunks s) = FS.dirs s.
Proof.
  revert s. induction chunks as [|c cs IH]; intros s; [reflexivity|].
  unfold FS.dump in *. simpl. rewrite IH. reflexivity.
Qed.

Lemma dump_other dest chunks s q :
  q ≠ dest -> FS.files (FS.dump dest chunks s) !! q = FS.files s !! q.
Proof.
  intros H. revert s. induction chunks as [|c cs IH]; intros s; [reflexivity|].
  unfold FS.dump in *. simpl. rewrite IH. apply write_other. exact H.
Qed.

Lemma dump_files dest chunks s acc :
  FS.files s !! dest = Some acc ->
  FS.files (FS.dump dest chunks s) !! dest = Some (foldl String.append acc chunks).
Proof.
  revert s acc. induction chunks as [|c cs IH]; intros s acc H; [exact H|].
  unfold FS.dump in *. simpl. apply IH. rewrite write_files, H. reflexivity.
Qed.


Lemma prefixes_self (p : FS.path) : p ∈ FS.prefixes p.
Proof.
  unfold FS.prefixes. apply list_elem_of_fmap. exists (length p). split.
  - rewrite firstn_all. reflexivity.
  - apply elem_of_seq. lia.
Qed.

Lemma prefixes_length (p q : FS.path) : q ∈ FS.prefixes p -> (length q <= length p)%nat.
Proof.
  unfold FS.prefixes. intros H. apply list_elem_of_fmap in H as (n & -> & _).
  rewrite length_take. lia.
Qed.

Lemma parent_length (p : FS.path) : p ≠ [] -> (length (FS.parent p) < length p)%nat.
Proof.
  intros H. unfold FS.parent.
  destruct (exists_last H) as (l & a & ->).
  rewrite removelast_last, length_app. simpl. lia.
Qed.

Lemma ancestors_prefixes (p q : FS.path) : q ∈ FS.ancestors p -> q ∈ FS.prefixes p.
Proof.
  destruct p as [|a p]; [intros H; inversion H|]. unfold FS.ancestors.
  set (l := a :: p). unfold FS.prefixes, FS.parent. intros H.
  apply list_elem_of_fmap in H as (n & -> & Hn). apply elem_of_seq in Hn.
  rewrite removelast_firstn_len in *. rewrite length_take in Hn.
  apply list_elem_of_fmap. exists n. split.
  - rewrite take_take. f_equal. lia.
  - apply elem_of_seq. lia.
Qed.

Lemma prefixes_inv (p q : FS.path) :
  q ∈ FS.prefixes p -> q = p \/ q ∈ FS.ancestors p.
Proof.
  unfold FS.prefixes. intros H.
  apply list_elem_of_fmap in H as (n & -> & Hn). apply elem_of_seq in Hn.
  destruct (decide (n = length p)) as [->|Hne].
  - left. apply firstn_all.
  - right. destruct p as [|a p]; [simpl in *; lia|].
    unfold FS.ancestors. set (l := a :: p) in *.
    unfold FS.prefixes, FS.parent. rewrite removelast_firstn_len.
    apply list_elem_of_fmap. exists n. split.
    + rewrite take_take. f_equal. lia.
    + apply elem_of_seq. rewrite length_take. lia.
Qed.

Lemma mkdir_parents_OK p s :
  Forall (fun q => FS.files s !! q = None) (FS.prefixes p) ->
  FS.mkdir_parents p s
  = OK (FS.mkFs (FS.dirs s ∪ list_to_set (FS.prefixes p)) (FS.files s)).
Proof.
  intros H. rewrite Forall_forall in H. unfold FS.mkdir_parents.
  replace (existsb _ _) with false.
  - unfold FS.is_file. rewrite bool_decide_eq_false_2; [reflexivity|].
    rewrite (H p (prefixes_self p)). intros [x Hx]. discriminate.
  - symmetry. apply not_true_is_false. intros E.
    apply existsb_exists in E as (q & Hq & Hb).
    apply bool_decide_eq_true in Hb. apply list_elem_of_In in Hq.
    rewrite (H q (ancestors_prefixes p q Hq)) in Hb.
    destruct Hb as [x Hx]. discriminate.
Qed.

Lemma open_w_after_mkdir dest s :
  writable dest s ->
  FS.open_w dest
    (FS.mkFs (FS.dirs s ∪ list_to_set (FS.prefixes (FS.parent dest))) (FS.files s))
  = OK (FS.mkFs (FS.dirs s ∪ list_to_set (FS.prefixes (FS.parent dest)))
          (<[dest := ""%string]> (FS.files s))).
Proof.
  intros (Hne & Hnd & Hf). unfold FS.open_w. cbn [FS.dirs FS.files].
  rewrite bool_decide_eq_false_2.
  - rewrite bool_decide_eq_true_2; [reflexivity|].
    rewrite elem_of_union, elem_of_list_to_set. right. apply prefixes_self.
  - rewrite elem_of_union, elem_of_list_to_set. intros [Hin|Hin]; [contradiction|].
    apply prefixes_length in Hin. pose proof (parent_length dest Hne). lia.
Qed.

(** Persisting to a writable destination succeeds, creates every ancestor
    directory, leaves the complete document at the destination whatever it
    held before, and touches no other file. *)
Lemma persist_writable dest chunks s :
  writable dest s ->
  exists s',
    FS.persist dest chunks s = (OK (), s') /\
    FS.files s' !! dest = Some (document chunks) /\
    (forall q, q ∈ FS.prefixes (FS.parent dest) -> q ∈ FS.dirs s') /\
    (forall q, q ≠ dest -> FS.files s' !! q = FS.files s !! q).
Proof.
  intros Hw. pose proof Hw as (Hne & Hnd & Hf). unfold FS.persist.
  rewrite (mkdir_parents_OK _ _ Hf), (open_w_after_mkdir _ _ Hw).
  eexists. split; [reflexivity|]. split; [|split].
  - apply dump_files. cbn [FS.files]. apply lookup_insert_eq.
  - intros q Hq. rewrite dump_dirs. cbn [FS.dirs].
    rewrite elem_of_union, elem_of_list_to_set. right. exact Hq.
  - intros q Hq. rewrite dump_other by exact Hq. cbn [FS.files].
    apply lookup_insert_ne. congruence.
Qed.


Lemma used_fs_writable : writable OUT_PATH used_fs.
Proof.
  split; [discriminate|]. split.
  - intros Hin. apply (bool_decide_eq_true_2 _) in Hin.
    vm_compute in Hin. discriminate.
  - change (FS.prefixes (FS.parent OUT_PATH))
      with [[]; ["data"%string]; ["data"; "cv"]%string].
    repeat constructor; vm_compute; reflexivity.
Qed.

Lemma empty_fs_writable : writable OUT_PATH empty_fs.
Proof.
  split; [discriminate|]. split.
  - intros Hin. apply elem_of_empty in Hin. exact Hin.
  - change (FS.prefixes (FS.parent OUT_PATH))
      with [[]; ["data"%string]; ["data"; "cv"]%string].
    repeat constructor.
Qed.






(** A run that assembled its document persists the chunks the encoder
    yields, and ends as the encoder ends. *)
Lemma Yolo_run_persists {Frame} (shape : Frame -> Z * Z) predict json_iterencode
    (cap : VideoCapture Frame) sample_fps conf imgsz s art :
  Yolo.assemble shape predict Yolo.ALLOWED_CLASSES cap sample_fps conf imgsz
    = OK art ->
  writable OUT_PATH s ->
  exists s',
    Yolo.run_detection shape predict json_iterencode cap sample_fps conf imgsz s
      = (match (json_iterencode art).2 with
         | Some e => Raise e
         | None => OK OUT_PATH
         end, s') /\
    FS.files s' !! OUT_PATH = Some (document (json_iterencode art).1).
Proof.
  intros A Hw. unfold Yolo.run_detection. rewrite A.
  destruct (json_iterencode art) as [chunks failure].
  destruct (persist_writable OUT_PATH chunks s Hw) as (s' & Hp & Hd & _).
  exists s'. rewrite Hp. split; [destruct failure; reflexivity|exact Hd].
Qed.




(* ===================================================================== *)
(** ** Further properties of the run                                      *)
(* ===================================================================== *)

(** A capture that did not open ends the run with [RuntimeError] before the
    frame rate, the sample rate or any frame is looked at, and nothing is
    written. *)
Theorem unopened_capture_raises :
  (forall (Frame : Type) (shape : Frame -> Z * Z) predict json_iterencode
          (cap : VideoCapture Frame) sample_fps conf imgsz s,
      isOpened cap = false ->
      Yolo.run_detection shape predict json_iterencode cap sample_fps conf imgsz s
      = (Raise RuntimeError, s))
  /\
  (forall (Frame : Type) (shape : Frame -> Z * Z) cuda predict json_iterencode
          (cap : VideoCapture Frame) sample_fps threshold model_id prompts s,
      isOpened cap = false ->
      OpenVocab.run_detection shape cuda predict json_iterencode cap sample_fps
        threshold model_id prompts s = (Raise RuntimeError, s)).
Proof.
  split.
  - intros Frame shape predict json_iterencode cap sample_fps conf imgsz s H.
    unfold Yolo.run_detection, Yolo.assemble, sample_frames. rewrite H.
    reflexivity.
  - intros Frame shape cuda predict json_iterencode cap sample_fps threshold
      model_id prompts s H.
    unfold OpenVocab.run_detection, OpenVocab.assemble, sample_frames.
    rewrite H. reflexivity.
Qed.

Lemma unopened_capture_raises_witness :
  isOpened (mkCapture false (Fin 30) [(480, 640)]) = false /\
  Yolo.run_detection id silent_yolo no_chunks
    (mkCapture false (Fin 30) [(480, 640)]) (Fin 0) (Fin (2 # 5)) 960 used_fs
  = (Raise RuntimeError, used_fs).
Proof.
  split; [reflexivity|].
  exact (proj1 unopened_capture_raises _ id silent_yolo no_chunks
           (mkCapture false (Fin 30) [(480, 640)]) (Fin 0) (Fin (2 # 5)) 960
           used_fs eq_refl).
Defined.

(** The stride computation raises [ZeroDivisionError] exactly when the
    sample rate is zero, [ValueError] exactly when the quotient is NaN and
    [OverflowError] exactly when it is infinite. *)
Theorem stride_of_errors (video_fps sample_fps : pyfloat) :
  (stride_of video_fps sample_fps = Raise ZeroDivisionError
   <-> exists q, sample_fps = Fin q /\ (q == 0)%Q)
  /\
  (stride_of video_fps sample_fps = Raise ValueError
   <-> fdiv video_fps sample_fps = OK NaN)
  /\
  (stride_of video_fps sample_fps = Raise OverflowError
   <-> exists neg, fdiv video_fps sample_fps = OK (Inf neg)).
Proof.
  assert (Z : forall q : Q, Qis_zero q = true <-> (q == 0)%Q).
  { intros [n d]. unfold Qis_zero, Qeq. simpl. rewrite Z.eqb_eq. lia. }
  assert (D : forall e, fdiv video_fps sample_fps = Raise e ->
                        e = ZeroDivisionError /\
                        exists q, sample_fps = Fin q /\ (q == 0)%Q).
  { intros e H. unfold fdiv in H.
    destruct video_fps as [a|n|], sample_fps as [b|m|]; try discriminate;
      destruct (Qis_zero b) eqn:E; try discriminate;
      inversion H; (split; [reflexivity|]); exists b;
      (split; [reflexivity|apply Z; exact E]). }
  unfold stride_of.
  destruct (fdiv video_fps sample_fps) as [[q|n|]|e] eqn:F; simpl.
  - split; [|split]; (split; [discriminate|]).
    + intros (b & -> & Hb). apply Z in Hb. unfold fdiv in F.
      destruct video_fps; rewrite Hb in F; discriminate.
    + discriminate.
    + intros [neg H]. discriminate.
  - split; [|split].
    + split; [discriminate|].
      intros (b & -> & Hb). apply Z in Hb. unfold fdiv in F.
      destruct video_fps; rewrite Hb in F; discriminate.
    + split; discriminate.
    + split; [eauto|reflexivity].
  - split; [|split].
    + split; [discriminate|].
      intros (b & -> & Hb). apply Z in Hb. unfold fdiv in F.
      destruct video_fps; rewrite Hb in F; discriminate.
    + split; reflexivity.
    + split; [discriminate|]. intros [neg H]. discriminate.
  - destruct (D e eq_refl) as [-> Hq]. split; [|split].
    + split; [intros _; exact Hq|reflexivity].
    + split; discriminate.
    + split; [discriminate|]. intros [neg H]. discriminate.
Qed.

Lemma selected_S (stride : Z) (n : nat) :
  selected stride (S n)
  = selected stride n ++ (if decide (Z.of_nat n mod stride = 0) then [Z.of_nat n] else []).
Proof.
  unfold selected. rewrite seqZ_S, filter_app, Z.add_0_l.
  rewrite filter_cons, filter_nil. reflexivity.
Qed.

Lemma elem_of_selected (stride : Z) (n : nat) (i : Z) :
  i ∈ selected stride n <-> 0 <= i < Z.of_nat n /\ i mod stride = 0.
Proof.
  unfold selected. rewrite list_elem_of_filter, elem_of_seqZ. intuition lia.
Qed.

Lemma ceil_step (n s : Z) :
  0 <= n -> 1 <= s ->
  (n + 1 + s - 1) / s
  = (n + s - 1) / s + (if decide (n mod s = 0) then 1 else 0).
Proof.
  intros Hn Hs.
  pose proof (Z.div_mod n s ltac:(lia)) as E.
  pose proof (Z.mod_pos_bound n s ltac:(lia)) as B.
  set (a := n / s) in *. set (r := n mod s) in *.
  assert (L : (n + 1 + s - 1) / s = a + 1).
  { symmetry. apply (Z.div_unique _ _ _ r); lia. }
  rewrite L. destruct (decide (r = 0)) as [R|R].
  - assert (M : (n + s - 1) / s = a).
    { symmetry. apply (Z.div_unique _ _ _ (s - 1)); lia. }
    lia.
  - assert (M : (n + s - 1) / s = a + 1).
    { symmetry. apply (Z.div_unique _ _ _ (r - 1)); lia. }
    lia.
Qed.

Lemma length_selected (stride : Z) (n : nat) :
  1 <= stride ->
  Z.of_nat (length (selected stride n)) = (Z.of_nat n + stride - 1) / stride.
Proof.
  intros Hs. induction n as [|n IH].
  - simpl. symmetry. apply Z.div_small. lia.
  - rewrite selected_S, length_app, Nat2Z.inj_add, IH.
    replace (Z.of_nat (S n) + stride - 1) with (Z.of_nat n + 1 + stride - 1) by lia.
    rewrite ceil_step by lia.
    destruct (decide (Z.of_nat n mod stride = 0)); reflexivity.
Qed.

Lemma selected_sorted (stride : Z) (n : nat) :
  StronglySorted Z.lt (selected stride n).
Proof.
  induction n as [|n IH]; [constructor|].
  rewrite selected_S. apply StronglySorted_app_2; [|exact IH|].
  - intros x1 x2 H1 H2. apply elem_of_selected in H1 as [H1 _].
    destruct (decide _); [|inversion H2].
    apply list_elem_of_singleton in H2. lia.
  - destruct (decide _); repeat constructor.
Qed.

(** A completed pass has one record for every [stride]-th frame: over [n]
    frames that is the ceiling of [n / stride], and all [n] when the stride
    is 1. *)
Theorem sampled_frame_count :
  forall (Frame : Type) (detect : Frame -> result (list Box))
         (cap : VideoCapture Frame) sample_fps video_fps frames,
    sample_frames detect cap sample_fps = OK (video_fps, frames) ->
    exists stride,
      stride_of video_fps sample_fps = OK stride /\
      Z.of_nat (length frames)
      = (Z.of_nat (length (stream cap)) + stride - 1) / stride /\
      (stride = 1 -> length frames = length (stream cap)).
Proof.
  intros Frame detect cap sample_fps video_fps frames H.
  apply sample_frames_records in H as (stride & Hs & H1 & Hi & _).
  exists stride. split; [exact Hs|].
  assert (L : length frames = length (selected stride (length (stream cap)))).
  { rewrite <- Hi, length_fmap. reflexivity. }
  split.
  - rewrite L. apply length_selected. exact H1.
  - intros ->. pose proof (length_selected 1 (length (stream cap)) ltac:(lia)) as E.
    rewrite <- L in E. replace (Z.of_nat (length (stream cap)) + 1 - 1)
      with (Z.of_nat (length (stream cap))) in E by lia.
    rewrite Z.div_1_r in E. lia.
Qed.

Lemma sampled_frame_count_witness :
  sample_frames (Yolo.detect id silent_yolo Yolo.ALLOWED_CLASSES (Fin (2 # 5)) 960)
    sample_cap (Fin 10)
  = OK (Yolo.a_video_fps sample_yolo_art, Yolo.a_frames sample_yolo_art) /\
  exists stride,
    Z.of_nat (length (Yolo.a_frames sample_yolo_art)) = (5 + stride - 1) / stride.
Proof.
  assert (E : sample_frames
                (Yolo.detect id silent_yolo Yolo.ALLOWED_CLASSES (Fin (2 # 5)) 960)
                sample_cap (Fin 10)
              = OK (Yolo.a_video_fps sample_yolo_art, Yolo.a_frames sample_yolo_art))
    by (vm_compute; reflexivity).
  split; [exact E|].
  destruct (sampled_frame_count _ _ _ _ _ _ E) as (stride & _ & Hc & _).
  exists stride. exact Hc.
Defined.

(** The frame indices of a completed pass are strictly increasing, and an
    index occurs among them exactly when it is a multiple of the stride
    within the stream. *)
Theorem frame_indices_ascending :
  forall (Frame : Type) (detect : Frame -> result (list Box))
         (cap : VideoCapture Frame) sample_fps video_fps frames,
    sample_frames detect cap sample_fps = OK (video_fps, frames) ->
    exists stride,
      stride_of video_fps sample_fps = OK stride /\
      StronglySorted Z.lt (frame_index <$> frames) /\
      forall i, i ∈ (frame_index <$> frames)
                <-> 0 <= i < Z.of_nat (length (stream cap)) /\ i mod stride = 0.
Proof.
  intros Frame detect cap sample_fps video_fps frames H.
  apply sample_frames_records in H as (stride & Hs & H1 & Hi & _).
  exists stride. split; [exact Hs|]. rewrite Hi. split.
  - apply selected_sorted.
  - intros i. apply elem_of_selected.
Qed.

Lemma frame_indices_ascending_witness :
  sample_frames (Yolo.detect id silent_yolo Yolo.ALLOWED_CLASSES (Fin (2 # 5)) 960)
    sample_cap (Fin 10)
  = OK (Yolo.a_video_fps sample_yolo_art, Yolo.a_frames sample_yolo_art) /\
  StronglySorted Z.lt (frame_index <$> Yolo.a_frames sample_yolo_art).
Proof.
  assert (E : sample_frames
                (Yolo.detect id silent_yolo Yolo.ALLOWED_CLASSES (Fin (2 # 5)) 960)
                sample_cap (Fin 10)
              = OK (Yolo.a_video_fps sample_yolo_art, Yolo.a_frames sample_yolo_art))
    by (vm_compute; reflexivity).
  split; [exact E|].
  destruct (frame_indices_ascending _ _ _ _ _ _ E) as (stride & _ & Hs & _).
  exact Hs.
Defined.

(* ===================================================================== *)
(** ** Further properties of the labels                                   *)
(* ===================================================================== *)

Lemma string_app_assoc (a b c : string) :
  ((a +:+ b) +:+ c)%string = (a +:+ (b +:+ c))%string.
Proof.
  induction a as [|x a IH]; [reflexivity|].
  change (String x ((a +:+ b) +:+ c) = String x (a +:+ (b +:+ c)))%string.
  f_equal. exact IH.
Qed.

Lemma string_app_length (a b : string) :
  String.length (a +:+ b) = (String.length a + String.length b)%nat.
Proof.
  induction a as [|x a IH]; [reflexivity|].
  change (S (String.length (a +:+ b))
          = S (String.length a + String.length b)%nat).
  f_equal. exact IH.
Qed.

(** A decimal numeral does not end in a letter: nothing that ends in the
    digits of a number is the word "person". *)
Lemma pretty_N_go_not_person (x : N) (s : string) :
  (forall t, (t +:+ s)%string ≠ "person"%string) ->
  forall t, (t +:+ pretty_N_go x s)%string ≠ "person"%string.
Proof.
  revert s. induction (N.lt_wf_0 x) as [x _ IH]; intros s Hs t.
  assert (x = 0 \/ 0 < x)%N as [->|Hx] by lia.
  - rewrite pretty_N_go_0. apply Hs.
  - rewrite pretty_N_go_step by exact Hx. apply IH.
    + apply N.div_lt; [exact Hx|reflexivity].
    + intros t'. 
      replace (t' +:+ String (pretty_N_char (x `mod` 10)) s)%string
        with ((t' +:+ String (pretty_N_char (x `mod` 10)) "") +:+ s)%string.
      * apply Hs.
      * rewrite string_app_assoc. reflexivity.
Qed.

Lemma digit_not_person (c : N) (t : string) :
  (t +:+ String (pretty_N_char c) "")%string ≠ "person"%string.
Proof.
  intros H.
  assert (L : String.length (t +:+ String (pretty_N_char c) "") = 6%nat)
    by (rewrite H; reflexivity).
  rewrite string_app_length in L. cbn [String.length] in L.
  destruct t as [|c1 t]; [cbn in L; lia|].
  destruct t as [|c2 t]; [cbn in L; lia|].
  destruct t as [|c3 t]; [cbn in L; lia|].
  destruct t as [|c4 t]; [cbn in L; lia|].
  destruct t as [|c5 t]; [cbn in L; lia|].
  destruct t as [|c6 t]; [|cbn in L; lia].
  change (String c1 (String c2 (String c3 (String c4 (String c5
            (String (pretty_N_char c) ""))))) = "person"%string) in H.
  injection H as _ _ _ _ _ H.
  unfold pretty_N_char in H. repeat case_match; discriminate.
Qed.

Lemma pretty_Z_not_person (z : Z) : pretty z ≠ "person"%string.
Proof.
  assert (P : forall p : positive, pretty p ≠ "person"%string).
  { intros p. unfold pretty, pretty_positive, pretty, pretty_N.
    destruct (decide (N.pos p = 0%N)) as [E|_]; [discriminate|].
    rewrite pretty_N_go_step by lia.
    apply (pretty_N_go_not_person _ _ (digit_not_person _) ""%string). }
  destruct z as [|p|p]; unfold pretty, pretty_Z.
  - discriminate.
  - apply P.
  - intros H. inversion H.
Qed.

(** What the closed-vocabulary body keeps under the allow-list of the
    script was named "person" by a dict. *)
Lemma Yolo_kept_person names w h b box :
  Yolo.normalize Yolo.ALLOWED_CLASSES names w h b = OK (Some box) ->
  exists d cls_id,
    names = Yolo.NamesDict d /\ Yolo.cls_id_of b = OK cls_id /\
    d !! cls_id = Some "person"%string /\ label box = "person"%string.
Proof.
  intros H. apply Yolo_normalize_OK in H
    as (x1 & y1 & x2 & y2 & rest & cls_id & cs & _ & Hc & _ & Hal & Hl & _).
  destruct Hal as [Hal|Hal]; [destruct (ALLOWED_CLASSES_nonempty Hal)|].
  apply elem_of_singleton in Hal.
  destruct names as [d|]; unfold Yolo.label_name in Hal.
  - destruct (d !! cls_id) as [name|] eqn:E; simpl in Hal.
    + subst name. exists d, cls_id. rewrite Hl. unfold Yolo.label_name.
      rewrite E. auto.
    + inversion Hal.
  - destruct (pretty_Z_not_person cls_id Hal).
Qed.

(** The label of an emitted box is the name the result's dict has for the
    detection's class id (-1 for a detection without class tensor),
    "class-<id>" when the dict does not have the id, and the id's decimal
    numeral when the names are not a dict.  Under the script's allow-list
    only the first of the three is ever emitted: the closed-vocabulary pass
    keeps a detection exactly when the names are a dict that maps its class
    id to "person", and a result whose names are not a dict gives a frame
    without boxes. *)
Theorem label_resolution :
  (forall allowed names w h b box,
      Yolo.normalize allowed names w h b = OK (Some box) ->
      exists cls_id,
        Yolo.cls_id_of b = OK cls_id /\
        (Yolo.cls b = None -> cls_id = -1) /\
        match names with
        | Yolo.NamesDict d =>
            match d !! cls_id with
            | Some name => label box = name
            | None => label box = ("class-" +:+ pretty cls_id)%string
            end
        | Yolo.NamesOther => label box = pretty cls_id
        end)
  /\
  (forall names w h b box,
      Yolo.normalize Yolo.ALLOWED_CLASSES names w h b = OK (Some box) ->
      exists d cls_id,
        names = Yolo.NamesDict d /\ Yolo.cls_id_of b = OK cls_id /\
        d !! cls_id = Some "person"%string /\ label box = "person"%string)
  /\
  (forall d w h b cls_id o,
      Yolo.normalize Yolo.ALLOWED_CLASSES (Yolo.NamesDict d) w h b = OK o ->
      Yolo.cls_id_of b = OK cls_id -> d !! cls_id = Some "person"%string ->
      exists box, o = Some box)
  /\
  (forall w h r rs out,
      Yolo.names r = Yolo.NamesOther ->
      Yolo.frame_boxes Yolo.ALLOWED_CLASSES w h (r :: rs) = OK out ->
      out = []).
Proof.
  split; [|split; [|split]].
  - intros allowed names w h b box H. apply Yolo_normalize_OK in H
      as (x1 & y1 & x2 & y2 & rest & cls_id & cs & _ & Hc & _ & _ & Hl & _).
    exists cls_id. split; [exact Hc|]. split.
    + intros Hn. unfold Yolo.cls_id_of in Hc. rewrite Hn in Hc.
      inversion Hc. reflexivity.
    + rewrite Hl. unfold Yolo.label_name. destruct names as [d|]; [|reflexivity].
      destruct (d !! cls_id); reflexivity.
  - apply Yolo_kept_person.
  - intros d w h b cls_id o H Hc Hd. destruct o as [box|]; [eauto|].
    apply Yolo_normalize_None in H as (_ & c & Hc' & Hnot).
    rewrite Hc in Hc'. inversion Hc'; subst c. exfalso. apply Hnot.
    unfold Yolo.label_name. rewrite Hd. apply elem_of_singleton. reflexivity.
  - intros w h r rs out Hn H. destruct out as [|box out]; [reflexivity|].
    destruct (Yolo_frame_boxes_elem _ _ _ _ _ box H ltac:(left))
      as (r' & rs' & bs & b & Hr & _ & _ & Hb).
    inversion Hr; subst r' rs'. rewrite Hn in Hb.
    apply Yolo_kept_person in Hb as (d & _ & Hd & _). discriminate Hd.
Qed.

Lemma label_resolution_witness :
  Yolo.normalize Yolo.ALLOWED_CLASSES sample_names 640 480 sample_whole_in
    = OK (Some sample_whole_out) /\
  exists d cls_id,
    sample_names = Yolo.NamesDict d /\
    Yolo.cls_id_of sample_whole_in = OK cls_id /\
    d !! cls_id = Some "person"%string /\
    label sample_whole_out = "person"%string.
Proof.
  assert (E : Yolo.normalize Yolo.ALLOWED_CLASSES sample_names 640 480
                sample_whole_in = OK (Some sample_whole_out))
    by (vm_compute; reflexivity).
  split; [exact E|].
  exact (proj1 (proj2 label_resolution) _ _ _ _ _ E).
Defined.

Lemma py_index_OK {A} (l : list A) (i : Z) (x : A) :
  py_index l i = OK x ->
  let n := Z.of_nat (length l) in
  - n <= i < n /\ l !! Z.to_nat (if i <? 0 then i + n else i) = Some x.
Proof.
  unfold py_index. intros H. cbv zeta.
  destruct ((0 <=? _) && (_ <? _)) eqn:B; [|discriminate].
  apply andb_true_iff in B as [B1 B2].
  apply Z.leb_le in B1. apply Z.ltb_lt in B2.
  destruct (l !! _) as [y|] eqn:L; [|discriminate]. inversion H; subst.
  split; [|reflexivity]. destruct (i <? 0) eqn:N;
    [apply Z.ltb_lt in N|apply Z.ltb_ge in N]; lia.
Qed.

(** Indexing the prompts the way Python does: an index from [-n] to [n-1]
    selects a prompt, negative ones counting from the end, and any other
    index raises [IndexError]. *)
Theorem py_index_spec {A} (l : list A) (i : Z) :
  let n := Z.of_nat (length l) in
  (0 <= i < n -> py_index l i = match l !! Z.to_nat i with
                                | Some x => OK x
                                | None => Raise IndexError
                                end
                 /\ is_ok (py_index l i) = true)
  /\
  (- n <= i < 0 -> py_index l i = match l !! Z.to_nat (i + n) with
                                  | Some x => OK x
                                  | None => Raise IndexError
                                  end
                   /\ is_ok (py_index l i) = true)
  /\
  (i < - n \/ n <= i -> py_index l i = Raise IndexError).
Proof.
  cbv zeta. unfold py_index. split; [|split].
  - intros H. destruct (i <? 0) eqn:N; [apply Z.ltb_lt in N; lia|].
    replace ((0 <=? i) && (i <? Z.of_nat (length l))) with true
      by (symmetry; apply andb_true_iff; split;
          [apply Z.leb_le|apply Z.ltb_lt]; lia).
    destruct (lookup_lt_is_Some_2 l (Z.to_nat i) ltac:(lia)) as [x ->].
    split; reflexivity.
  - intros H. destruct (i <? 0) eqn:N; [|apply Z.ltb_ge in N; lia].
    replace ((0 <=? i + Z.of_nat (length l))
             && (i + Z.of_nat (length l) <? Z.of_nat (length l))) with true
      by (symmetry; apply andb_true_iff; split;
          [apply Z.leb_le|apply Z.ltb_lt]; lia).
    destruct (lookup_lt_is_Some_2 l (Z.to_nat (i + Z.of_nat (length l)))
                ltac:(lia)) as [x ->].
    split; reflexivity.
  - intros H. destruct (i <? 0) eqn:N;
      [apply Z.ltb_lt in N|apply Z.ltb_ge in N].
    + replace ((0 <=? i + Z.of_nat (length l))
               && (i + Z.of_nat (length l) <? Z.of_nat (length l))) with false;
        [reflexivity|].
      symmetry. apply andb_false_iff. left. apply Z.leb_gt. lia.
    + replace ((0 <=? i) && (i <? Z.of_nat (length l))) with false;
        [reflexivity|].
      symmetry. apply andb_false_iff. right. apply Z.ltb_ge. lia.
Qed.

Lemma py_index_spec_witness :
  (0 <= 1 < Z.of_nat (length OpenVocab.default_prompts) /\
   py_index OpenVocab.default_prompts 1 = OK "sword"%string)
  /\
  (- Z.of_nat (length OpenVocab.default_prompts) <= -1 < 0 /\
   py_index OpenVocab.default_prompts (-1) = OK "yellow outfit"%string)
  /\
  ((6 < - Z.of_nat (length OpenVocab.default_prompts)
    \/ Z.of_nat (length OpenVocab.default_prompts) <= 6) /\
   py_index OpenVocab.default_prompts 6 = Raise IndexError).
Proof.
  split; [|split].
  - assert (H : 0 <= 1 < Z.of_nat (length OpenVocab.default_prompts))
      by (simpl; lia).
    split; [exact H|].
    exact (proj1 (proj1 (py_index_spec OpenVocab.default_prompts 1) H)).
  - assert (H : - Z.of_nat (length OpenVocab.default_prompts) <= -1 < 0)
      by (simpl; lia).
    split; [exact H|].
    exact (proj1 (proj1 (proj2 (py_index_spec OpenVocab.default_prompts (-1))) H)).
  - assert (H : 6 < - Z.of_nat (length OpenVocab.default_prompts)
                \/ Z.of_nat (length OpenVocab.default_prompts) <= 6)
      by (right; simpl; lia).
    split; [exact H|].
    exact (proj2 (proj2 (py_index_spec OpenVocab.default_prompts 6)) H).
Defined.

(** Every label the open-vocabulary pass emits is one of the prompts it was
    run with. *)
Theorem open_vocab_label_is_a_prompt :
  forall prompts w h results out box,
    OpenVocab.frame_boxes prompts w h results = OK out ->
    box ∈ out -> label box ∈ prompts.
Proof.
  intros prompts w h results out box H Hin.
  apply OpenVocab_frame_boxes_OK in H.
  apply list_elem_of_lookup in Hin as [k Hk].
  destruct (Forall2_lookup_r _ _ _ _ _ H Hk) as ([[row score] idx] & _ & Hn).
  apply OpenVocab_normalize_OK in Hn
    as (x1 & y1 & x2 & y2 & c3 & c4 & _ & Hl & _).
  apply py_index_OK in Hl as [_ Hl].
  eapply list_elem_of_lookup_2. exact Hl.
Qed.

Lemma open_vocab_label_is_a_prompt_witness :
  OpenVocab.frame_boxes OpenVocab.default_prompts 640 480
    (OpenVocab.mkResults [sample_whole_row] [Fin (1 # 2)] [1])
  = OK [sample_whole_ov_out] /\
  label sample_whole_ov_out ∈ OpenVocab.default_prompts.
Proof.
  assert (E : OpenVocab.frame_boxes OpenVocab.default_prompts 640 480
                (OpenVocab.mkResults [sample_whole_row] [Fin (1 # 2)] [1])
              = OK [sample_whole_ov_out]) by (vm_compute; reflexivity).
  split; [exact E|].
  refine (open_vocab_label_is_a_prompt _ _ _ _ _ _ E _). left.
Defined.

(** [prompts or [...]]: no prompts and an empty list of prompts both give
    the six default prompts, anything else is used as given; the prompts a
    run works with, and records in its document, are never empty. *)
Theorem prompts_default :
  OpenVocab.prompts_or_default None = OpenVocab.default_prompts /\
  OpenVocab.prompts_or_default (Some []) = OpenVocab.default_prompts /\
  (forall ps, ps ≠ [] -> OpenVocab.prompts_or_default (Some ps) = ps) /\
  (forall o, OpenVocab.prompts_or_default o ≠ []) /\
  (forall (Frame : Type) (shape : Frame -> Z * Z) cuda predict
          (cap : VideoCapture Frame) sample_fps threshold model_id prompts art,
      OpenVocab.assemble shape cuda predict cap sample_fps threshold model_id
        prompts = OK art ->
      OpenVocab.a_prompts art = OpenVocab.prompts_or_default prompts /\
      OpenVocab.a_prompts art ≠ []).
Proof.
  assert (N : forall o, OpenVocab.prompts_or_default o ≠ []).
  { intros [[|p ps]|]; discriminate. }
  split; [reflexivity|]. split; [reflexivity|]. split; [|split].
  - intros [|p ps] H; [contradiction|reflexivity].
  - exact N.
  - intros Frame shape cuda predict cap sample_fps threshold model_id prompts
      art H.
    apply OpenVocab_assemble_OK in H as [_ ->]. simpl. split; [reflexivity|apply N].
Qed.

Lemma prompts_default_witness :
  (["katana"]%string ≠ [] /\
   OpenVocab.prompts_or_default (Some ["katana"]%string) = ["katana"]%string)
  /\
  (OpenVocab.assemble id false silent_ov sample_cap (Fin 10) (Fin (1 # 5))
     "google/owlvit-base-patch32" None = OK sample_ov_art /\
   OpenVocab.a_prompts sample_ov_art = OpenVocab.default_prompts).
Proof.
  split.
  - assert (H : ["katana"]%string ≠ []) by discriminate.
    split; [exact H|].
    exact (proj1 (proj2 (proj2 prompts_default)) _ H).
  - assert (E : OpenVocab.assemble id false silent_ov sample_cap (Fin 10)
                  (Fin (1 # 5)) "google/owlvit-base-patch32" None
                = OK sample_ov_art) by (vm_compute; reflexivity).
    split; [exact E|].
    exact (proj1 (proj2 (proj2 (proj2 (proj2 prompts_default)))
                    _ _ _ _ _ _ _ _ _ _ E)).
Defined.

(** A label index outside the prompt list is not clamped or skipped: the
    frame's loop raises. *)
Theorem open_vocab_label_out_of_range :
  forall prompts w h ds acc row score label_idx,
    (row, score, label_idx) ∈ ds ->
    label_idx < - Z.of_nat (length prompts)
    \/ Z.of_nat (length prompts) <= label_idx ->
    is_ok (OpenVocab.boxes_loop prompts w h ds acc) = false.
Proof.
  intros prompts w h ds acc row score label_idx Hin Hr. revert acc.
  induction ds as [|d ds IH]; intros acc; [inversion Hin|].
  simpl. destruct (OpenVocab.normalize prompts w h d) as [x|e] eqn:En;
    [|reflexivity].
  rewrite ret_bind. apply elem_of_cons in Hin as [<-|Hin]; [|apply IH; exact Hin].
  unfold OpenVocab.normalize in En.
  rewrite (proj2 (proj2 (py_index_spec prompts label_idx)) Hr) in En.
  discriminate.
Qed.

Lemma open_vocab_label_out_of_range_witness :
  (sample_whole_row, Fin (1 # 2), 6) ∈ [(sample_whole_row, Fin (1 # 2), 6)] /\
  (6 < - Z.of_nat (length OpenVocab.default_prompts)
   \/ Z.of_nat (length OpenVocab.default_prompts) <= 6) /\
  is_ok (OpenVocab.boxes_loop OpenVocab.default_prompts 640 480
           [(sample_whole_row, Fin (1 # 2), 6)] []) = false.
Proof.
  assert (Hin : (sample_whole_row, Fin (1 # 2), 6)
                ∈ [(sample_whole_row, Fin (1 # 2), 6)]) by left.
  assert (Hr : 6 < - Z.of_nat (length OpenVocab.default_prompts)
               \/ Z.of_nat (length OpenVocab.default_prompts) <= 6)
    by (right; simpl; lia).
  split; [exact Hin|]. split; [exact Hr|].
  exact (open_vocab_label_out_of_range _ 640 480 _ [] _ _ _ Hin Hr).
Defined.

(* ===================================================================== *)
(** ** Further properties of the box loops                                *)
(* ===================================================================== *)

(** Of the list [model.predict] returns only the first element is read. *)
Theorem yolo_first_result_only :
  forall allowed w h r rs,
    Yolo.frame_boxes allowed w h (r :: rs) = Yolo.frame_boxes allowed w h [r].
Proof. reflexivity. Qed.

(** The boxes of a frame keep the detector's order: they are the kept
    detections, one after the other, so there are never more boxes than
    raw detections. *)
Theorem yolo_boxes_in_order :
  forall allowed names w h bs out,
    Yolo.boxes_loop allowed names w h bs [] = OK out ->
    (exists os,
        Forall2 (fun b o => Yolo.normalize allowed names w h b = OK o) bs os /\
        out = omap id os) /\
    (length out <= length bs)%nat.
Proof.
  intros allowed names w h bs out H.
  apply Yolo_boxes_loop_OK in H as (os & HF & ->). simpl. split.
  - exists os. split; [exact HF|reflexivity].
  - rewrite (Forall2_length _ _ _ HF). clear HF.
    induction os as [|[x|] os IH]; cbn in *; lia.
Qed.

Lemma yolo_boxes_in_order_witness :
  Yolo.boxes_loop Yolo.ALLOWED_CLASSES sample_names 640 480
    [sample_box 50 60 200 220 2 (3 # 4); sample_whole_in] []
  = OK [sample_whole_out] /\
  (length [sample_whole_out] <= 2)%nat.
Proof.
  assert (E : Yolo.boxes_loop Yolo.ALLOWED_CLASSES sample_names 640 480
                [sample_box 50 60 200 220 2 (3 # 4); sample_whole_in] []
              = OK [sample_whole_out]) by (vm_compute; reflexivity).
  split; [exact E|].
  exact (proj2 (yolo_boxes_in_order _ _ _ _ _ _ E)).
Defined.

Lemma zip3_length {A B C} (a : list A) (b : list B) (c : list C) :
  length (OpenVocab.zip3 a b c) = Nat.min (Nat.min (length a) (length b)) (length c).
Proof.
  revert b c. induction a as [|x a IH]; intros [|y b] [|z c]; simpl;
    try reflexivity; try lia.
  rewrite IH. lia.
Qed.

(** The open-vocabulary pass emits exactly one box per zipped detection,
    in order: as many as the shortest of the boxes, scores and labels it
    was given, the surplus being ignored. *)
Theorem open_vocab_one_box_per_detection :
  forall prompts w h results out,
    OpenVocab.frame_boxes prompts w h results = OK out ->
    length out
    = Nat.min (Nat.min (length (OpenVocab.r_boxes results))
                        (length (OpenVocab.r_scores results)))
        (length (OpenVocab.r_labels results)) /\
    Forall2 (fun d box => OpenVocab.normalize prompts w h d = OK box)
      (OpenVocab.zip3 (OpenVocab.r_boxes results) (OpenVocab.r_scores results)
         (OpenVocab.r_labels results)) out.
Proof.
  intros prompts w h results out H.
  apply OpenVocab_frame_boxes_OK in H. split; [|exact H].
  rewrite <- (Forall2_length _ _ _ H). apply zip3_length.
Qed.

Lemma open_vocab_one_box_per_detection_witness :
  OpenVocab.frame_boxes OpenVocab.default_prompts 640 480
    (OpenVocab.mkResults [sample_whole_row; sample_whole_row] [Fin (1 # 2)] [1; 0])
  = OK [sample_whole_ov_out] /\
  length [sample_whole_ov_out] = Nat.min (Nat.min 2 1) 2.
Proof.
  assert (E : OpenVocab.frame_boxes OpenVocab.default_prompts 640 480
                (OpenVocab.mkResults [sample_whole_row; sample_whole_row]
                   [Fin (1 # 2)] [1; 0])
              = OK [sample_whole_ov_out]) by (vm_compute; reflexivity).
  split; [exact E|].
  exact (proj1 (open_vocab_one_box_per_detection _ _ _ _ _ E)).
Defined.

(* ===================================================================== *)
(** ** Ranges                                                             *)
(* ===================================================================== *)

Lemma floor_log2_le (n M : Z) (d : positive) :
  0 < n -> 0 < M -> n <= M * Zpos d -> floor_log2 n d <= Z.log2 M + 1.
Proof.
  intros Hn HM Hb. unfold floor_log2.
  assert (Z.log2 n <= Z.log2 (M * Z.pos d)) by (apply Z.log2_le_mono; lia).
  assert (Z.log2 (M * Z.pos d) <= Z.log2 M + Z.log2 (Z.pos d) + 1)
    by (apply Z.log2_mul_above; lia).
  destruct (if 0 <=? _ then _ else _); lia.
Qed.

(** Rounding does not leave an interval [0, M] with [M] a small integer. *)
Lemma RN64_le_int (q : Q) (M : Z) :
  (0 <= q)%Q -> (q <= inject_Z M)%Q -> 1 <= M < 2 ^ 51 ->
  exists r, RN64 q = Fin r /\ (0 <= r)%Q /\ (r <= inject_Z M)%Q.
Proof.
  destruct q as [n d]. intros H0 H1 HM.
  unfold Qle in H0, H1. simpl in H0, H1.
  unfold RN64. simpl. destruct n as [|p|p]; try lia.
  { exists 0%Q. split; [reflexivity|]. split; [apply Qle_refl|].
    unfold Qle. simpl. lia. }
  unfold round_pos.
  set (s := ulp_exp (Z.pos p) d).
  assert (Hs : s < 0).
  { unfold s, ulp_exp, emin_normal, prec.
    pose proof (floor_log2_le (Z.pos p) M d ltac:(lia) ltac:(lia) ltac:(lia)).
    assert (Z.log2 M < 51) by (apply Z.log2_lt_pow2; lia). lia. }
  destruct (0 <=? s) eqn:E; [lia|].
  change (2 ^ emax <=? 0) with false. cbv iota.
  unfold significand. rewrite E.
  assert (P : 0 < 2 ^ (- s)) by (apply Z.pow_pos_nonneg; lia).
  set (m := rne_div (Z.pos p * 2 ^ (- s)) (Z.pos d)).
  assert (Hm0 : 0 <= m) by (apply rne_div_ge; nia).
  assert (Hm1 : m <= M * 2 ^ (- s)) by (apply rne_div_le; nia).
  eexists. split; [reflexivity|].
  pose proof (scale2_neg_value m s Hs) as V.
  split; setoid_rewrite V.
  - apply Qle_shift_div_l.
    + change 0%Q with (inject_Z 0). rewrite <- Zlt_Qlt. lia.
    + rewrite Qmult_0_l. change 0%Q with (inject_Z 0). rewrite <- Zle_Qle. lia.
  - apply Qle_shift_div_r.
    + change 0%Q with (inject_Z 0). rewrite <- Zlt_Qlt. lia.
    + rewrite <- inject_Z_mult, <- Zle_Qle. lia.
Qed.

(** [round(x, nd)] keeps a float inside [0, M]. *)
Lemma py_round_nd_within (q : Q) (M nd : Z) :
  (0 <= q)%Q -> (q <= inject_Z M)%Q -> 1 <= M < 2 ^ 51 -> 0 <= nd ->
  float_within 0 M (py_round_nd (Fin q) nd).
Proof.
  intros H0 H1 HM Hnd. unfold py_round_nd, float_within.
  assert (P : 0 < 10 ^ nd) by (apply Z.pow_pos_nonneg; lia).
  assert (P' : (0 < inject_Z (10 ^ nd))%Q).
  { change 0%Q with (inject_Z 0). rewrite <- Zlt_Qlt. exact P. }
  set (K := Qrne (q * inject_Z (10 ^ nd))).
  assert (K0 : 0 <= K).
  { apply Qrne_ge. change (inject_Z 0) with 0%Q.
    apply Qmult_le_0_compat; [exact H0|apply Qlt_le_weak; exact P']. }
  assert (K1 : K <= M * 10 ^ nd).
  { apply Qrne_le. rewrite inject_Z_mult.
    apply Qmult_le_compat_r; [exact H1|apply Qlt_le_weak; exact P']. }
  destruct (RN64_le_int (inject_Z K / inject_Z (10 ^ nd)) M) as (r & Hr & R0 & R1).
  - apply Qle_shift_div_l; [exact P'|]. rewrite Qmult_0_l.
    change 0%Q with (inject_Z 0). rewrite <- Zle_Qle. exact K0.
  - apply Qle_shift_div_r; [exact P'|].
    rewrite <- inject_Z_mult, <- Zle_Qle. exact K1.
  - exact HM.
  - exists r. split; [exact Hr|]. split; [exact R0|exact R1].
Qed.

(** The percentage of a coordinate inside the frame lies in [0, 100]. *)
Lemma pct_within (c : pynum) (v : Q) (dim : Z) :
  exact c = Fin v -> (0 <= v)%Q -> (v <= inject_Z (dim - 1))%Q ->
  1 <= dim < 2 ^ 44 ->
  exists p, pct c dim = OK p /\ float_within 0 100 p.
Proof.
  intros Hc H0 H1 Hd.
  assert (Hdim : (0 < inject_Z dim)%Q).
  { change 0%Q with (inject_Z 0). rewrite <- Zlt_Qlt. lia. }
  assert (Q1 : forall m : Q, (0 <= m)%Q -> (m <= inject_Z (100 * dim))%Q ->
                 exists r, RN64 (m / inject_Z dim) = Fin r /\
                           (0 <= r)%Q /\ (r <= inject_Z 100)%Q).
  { intros m M0 M1. apply RN64_le_int; [| |lia].
    - apply Qle_shift_div_l; [exact Hdim|]. rewrite Qmult_0_l. exact M0.
    - apply Qle_shift_div_r; [exact Hdim|].
      rewrite <- inject_Z_mult. exact M1. }
  assert (Fin' : forall r, (0 <= r)%Q -> (r <= inject_Z 100)%Q ->
                   float_within 0 100 (py_round_nd (Fin r) 2)).
  { intros r R0 R1. apply py_round_nd_within; [exact R0|exact R1|lia|lia]. }
  unfold pct. destruct c as [z|x]; simpl in Hc.
  - inversion Hc; subst v. rewrite <- Zle_Qle in H1.
    change 0%Q with (inject_Z 0) in H0. rewrite <- Zle_Qle in H0.
    unfold num_mul, num_truediv. rewrite ret_bind.
    destruct (dim =? 0) eqn:E; [apply Z.eqb_eq in E; lia|].
    destruct (Q1 (inject_Z (100 * z))) as (r & Hr & R0 & R1).
    + change 0%Q with (inject_Z 0). rewrite <- Zle_Qle. lia.
    + rewrite <- Zle_Qle. lia.
    + rewrite Hr, ret_bind. eexists. split; [reflexivity|]. apply Fin'; assumption.
  - subst x. unfold num_mul, to_float.
    rewrite (float_of_int_exact 100) by lia. rewrite !ret_bind. unfold fmul.
    destruct (RN64_le_int (inject_Z 100 * v) (100 * dim))
      as (m & Hm & M0 & M1).
    + apply Qmult_le_0_compat; [|exact H0].
      change 0%Q with (inject_Z 0). rewrite <- Zle_Qle. lia.
    + rewrite inject_Z_mult.
      apply Qmult_le_l.
      * change 0%Q with (inject_Z 0). rewrite <- Zlt_Qlt. lia.
      * eapply Qle_trans; [exact H1|]. rewrite <- Zle_Qle. lia.
    + lia.
    + rewrite Hm. unfold num_truediv, to_float.
      rewrite float_of_int_exact by lia. rewrite !ret_bind.
      unfold fdiv. rewrite Qis_zero_false by exact Hdim.
      destruct (Q1 m M0 M1) as (r & Hr & R0 & R1).
      rewrite Hr, ret_bind. eexists. split; [reflexivity|]. apply Fin'; assumption.
Qed.

Lemma clamp_lo_range (lo : pynum) (q : Q) (n : Z) :
  exact lo = Fin 0 -> 0 <= n -> (q <= inject_Z n)%Q ->
  exists v, exact (py_max lo (PFloat (Fin q))) = Fin v /\
            (0 <= v)%Q /\ (v <= inject_Z n)%Q.
Proof.
  intros Hlo Hn Hq. rewrite exact_py_max, Hlo. simpl.
  destruct (Qltb 0 q) eqn:C.
  - exists q. apply Qltb_lt in C. split; [reflexivity|].
    split; [apply Qlt_le_weak; exact C|exact Hq].
  - exists 0%Q. split; [reflexivity|]. split; [apply Qle_refl|].
    change 0%Q with (inject_Z 0). rewrite <- Zle_Qle. exact Hn.
Qed.

Lemma clamp_hi_range (hi : pynum) (q : Q) (n : Z) :
  exact hi = Fin (inject_Z n) -> 0 <= n -> (0 <= q)%Q ->
  exists v, exact (py_min hi (PFloat (Fin q))) = Fin v /\
            (0 <= v)%Q /\ (v <= inject_Z n)%Q.
Proof.
  intros Hhi Hn Hq. rewrite exact_py_min, Hhi. simpl.
  destruct (Qltb q (inject_Z n)) eqn:C.
  - exists q. apply Qltb_lt in C. split; [reflexivity|].
    split; [exact Hq|apply Qlt_le_weak; exact C].
  - exists (inject_Z n). split; [reflexivity|]. split; [|apply Qle_refl].
    change 0%Q with (inject_Z 0). rewrite <- Zle_Qle. exact Hn.
Qed.

Lemma pct_within_OK (c : pynum) (v : Q) (dim : Z) (p : pyfloat) :
  exact c = Fin v -> (0 <= v)%Q -> (v <= inject_Z (dim - 1))%Q ->
  1 <= dim < 2 ^ 44 -> pct c dim = OK p -> float_within 0 100 p.
Proof.
  intros Hc H0 H1 Hd Hp.
  destruct (pct_within c v dim Hc H0 H1 Hd) as (p' & Hp' & Hw).
  rewrite Hp in Hp'. inversion Hp'; subst. exact Hw.
Qed.

(** The percentages of a box that reaches into the frame lie between 0 and
    100, on frames up to 2^44 pixels wide and high. *)
Theorem bbox_pct_within_0_100 :
  (forall allowed names w h b box row rest,
      1 <= w < 2 ^ 44 -> 1 <= h < 2 ^ 44 ->
      Yolo.xyxy b = row :: rest -> meets_frame w h row ->
      Yolo.normalize allowed names w h b = OK (Some box) ->
      Forall (float_within 0 100) (bbox_pct box))
  /\
  (forall prompts w h row score label_idx box,
      1 <= w < 2 ^ 44 -> 1 <= h < 2 ^ 44 ->
      meets_frame w h row ->
      OpenVocab.normalize prompts w h (row, score, label_idx) = OK box ->
      Forall (float_within 0 100) (bbox_pct box)).
Proof.
  split.
  - intros allowed names w h b box row rest Hw Hh Hrow Hm H.
    apply meets_frame_inv in Hm
      as (q1 & r1 & q2 & r2 & -> & Hx & Hxw & Hx0 & Hy & Hyh & Hy0).
    apply Yolo_normalize_OK in H
      as (x1 & y1 & x2 & y2 & rest' & cls_id & cs & Hr & _ & _ & _ & _ & _ & _ & Hpc).
    rewrite Hrow in Hr. inversion Hr; subst; clear Hr.
    apply pct_list_OK in Hpc as (p1 & p2 & p3 & p4 & -> & F1 & F2 & F3 & F4).
    destruct (clamp_lo_range (PInt 0) q1 (w - 1) eq_refl ltac:(lia) Hxw)
      as (v1 & E1 & A1 & B1).
    destruct (clamp_lo_range (PInt 0) r1 (h - 1) eq_refl ltac:(lia) Hyh)
      as (v2 & E2 & A2 & B2).
    destruct (clamp_hi_range (PInt (w - 1)) q2 (w - 1) eq_refl ltac:(lia) Hx0)
      as (v3 & E3 & A3 & B3).
    destruct (clamp_hi_range (PInt (h - 1)) r2 (h - 1) eq_refl ltac:(lia) Hy0)
      as (v4 & E4 & A4 & B4).
    repeat constructor.
    + exact (pct_within_OK _ _ _ _ E1 A1 B1 Hw F1).
    + exact (pct_within_OK _ _ _ _ E2 A2 B2 Hh F2).
    + exact (pct_within_OK _ _ _ _ E3 A3 B3 Hw F3).
    + exact (pct_within_OK _ _ _ _ E4 A4 B4 Hh F4).
  - intros prompts w h row score label_idx box Hw Hh Hm H.
    apply meets_frame_inv in Hm
      as (q1 & r1 & q2 & r2 & -> & Hx & Hxw & Hx0 & Hy & Hyh & Hy0).
    apply OpenVocab_normalize_OK in H
      as (x1 & y1 & x2 & y2 & c3 & c4 & Hr & _ & _ & H3 & H4 & _ & Hpc).
    inversion Hr; subst; clear Hr.
    assert (2 ^ 44 < 2 ^ 53) by (apply Z.pow_lt_mono_r; lia).
    apply OpenVocab_clamp_hi_exact in H3; [|lia].
    apply OpenVocab_clamp_hi_exact in H4; [|lia]. subst c3 c4.
    apply pct_list_OK in Hpc as (p1 & p2 & p3 & p4 & -> & F1 & F2 & F3 & F4).
    destruct (clamp_lo_range (PFloat (Fin 0)) q1 (w - 1) eq_refl ltac:(lia) Hxw)
      as (v1 & E1 & A1 & B1).
    destruct (clamp_lo_range (PFloat (Fin 0)) r1 (h - 1) eq_refl ltac:(lia) Hyh)
      as (v2 & E2 & A2 & B2).
    destruct (clamp_hi_range (PFloat (Fin (inject_Z (w - 1)))) q2 (w - 1)
                eq_refl ltac:(lia) Hx0) as (v3 & E3 & A3 & B3).
    destruct (clamp_hi_range (PFloat (Fin (inject_Z (h - 1)))) r2 (h - 1)
                eq_refl ltac:(lia) Hy0) as (v4 & E4 & A4 & B4).
    repeat constructor.
    + exact (pct_within_OK _ _ _ _ E1 A1 B1 Hw F1).
    + exact (pct_within_OK _ _ _ _ E2 A2 B2 Hh F2).
    + exact (pct_within_OK _ _ _ _ E3 A3 B3 Hw F3).
    + exact (pct_within_OK _ _ _ _ E4 A4 B4 Hh F4).
Qed.

Lemma bbox_pct_within_0_100_witness :
  1 <= 640 < 2 ^ 44 /\ 1 <= 480 < 2 ^ 44 /\
  meets_frame 640 480 sample_whole_row /\
  Yolo.normalize Yolo.ALLOWED_CLASSES sample_names 640 480 sample_whole_in
    = OK (Some sample_whole_out) /\
  Forall (float_within 0 100) (bbox_pct sample_whole_out).
Proof.
  assert (Hw : 1 <= 640 < 2 ^ 44) by lia.
  assert (Hh : 1 <= 480 < 2 ^ 44) by lia.
  assert (Hm : meets_frame 640 480 sample_whole_row)
    by (vm_compute; intuition discriminate).
  assert (E : Yolo.normalize Yolo.ALLOWED_CLASSES sample_names 640 480
                sample_whole_in = OK (Some sample_whole_out))
    by (vm_compute; reflexivity).
  split; [exact Hw|]. split; [exact Hh|]. split; [exact Hm|]. split; [exact E|].
  exact (proj1 bbox_pct_within_0_100 _ _ _ _ sample_whole_in _ sample_whole_row []
           Hw Hh eq_refl Hm E).
Defined.

(** A confidence between 0 and 1 is still between 0 and 1 after rounding
    to three places. *)
Theorem confidence_within_0_1 :
  (forall allowed names w h b box c rest,
      Yolo.conf b = Some (Fin c :: rest) -> (0 <= c)%Q -> (c <= 1)%Q ->
      Yolo.normalize allowed names w h b = OK (Some box) ->
      exists r, confidence box = Some r /\ float_within 0 1 r)
  /\
  (forall prompts w h row c label_idx box,
      (0 <= c)%Q -> (c <= 1)%Q ->
      OpenVocab.normalize prompts w h (row, Fin c, label_idx) = OK box ->
      exists r, confidence box = Some r /\ float_within 0 1 r).
Proof.
  split.
  - intros allowed names w h b box c rest Hc H0 H1 H.
    apply Yolo_normalize_OK in H
      as (x1 & y1 & x2 & y2 & rest' & cls_id & cs & _ & _ & Hs & _ & _ & Hconf & _).
    unfold Yolo.conf_score_of in Hs. rewrite Hc in Hs. simpl in Hs.
    inversion Hs; subst cs. eexists. split; [exact Hconf|].
    apply py_round_nd_within; [exact H0|exact H1|lia|lia].
  - intros prompts w h row c label_idx box H0 H1 H.
    apply OpenVocab_normalize_OK in H
      as (x1 & y1 & x2 & y2 & c3 & c4 & _ & _ & Hconf & _).
    eexists. split; [exact Hconf|].
    apply py_round_nd_within; [exact H0|exact H1|lia|lia].
Qed.

Lemma confidence_within_0_1_witness :
  Yolo.conf sample_whole_in = Some [Fin (7 # 8)] /\
  (0 <= 7 # 8)%Q /\ (7 # 8 <= 1)%Q /\
  Yolo.normalize Yolo.ALLOWED_CLASSES sample_names 640 480 sample_whole_in
    = OK (Some sample_whole_out) /\
  exists r, confidence sample_whole_out = Some r /\ float_within 0 1 r.
Proof.
  assert (H0 : (0 <= 7 # 8)%Q) by (vm_compute; discriminate).
  assert (H1 : (7 # 8 <= 1)%Q) by (vm_compute; discriminate).
  assert (E : Yolo.normalize Yolo.ALLOWED_CLASSES sample_names 640 480
                sample_whole_in = OK (Some sample_whole_out))
    by (vm_compute; reflexivity).
  split; [reflexivity|]. split; [exact H0|]. split; [exact H1|]. split; [exact E|].
  exact (proj1 confidence_within_0_1 _ _ _ _ sample_whole_in _ _ [] eq_refl H0 H1 E).
Defined.

(* ===================================================================== *)
(** ** When normalising succeeds                                          *)
(* ===================================================================== *)

Lemma pct_float_total (x : pyfloat) (dim : Z) :
  1 <= dim < 2 ^ 53 -> exists p, pct (PFloat x) dim = OK p.
Proof.
  intros Hd. unfold pct, num_mul, to_float.
  rewrite (float_of_int_exact 100) by lia. rewrite !ret_bind.
  unfold num_truediv, to_float. rewrite float_of_int_exact by lia.
  rewrite !ret_bind.
  assert (Hz : Qis_zero (inject_Z dim) = false).
  { apply Qis_zero_false. change 0%Q with (inject_Z 0). rewrite <- Zlt_Qlt. lia. }
  unfold fdiv. rewrite Hz.
  destruct (fmul (Fin (inject_Z 100)) x); rewrite ret_bind; eauto.
Qed.

Lemma pct_int_total (z dim : Z) :
  0 <= z <= dim -> 1 <= dim -> exists p, pct (PInt z) dim = OK p.
Proof.
  intros Hz Hd. unfold pct, num_mul, num_truediv. rewrite ret_bind.
  destruct (dim =? 0) eqn:E; [apply Z.eqb_eq in E; lia|].
  destruct (RN64_le_int (inject_Z (100 * z) / inject_Z dim) 100)
    as (r & Hr & _).
  - apply Qle_shift_div_l.
    + change 0%Q with (inject_Z 0). rewrite <- Zlt_Qlt. lia.
    + rewrite Qmult_0_l. change 0%Q with (inject_Z 0). rewrite <- Zle_Qle. lia.
  - apply Qle_shift_div_r.
    + change 0%Q with (inject_Z 0). rewrite <- Zlt_Qlt. lia.
    + rewrite <- inject_Z_mult, <- Zle_Qle. lia.
  - lia.
  - rewrite Hr, ret_bind. eauto.
Qed.

Lemma Yolo_clamp_lo_cases (x : pyfloat) :
  x ≠ Inf false ->
  Yolo.clamp_lo x = PInt 0 \/ exists q, Yolo.clamp_lo x = PFloat (Fin q).
Proof.
  intros H. unfold Yolo.clamp_lo, py_max, num_gtb, num_ltb.
  destruct x as [q|[|]|]; simpl.
  - destruct (Qltb _ q); [right; exists q; reflexivity|left; reflexivity].
  - left. reflexivity.
  - contradiction.
  - left. reflexivity.
Qed.

Lemma Yolo_clamp_hi_cases (dim : Z) (x : pyfloat) :
  x ≠ Inf true ->
  Yolo.clamp_hi dim x = PInt (dim - 1)
  \/ exists q, Yolo.clamp_hi dim x = PFloat (Fin q).
Proof.
  intros H. unfold Yolo.clamp_hi, py_min, num_ltb.
  destruct x as [q|[|]|]; simpl.
  - destruct (Qltb q _);
      [right; exists q; reflexivity|left; reflexivity].
  - contradiction.
  - left. reflexivity.
  - left. reflexivity.
Qed.

Lemma Yolo_clamped_total (dim : Z) (c : pynum) :
  1 <= dim < 2 ^ 53 ->
  c = PInt 0 \/ c = PInt (dim - 1) \/ (exists q, c = PFloat (Fin q)) ->
  (exists p, py_int c = OK p) /\ (exists p, pct c dim = OK p).
Proof.
  intros Hd [->|[->|[q ->]]].
  - split; [eexists; reflexivity|]. apply pct_int_total; lia.
  - split; [eexists; reflexivity|]. apply pct_int_total; lia.
  - split; [eexists; reflexivity|]. apply pct_float_total; lia.
Qed.

Lemma Yolo_normalize_well_formed allowed names w h b :
  1 <= w < 2 ^ 53 -> 1 <= h < 2 ^ 53 -> yolo_well_formed b ->
  exists o, Yolo.normalize allowed names w h b = OK o.
Proof.
  intros Hw Hh
    ((row & rest & Hrow & (x1 & y1 & x2 & y2 & -> & N1 & N2 & N3 & N4))
     & Hcls & Hconf).
  unfold Yolo.normalize. rewrite Hrow. cbn [index0]. rewrite ret_bind.
  change (unpack4 [x1; y1; x2; y2]) with (OK (x1, y1, x2, y2)).
  rewrite ret_bind. cbv beta iota.
  assert (Ec : exists c, Yolo.cls_id_of b = OK c).
  { unfold Yolo.cls_id_of.
    destruct Hcls as [->|(q & r & ->)]; [eauto|]. simpl. eauto. }
  destruct Ec as [c ->]. rewrite ret_bind.
  assert (Es : exists s, Yolo.conf_score_of b = OK s).
  { unfold Yolo.conf_score_of.
    destruct Hconf as [->|(v & r & ->)]; [eauto|]. simpl. eauto. }
  destruct Es as [s ->]. rewrite ret_bind.
  destruct (bool_decide _ && _); [eauto|].
  destruct (Yolo_clamped_total w (Yolo.clamp_lo x1) Hw) as [[a1 A1] [p1 P1]].
  { destruct (Yolo_clamp_lo_cases x1 N1) as [->|[q ->]]; eauto. }
  destruct (Yolo_clamped_total h (Yolo.clamp_lo y1) Hh) as [[a2 A2] [p2 P2]].
  { destruct (Yolo_clamp_lo_cases y1 N2) as [->|[q ->]]; eauto. }
  destruct (Yolo_clamped_total w (Yolo.clamp_hi w x2) Hw) as [[a3 A3] [p3 P3]].
  { destruct (Yolo_clamp_hi_cases w x2 N3) as [->|[q ->]]; eauto. }
  destruct (Yolo_clamped_total h (Yolo.clamp_hi h y2) Hh) as [[a4 A4] [p4 P4]].
  { destruct (Yolo_clamp_hi_cases h y2 N4) as [->|[q ->]]; eauto. }
  unfold px_list, pct_list.
  rewrite A1, A2, A3, A4, P1, P2, P3, P4. rewrite !ret_bind. eauto.
Qed.

(** Normalising a well-formed YOLO detection cannot raise on a frame of
    positive size: it is dropped by the allow-list or emitted.  Corners
    that are NaN are clamped like any other: four NaN corners give the
    whole frame. *)
Theorem yolo_normalize_total :
  (forall allowed names w h b,
      1 <= w < 2 ^ 53 -> 1 <= h < 2 ^ 53 -> yolo_well_formed b ->
      exists o, Yolo.normalize allowed names w h b = OK o)
  /\
  (forall allowed names w h b box rest,
      Yolo.xyxy b = [NaN; NaN; NaN; NaN] :: rest ->
      Yolo.normalize allowed names w h b = OK (Some box) ->
      bbox_px box = [0; 0; w - 1; h - 1]).
Proof.
  split.
  - intros allowed names w h b Hw Hh Hb.
    apply Yolo_normalize_well_formed; assumption.
  - intros allowed names w h b box rest Hrow H.
    apply Yolo_normalize_OK in H
      as (x1 & y1 & x2 & y2 & rest' & cls_id & cs & Hr & _ & _ & _ & _ & _ & Hpx & _).
    rewrite Hrow in Hr. inversion Hr; subst.
    unfold px_list in Hpx. simpl in Hpx. inversion Hpx. reflexivity.
Qed.

Lemma yolo_normalize_total_witness :
  1 <= 640 < 2 ^ 53 /\ 1 <= 480 < 2 ^ 53 /\ yolo_well_formed nan_box /\
  (exists o, Yolo.normalize Yolo.ALLOWED_CLASSES sample_names 640 480 nan_box
             = OK o).
Proof.
  assert (Hw : 1 <= 640 < 2 ^ 53) by lia.
  assert (Hh : 1 <= 480 < 2 ^ 53) by lia.
  assert (Hb : yolo_well_formed nan_box).
  { split; [|split].
    - exists [NaN; NaN; NaN; NaN], []. split; [reflexivity|].
      exists NaN, NaN, NaN, NaN. repeat split; discriminate.
    - right. exists 0%Q, []. reflexivity.
    - left. reflexivity. }
  split; [exact Hw|]. split; [exact Hh|]. split; [exact Hb|].
  exact (proj1 yolo_normalize_total Yolo.ALLOWED_CLASSES sample_names 640 480
           nan_box Hw Hh Hb).
Defined.

(* ===================================================================== *)
(** ** Completed runs                                                     *)
(* ===================================================================== *)

Lemma fps_or_default_truthy (x : pyfloat) : float_truthy (fps_or_default x) = true.
Proof.
  unfold fps_or_default. destruct (float_truthy x) eqn:E; [exact E|reflexivity].
Qed.

Lemma frame_time_total (j : Z) (video_fps : pyfloat) :
  - 2 ^ 53 < j < 2 ^ 53 -> float_truthy video_fps = true ->
  is_ok (frame_time j video_fps) = true.
Proof.
  intros Hj Ht. unfold frame_time, num_truediv, to_float.
  rewrite float_of_int_exact by exact Hj. rewrite !ret_bind.
  unfold fdiv. destruct video_fps as [b|n|]; simpl in Ht.
  - apply negb_true_iff in Ht. rewrite Ht. reflexivity.
  - reflexivity.
  - reflexivity.
Qed.

Lemma frame_time_0 (b : Q) (t : pyfloat) :
  frame_time 0 (Fin b) = OK t -> t = Fin 0.
Proof.
  unfold frame_time, num_truediv, to_float.
  rewrite (float_of_int_exact 0) by lia. rewrite !ret_bind. unfold fdiv.
  destruct (Qis_zero b); [discriminate|]. rewrite ret_bind.
  assert (E : RN64 (inject_Z 0 / b) = Fin 0).
  { unfold RN64. destruct b as [n d]. destruct n; reflexivity. }
  rewrite E. intros H. inversion H. reflexivity.
Qed.

Lemma sampled_elem {Frame} (stride i j : Z) (rest : list Frame) (f : Frame) :
  (j, f) ∈ sampled stride i rest ->
  i <= j < i + Z.of_nat (length rest) /\ f ∈ rest.
Proof.
  revert i. induction rest as [|g rest IH]; intros i H; simpl in H;
    [inversion H|].
  assert (T : (j, f) ∈ sampled stride (i + 1) rest ->
              i <= j < i + Z.of_nat (length (g :: rest)) /\ f ∈ g :: rest).
  { intros H'. apply IH in H' as [H1 H2]. simpl length. split; [lia|].
    right. exact H2. }
  destruct (i mod stride =? 0); [|apply T; exact H].
  apply elem_of_cons in H as [H|H]; [|apply T; exact H].
  inversion H; subst. simpl length. split; [lia|left].
Qed.

Lemma stride_of_finite_fps (video_fps sample_fps : pyfloat) (stride : Z) :
  stride_of video_fps sample_fps = OK stride -> exists b, video_fps = Fin b.
Proof.
  unfold stride_of. intros H. bind_inv H as q Eq. bind_inv H as r Er.
  destruct q as [q|n|]; try discriminate.
  destruct video_fps as [b|n|]; [eauto| |]; exfalso; unfold fdiv in Eq;
    destruct sample_fps as [c|m|]; try discriminate;
    destruct (Qis_zero c); discriminate.
Qed.

(** A completed pass over a stream that is not empty starts with the record
    of frame 0, at time 0.0, with that frame's boxes. *)
Theorem first_record :
  forall (Frame : Type) (detect : Frame -> result (list Box))
         (cap : VideoCapture Frame) sample_fps video_fps frames f rest,
    stream cap = f :: rest ->
    sample_frames detect cap sample_fps = OK (video_fps, frames) ->
    exists rec frames',
      frames = rec :: frames' /\ frame_index rec = 0 /\ time rec = Fin 0 /\
      detect f = OK (boxes rec).
Proof.
  intros Frame detect cap sample_fps video_fps frames f rest Hs H.
  apply sample_frames_OK in H as (_ & _ & stride & Hst & H1 & HF).
  rewrite Hs in HF.
  change (sampled stride 0 (f :: rest))
    with (if 0 mod stride =? 0 then (0, f) :: sampled stride (0 + 1) rest
          else sampled stride (0 + 1) rest) in HF.
  rewrite Z.mod_0_l in HF by lia. change (0 =? 0) with true in HF.
  cbv iota in HF.
  inversion HF as [|rec p frames' ps (Hi & Hd & Ht) HF']; subst.
  exists rec, frames'. simpl in Hi, Hd, Ht.
  split; [reflexivity|]. split; [exact Hi|]. split; [|exact Hd].
  destruct (stride_of_finite_fps _ _ _ Hst) as [b ->].
  eapply frame_time_0; eauto.
Qed.

Lemma first_record_witness :
  stream sample_cap = (480, 640) :: replicate 4 (480, 640) /\
  sample_frames (Yolo.detect id silent_yolo Yolo.ALLOWED_CLASSES (Fin (2 # 5)) 960)
    sample_cap (Fin 10)
  = OK (Yolo.a_video_fps sample_yolo_art, Yolo.a_frames sample_yolo_art) /\
  exists rec frames',
    Yolo.a_frames sample_yolo_art = rec :: frames' /\ time rec = Fin 0.
Proof.
  assert (E : sample_frames
                (Yolo.detect id silent_yolo Yolo.ALLOWED_CLASSES (Fin (2 # 5)) 960)
                sample_cap (Fin 10)
              = OK (Yolo.a_video_fps sample_yolo_art, Yolo.a_frames sample_yolo_art))
    by (vm_compute; reflexivity).
  split; [reflexivity|]. split; [exact E|].
  destruct (first_record _ _ sample_cap _ _ _ (480, 640)
              (replicate 4 (480, 640)) eq_refl E)
    as (rec & frames' & Hf & _ & Ht & _).
  exists rec, frames'. split; assumption.
Defined.

Lemma Yolo_boxes_loop_total allowed names w h bs acc :
  1 <= w < 2 ^ 53 -> 1 <= h < 2 ^ 53 -> Forall yolo_well_formed bs ->
  exists out, Yolo.boxes_loop allowed names w h bs acc = OK out.
Proof.
  intros Hw Hh H. revert acc. induction H as [|b bs Hb _ IH]; intros acc;
    simpl; [eauto|].
  destruct (Yolo_normalize_well_formed allowed names w h b Hw Hh Hb) as [o ->].
  rewrite ret_bind. apply IH.
Qed.

(** The closed-vocabulary run gets as far as writing its document when the
    capture opened, the stride could be computed, every frame has positive
    dimensions and well-formed detections, and the destination is writable:
    nothing before the dump raises.  The run then returns [OUT_PATH] with
    the complete document at the destination, unless the encoder raises on
    the way: then the run raises that exception, and the destination holds
    the chunks written until then. *)
Theorem yolo_run_completes :
  forall (Frame : Type) (shape : Frame -> Z * Z) predict json_iterencode
         (cap : VideoCapture Frame) sample_fps conf imgsz s stride,
    isOpened cap = true ->
    stride_of (fps_or_default (CAP_PROP_FPS cap)) sample_fps = OK stride ->
    Z.of_nat (length (stream cap)) < 2 ^ 53 ->
    Forall (fun frame =>
              1 <= (shape frame).1 < 2 ^ 53 /\ 1 <= (shape frame).2 < 2 ^ 53 /\
              exists results, predict frame imgsz conf = OK results /\
                              yolo_results_well_formed results)
      (stream cap) ->
    writable OUT_PATH s ->
    exists art s',
      Yolo.assemble shape predict Yolo.ALLOWED_CLASSES cap sample_fps conf imgsz
        = OK art /\
      Yolo.run_detection shape predict json_iterencode cap sample_fps conf imgsz
        s
      = (match (json_iterencode art).2 with
         | Some e => Raise e
         | None => OK OUT_PATH
         end, s') /\
      FS.files s' !! OUT_PATH = Some (document (json_iterencode art).1).
Proof.
  intros Frame shape predict json_iterencode cap sample_fps conf imgsz s stride
    Ho Hs Hn Hf Hw.
  assert (A : exists art,
             Yolo.assemble shape predict Yolo.ALLOWED_CLASSES cap sample_fps conf
               imgsz = OK art).
  { unfold Yolo.assemble, sample_frames. rewrite Ho. simpl. rewrite Hs, ret_bind.
    destruct (read_loop_total
                (Yolo.detect shape predict Yolo.ALLOWED_CLASSES conf imgsz)
                stride (fps_or_default (CAP_PROP_FPS cap)) (stream cap) 0 [])
      as [frames ->]; [|rewrite !ret_bind; eauto].
    apply Forall_forall. intros [j f] Hin. apply sampled_elem in Hin as [Hj Hin].
    simpl. split.
    - rewrite Forall_forall in Hf.
      destruct (Hf f Hin) as (Hh' & Hw' & results & Hp & Hr).
      unfold Yolo.detect. destruct (shape f) as [h w]. simpl in Hh', Hw'.
      rewrite Hp, ret_bind. unfold Yolo.frame_boxes.
      destruct results as [|r rs]; [reflexivity|]. simpl in Hr.
      destruct (Yolo.r_boxes r) as [bs|]; [|reflexivity].
      destruct (Yolo_boxes_loop_total Yolo.ALLOWED_CLASSES (Yolo.names r) w h bs
                  [] Hw' Hh' Hr) as [out ->]. reflexivity.
    - apply frame_time_total; [lia|apply fps_or_default_truthy]. }
  destruct A as [art A]. exists art.
  destruct (Yolo_run_persists shape predict json_iterencode cap sample_fps conf
              imgsz s art A Hw) as (s' & Hrun & Hfile).
  exists s'. split; [exact A|]. split; [exact Hrun|exact Hfile].
Qed.

Lemma yolo_run_completes_witness :
  isOpened sample_cap = true /\
  stride_of (fps_or_default (CAP_PROP_FPS sample_cap)) (Fin 10) = OK 3 /\
  Z.of_nat (length (stream sample_cap)) < 2 ^ 53 /\
  writable OUT_PATH used_fs /\
  exists (art : Yolo.Artifact) s',
    Yolo.run_detection id silent_yolo no_chunks sample_cap (Fin 10) (Fin (2 # 5))
      960 used_fs = (OK OUT_PATH, s') /\
    FS.files s' !! OUT_PATH = Some (document (no_chunks art).1).
Proof.
  assert (Hs : stride_of (fps_or_default (CAP_PROP_FPS sample_cap)) (Fin 10) = OK 3)
    by (vm_compute; reflexivity).
  assert (Hn : Z.of_nat (length (stream sample_cap)) < 2 ^ 53) by (simpl; lia).
  assert (Hf : Forall (fun frame : Z * Z =>
                         1 <= (id frame).1 < 2 ^ 53 /\ 1 <= (id frame).2 < 2 ^ 53 /\
                         exists results,
                           silent_yolo frame 960 (Fin (2 # 5)) = OK results /\
                           yolo_results_well_formed results)
                 (stream sample_cap)).
  { apply Forall_forall. intros frame Hin. unfold sample_cap in Hin.
    cbn [stream] in Hin. apply elem_of_replicate in Hin as [-> _]. simpl.
    split; [lia|]. split; [lia|]. exists []. split; [reflexivity|exact I]. }
  split; [reflexivity|]. split; [exact Hs|]. split; [exact Hn|].
  split; [exact used_fs_writable|].
  destruct (yolo_run_completes _ id silent_yolo (@no_chunks Yolo.Artifact) sample_cap (Fin 10)
              (Fin (2 # 5)) 960 used_fs 3 eq_refl Hs Hn Hf used_fs_writable)
    as (art & s' & _ & Hrun & Hfile).
  exists art, s'. split; assumption.
Defined.

(** Persisting keeps the destination writable: a second run can follow. *)
Lemma persist_keeps_writable dest chunks s s' :
  writable dest s -> FS.persist dest chunks s = (OK (), s') -> writable dest s'.
Proof.
  intros Hw Hp. pose proof Hw as (Hne & Hnd & Hf). unfold FS.persist in Hp.
  rewrite (mkdir_parents_OK _ _ Hf), (open_w_after_mkdir _ _ Hw) in Hp.
  assert (E : s' = FS.dump dest chunks
                     (FS.mkFs (FS.dirs s ∪ list_to_set (FS.prefixes (FS.parent dest)))
                        (<[dest := ""%string]> (FS.files s))))
    by congruence.
  subst s'; clear Hp. split; [exact Hne|]. split.
  - intros Hin. rewrite dump_dirs in Hin. cbn [FS.dirs] in Hin.
    apply elem_of_union in Hin as [Hin|Hin]; [contradiction|].
    apply elem_of_list_to_set in Hin.
    apply prefixes_length in Hin. pose proof (parent_length dest Hne). lia.
  - apply Forall_forall. intros q Hq.
    assert (Hqd : q ≠ dest).
    { intros ->. apply prefixes_length in Hq.
      pose proof (parent_length dest Hne). lia. }
    rewrite dump_other by exact Hqd. cbn [FS.files].
    rewrite lookup_insert_ne by congruence.
    rewrite Forall_forall in Hf. apply Hf. exact Hq.
Qed.

(** Two runs in a row: the second persist succeeds after the first, the
    destination ends up holding the second document only, and no other
    file differs from what it was before the first. *)
Theorem rerun_overwrites :
  forall dest chunks1 chunks2 s s1,
    writable dest s ->
    FS.persist dest chunks1 s = (OK (), s1) ->
    exists s2,
      FS.persist dest chunks2 s1 = (OK (), s2) /\
      FS.files s2 !! dest = Some (document chunks2) /\
      (forall q, q ≠ dest -> FS.files s2 !! q = FS.files s !! q).
Proof.
  intros dest chunks1 chunks2 s s1 Hw H1.
  pose proof (persist_keeps_writable _ _ _ _ Hw H1) as Hw1.
  destruct (persist_writable dest chunks1 s Hw) as (s1' & H1' & _ & _ & Ho1).
  rewrite H1 in H1'. inversion H1'; subst s1'; clear H1'.
  destruct (persist_writable dest chunks2 s1 Hw1) as (s2 & H2 & Hd2 & _ & Ho2).
  exists s2. split; [exact H2|]. split; [exact Hd2|].
  intros q Hq. rewrite (Ho2 q Hq). apply Ho1. exact Hq.
Qed.

Lemma rerun_overwrites_witness :
  writable OUT_PATH empty_fs /\
  exists s1 s2,
    FS.persist OUT_PATH ["first"]%string empty_fs = (OK (), s1) /\
    FS.persist OUT_PATH ["{"; "}"]%string s1 = (OK (), s2) /\
    FS.files s2 !! OUT_PATH = Some "{}"%string.
Proof.
  split; [exact empty_fs_writable|].
  destruct (persist_writable OUT_PATH ["first"]%string empty_fs empty_fs_writable)
    as (s1 & H1 & _).
  destruct (rerun_overwrites OUT_PATH ["first"]%string ["{"; "}"]%string empty_fs
              s1 empty_fs_writable H1) as (s2 & H2 & Hd & _).
  exists s1, s2. split; [exact H1|]. split; [exact H2|exact Hd].
Defined.

(** When the destination's directory or one of its ancestors is a regular
    file, persisting raises and changes nothing. *)
Theorem persist_blocked_by_file :
  forall dest chunks s q,
    q ∈ FS.prefixes (FS.parent dest) -> is_Some (FS.files s !! q) ->
    exists e,
      (e = NotADirectoryError \/ e = FileExistsError) /\
      FS.persist dest chunks s = (Raise e, s) /\
      FS.persist_trace dest chunks s = [].
Proof.
  intros dest chunks s q Hq Hf.
  assert (E : exists e, (e = NotADirectoryError \/ e = FileExistsError) /\
                        FS.mkdir_parents (FS.parent dest) s = Raise e).
  { unfold FS.mkdir_parents.
    destruct (existsb _ (FS.ancestors _)) eqn:A; [eauto|].
    apply prefixes_inv in Hq as [->|Hq].
    - unfold FS.is_file. rewrite (bool_decide_eq_true_2 _ Hf). eauto.
    - exfalso. apply not_true_iff_false in A. apply A.
      apply existsb_exists. exists q. split.
      + apply list_elem_of_In. exact Hq.
      + apply bool_decide_eq_true. exact Hf. }
  destruct E as (e & He & E). exists e. split; [exact He|].
  unfold FS.persist, FS.persist_trace. rewrite E. split; reflexivity.
Qed.

Lemma persist_blocked_by_file_witness :
  ["data"%string] ∈ FS.prefixes (FS.parent OUT_PATH) /\
  is_Some (FS.files (FS.mkFs ∅ {[ ["data"%string] := "x"%string ]})
             !! ["data"%string]) /\
  exists e,
    FS.persist OUT_PATH ["{}"%string]
      (FS.mkFs ∅ {[ ["data"%string] := "x"%string ]})
    = (Raise e, FS.mkFs ∅ {[ ["data"%string] := "x"%string ]}).
Proof.
  assert (Hq : ["data"%string] ∈ FS.prefixes (FS.parent OUT_PATH)).
  { change (FS.prefixes (FS.parent OUT_PATH))
      with [[]; ["data"%string]; ["data"; "cv"]%string].
    right. left. }
  assert (Hf : is_Some (FS.files (FS.mkFs ∅ {[ ["data"%string] := "x"%string ]})
                          !! ["data"%string])).
  { cbn [FS.files]. rewrite lookup_singleton_eq. eauto. }
  split; [exact Hq|]. split; [exact Hf|].
  destruct (persist_blocked_by_file OUT_PATH ["{}"%string] _ _ Hq Hf)
    as (e & _ & He & _).
  exists e. exact He.
Defined.

(* ===================================================================== *)
(** ** The float model against the standard library's                     *)
(* ===================================================================== *)

(** On every pair of the sample operands, rounding the exact product and
    quotient with [RN64] gives what [SFmul] and [SFdiv] give. *)
Lemma RN64_conforms :
  forallb (fun a => forallb (conforms a) conformance_operands)
    conformance_operands = true.
Proof. vm_compute. reflexivity. Qed.

(* ===================================================================== *)
(** ** The times of the records                                           *)
(* ===================================================================== *)

(** What the script computes for a record's time is the rounded quotient,
    on Python's numbers and as a number. *)
Lemma frame_time_rounded (i : Z) (f : Q) (t : pyfloat) :
  frame_time i (Fin f) = OK t -> rounded_time i f t.
Proof.
  intros H. split.
  - unfold frame_time in H. bind_inv H as q Eq. inversion H; subst. eauto.
  - unfold frame_time, num_truediv, to_float in H.
    intros Hi HX. rewrite float_of_int_exact in H by exact Hi.
    rewrite !ret_bind in H. cbn [fdiv] in H.
    destruct (Qis_zero f); [discriminate|]. rewrite ret_bind in H.
    assert (B : (Qabs (inject_Z i / f) <= inject_Z (2 ^ 1023))%Q).
    { eapply Qle_trans; [exact HX|]. unfold Qle, inject_Z. simpl. lia. }
    destruct (RN64_error _ B) as (d & Hd & Ed). rewrite Hd in H.
    assert (C : (Qabs (d - inject_Z i / f)
                 <= (Qabs (inject_Z i / f) + 1) * (1 # 2 ^ 51))%Q).
    { eapply Qle_trans; [exact Ed|].
      pose proof (Qabs_nonneg (inject_Z i / f)).
      set (a := Qabs (inject_Z i / f)) in *. clearbody a.
      unfold u53, eta. literal (1 # 2 ^ 51). literal (1 # 2 ^ 53).
      literal (1 # 2 ^ 1075). lra. }
    destruct (py_round_nd_close _ d 1000 3 eq_refl HX C)
      as (k & r & Hr & Hk & E).
    inversion H; subst t. exists k, r. split; [exact Hr|].
    split; [exact Hk|exact E].
Qed.

Lemma sample_frames_times {Frame} (detect : Frame -> result (list Box))
    (cap : VideoCapture Frame) (sample_fps video_fps : pyfloat)
    (frames : list FrameRecord) (rec : FrameRecord) :
  sample_frames detect cap sample_fps = OK (video_fps, frames) ->
  rec ∈ frames ->
  exists f,
    video_fps = Fin f /\ ~ (f == 0)%Q /\
    video_fps = fps_or_default (CAP_PROP_FPS cap) /\
    0 <= frame_index rec < Z.of_nat (length (stream cap)) /\
    rounded_time (frame_index rec) f (time rec).
Proof.
  intros H Hin.
  apply sample_frames_OK in H as (_ & Hfps & stride & Hst & _ & HF).
  destruct (stride_of_finite_fps _ _ _ Hst) as [f Hf]. exists f.
  split; [exact Hf|]. split.
  { pose proof (fps_or_default_truthy (CAP_PROP_FPS cap)) as T.
    rewrite <- Hfps, Hf in T. unfold float_truthy, Qis_zero in T.
    apply negb_true_iff, Z.eqb_neq in T.
    intros E. apply T. unfold Qeq in E. simpl in E. lia. }
  split; [exact Hfps|].
  apply list_elem_of_lookup in Hin as [k Hk].
  destruct (Forall2_lookup_l _ _ _ _ _ HF Hk) as ([j fr] & Hj & Hi & _ & Ht).
  cbn [fst snd] in Hi, Ht. rewrite Hi.
  apply list_elem_of_lookup_2 in Hj. apply sampled_elem in Hj as [Hj _].
  split; [lia|]. apply frame_time_rounded. rewrite <- Hf. exact Ht.
Qed.

(** Every record of a completed run carries the time
    [round(frame_index / video_fps, 3)] of its frame's index in the full
    stream, for the frame rate the document records: the one the capture
    reported, or 30.0 where it reported zero; that rate is a finite number
    other than zero, and the time is a decimal with three places within
    half a millisecond of [frame_index / video_fps]. *)
Theorem record_times :
  (forall (Frame : Type) (shape : Frame -> Z * Z) predict allowed
          (cap : VideoCapture Frame) sample_fps conf imgsz art rec,
      Yolo.assemble shape predict allowed cap sample_fps conf imgsz = OK art ->
      rec ∈ Yolo.a_frames art ->
      exists f,
        Yolo.a_video_fps art = Fin f /\ ~ (f == 0)%Q /\
        Yolo.a_video_fps art = fps_or_default (CAP_PROP_FPS cap) /\
        0 <= frame_index rec < Z.of_nat (length (stream cap)) /\
        rounded_time (frame_index rec) f (time rec))
  /\
  (forall (Frame : Type) (shape : Frame -> Z * Z) cuda predict
          (cap : VideoCapture Frame) sample_fps threshold model_id prompts art
          rec,
      OpenVocab.assemble shape cuda predict cap sample_fps threshold model_id
        prompts = OK art ->
      rec ∈ OpenVocab.a_frames art ->
      exists f,
        OpenVocab.a_video_fps art = Fin f /\ ~ (f == 0)%Q /\
        OpenVocab.a_video_fps art = fps_or_default (CAP_PROP_FPS cap) /\
        0 <= frame_index rec < Z.of_nat (length (stream cap)) /\
        rounded_time (frame_index rec) f (time rec)).
Proof.
  split.
  - intros Frame shape predict allowed cap sample_fps conf imgsz art rec H Hin.
    apply Yolo_assemble_OK in H as [H _].
    exact (sample_frames_times _ _ _ _ _ _ H Hin).
  - intros Frame shape cuda predict cap sample_fps threshold model_id prompts
      art rec H Hin.
    apply OpenVocab_assemble_OK in H as [H _].
    exact (sample_frames_times _ _ _ _ _ _ H Hin).
Qed.

Lemma record_times_witness :
  Yolo.assemble id silent_yolo Yolo.ALLOWED_CLASSES
    (mkCapture true (Fin 0) (replicate 5 (480, 640))) (Fin 10) (Fin (2 # 5)) 960
  = OK sample_yolo_art /\
  mkFrameRecord (RN64 (1 # 10)) 3 [] ∈ Yolo.a_frames sample_yolo_art /\
  Yolo.a_video_fps sample_yolo_art = Fin 30 /\
  near_decimal 1000 (3 / 30) (RN64 (1 # 10)).
Proof.
  assert (E : Yolo.assemble id silent_yolo Yolo.ALLOWED_CLASSES
                (mkCapture true (Fin 0) (replicate 5 (480, 640))) (Fin 10)
                (Fin (2 # 5)) 960 = OK sample_yolo_art)
    by (vm_compute; reflexivity).
  assert (Hin : mkFrameRecord (RN64 (1 # 10)) 3 [] ∈ Yolo.a_frames sample_yolo_art).
  { assert (L : Yolo.a_frames sample_yolo_art
                = [mkFrameRecord (Fin 0) 0 []; mkFrameRecord (RN64 (1 # 10)) 3 []])
      by (vm_compute; reflexivity).
    rewrite L. right. left. }
  split; [exact E|]. split; [exact Hin|].
  destruct (proj1 record_times _ _ _ _ _ _ _ _ _ _ E Hin)
    as (f & Hf & _ & Hfps & _ & Ht).
  split; [rewrite Hfps; reflexivity|].
  assert (F : f = 30%Q) by (rewrite Hfps in Hf; inversion Hf; reflexivity).
  subst f. cbn [frame_index time] in Ht.
  apply Ht; [lia|]. unfold Qle. simpl. lia.
Defined.

Lemma py_index_total {A} (l : list A) (i : Z) :
  - Z.of_nat (length l) <= i < Z.of_nat (length l) -> exists x, py_index l i = OK x.
Proof.
  intros H. destruct (Z_lt_ge_dec i 0) as [N|N].
  - destruct (proj1 (proj2 (py_index_spec l i)) ltac:(lia)) as [_ E].
    destruct (py_index l i); [eauto|discriminate].
  - destruct (proj1 (py_index_spec l i) ltac:(lia)) as [_ E].
    destruct (py_index l i); [eauto|discriminate].
Qed.

Lemma OpenVocab_clamp_lo_float (x : pyfloat) :
  x ≠ Inf false -> exists q, OpenVocab.clamp_lo x = PFloat (Fin q).
Proof.
  intros H. unfold OpenVocab.clamp_lo, py_max, num_gtb, num_ltb.
  destruct x as [q|[|]|]; simpl.
  - destruct (Qltb _ q); eauto.
  - eauto.
  - contradiction.
  - eauto.
Qed.

Lemma OpenVocab_clamp_hi_float (dim : Z) (x : pyfloat) :
  1 <= dim < 2 ^ 53 -> x ≠ Inf true ->
  exists q, OpenVocab.clamp_hi dim x = OK (PFloat (Fin q)).
Proof.
  intros Hd H. unfold OpenVocab.clamp_hi.
  rewrite float_of_int_exact by lia. rewrite ret_bind.
  unfold py_min, num_ltb. destruct x as [q|[|]|]; simpl.
  - destruct (Qltb q _); eauto.
  - contradiction.
  - eauto.
  - eauto.
Qed.

(** Normalising a well-formed open-vocabulary detection cannot raise on a
    frame of positive size; NaN corners are clamped like any other: four
    of them give the whole frame. *)
Theorem open_vocab_normalize_total :
  (forall prompts w h d,
      1 <= w < 2 ^ 53 -> 1 <= h < 2 ^ 53 -> ov_well_formed prompts d ->
      exists box, OpenVocab.normalize prompts w h d = OK box)
  /\
  (forall prompts w h score label_idx box,
      1 <= w < 2 ^ 53 -> 1 <= h < 2 ^ 53 ->
      OpenVocab.normalize prompts w h ([NaN; NaN; NaN; NaN], score, label_idx)
        = OK box ->
      bbox_px box = [0; 0; w - 1; h - 1]).
Proof.
  split.
  - intros prompts w h [[row score] idx] Hw Hh
      [(x1 & y1 & x2 & y2 & Hrow & N1 & N2 & N3 & N4) Hi].
    simpl in Hrow, Hi. subst row. unfold OpenVocab.normalize.
    destruct (py_index_total prompts idx Hi) as [l ->]. rewrite ret_bind.
    change (unpack4 [x1; y1; x2; y2]) with (OK (x1, y1, x2, y2)).
    rewrite ret_bind. cbv beta iota.
    destruct (OpenVocab_clamp_lo_float x1 N1) as [q1 ->].
    destruct (OpenVocab_clamp_lo_float y1 N2) as [q2 ->].
    destruct (OpenVocab_clamp_hi_float w x2 Hw N3) as [q3 ->].
    destruct (OpenVocab_clamp_hi_float h y2 Hh N4) as [q4 ->].
    rewrite !ret_bind.
    destruct (pct_float_total (Fin q1) w Hw) as [p1 P1].
    destruct (pct_float_total (Fin q2) h Hh) as [p2 P2].
    destruct (pct_float_total (Fin q3) w Hw) as [p3 P3].
    destruct (pct_float_total (Fin q4) h Hh) as [p4 P4].
    unfold px_list, pct_list. cbn [py_int]. rewrite !ret_bind.
    rewrite P1, P2, P3, P4. rewrite !ret_bind. eauto.
  - intros prompts w h score label_idx box Hw Hh H.
    apply OpenVocab_normalize_OK in H
      as (x1 & y1 & x2 & y2 & c3 & c4 & Hr & _ & _ & H3 & H4 & Hpx & _).
    inversion Hr; subst x1 y1 x2 y2.
    apply OpenVocab_clamp_hi_exact in H3; [|lia].
    apply OpenVocab_clamp_hi_exact in H4; [|lia]. subst c3 c4.
    unfold px_list in Hpx. simpl in Hpx. rewrite !Qtrunc_inject_Z in Hpx.
    inversion Hpx. reflexivity.
Qed.

Lemma open_vocab_normalize_total_witness :
  1 <= 640 < 2 ^ 53 /\ 1 <= 480 < 2 ^ 53 /\
  ov_well_formed OpenVocab.default_prompts ([NaN; NaN; NaN; NaN], Fin (1 # 2), -1) /\
  exists box,
    OpenVocab.normalize OpenVocab.default_prompts 640 480
      ([NaN; NaN; NaN; NaN], Fin (1 # 2), -1) = OK box /\
    bbox_px box = [0; 0; 639; 479].
Proof.
  assert (Hw : 1 <= 640 < 2 ^ 53) by lia.
  assert (Hh : 1 <= 480 < 2 ^ 53) by lia.
  assert (Hd : ov_well_formed OpenVocab.default_prompts
                 ([NaN; NaN; NaN; NaN], Fin (1 # 2), -1)).
  { split.
    - exists NaN, NaN, NaN, NaN. repeat split; discriminate.
    - simpl. lia. }
  split; [exact Hw|]. split; [exact Hh|]. split; [exact Hd|].
  destruct (proj1 open_vocab_normalize_total _ 640 480 _ Hw Hh Hd) as [box E].
  exists box. split; [exact E|].
  exact (proj2 open_vocab_normalize_total _ 640 480 _ _ _ Hw Hh E).
Defined.
